(** * Discord Community Information Lookup: metrics, ranking and reports

    A shallow embedding of [analyze_communities.py] and of the record
    producing part of [dcil.py], with the properties of the record parser,
    the derived metrics, the rank columns and the report dispatch.

    Conventions of the embedding:
    - a Python [str] is a [string]; a character is a code point below 256;
    - a Python [int] is a [Z];
    - a Python [float] is a double, kept as the rational number it stands
      for; the operations round to the nearest double, ties to even, and
      leave the range of the doubles as Python does ([OverflowError] for
      a quotient of two ints, an infinity for a product);
    - a raised exception is the [Raise] case of [result]. *)

From Stdlib Require Import ZArith QArith List String Ascii Bool Lia Lqa.
From Stdlib Require Import Permutation DecimalString DecimalPos.
Import ListNotations.

#[local] Open Scope string_scope.
#[local] Open Scope Z_scope.

(** ** Exceptions and the error monad *)

Inductive exn : Type :=
| KeyError (key : string)
| ValueError (literal : string)
| IndexError
| ZeroDivisionError
| OverflowError
| OSError (path : string)
| Exception (message : string).

Inductive result (A : Type) : Type :=
| Ok (a : A)
| Raise (e : exn).

Arguments Ok {A} a.
Arguments Raise {A} e.

Definition bind {A B : Type} (m : result A) (k : A -> result B) : result B :=
  match m with
  | Ok a => k a
  | Raise e => Raise e
  end.

Notation "x <- m ;; k" := (bind m (fun x => k))
  (at level 61, m at next level, right associativity).

(** ** Python string operations *)

Module PyStr.

Definition LF : ascii := "010"%char.
Definition CR : ascii := "013"%char.

(** [str.isspace] on one code point below 256. *)
Definition isspace (c : ascii) : bool :=
  let n := N_of_ascii c in
  (((9 <=? n) && (n <=? 13)) || ((28 <=? n) && (n <=? 32))
   || (n =? 133) || (n =? 160))%N.

Definition isdigit (c : ascii) : bool :=
  let n := N_of_ascii c in ((48 <=? n) && (n <=? 57))%N.

Definition digit_value (c : ascii) : Z := Z.of_N (N_of_ascii c) - 48.

(** [s.startswith(p)] *)
Definition startswith (s p : string) : bool := String.prefix p s.

(** [s.endswith(p)] *)
Definition endswith (s p : string) : bool :=
  let n := String.length s in
  let m := String.length p in
  (m <=? n)%nat && String.eqb (String.substring (n - m) m s) p.

(** [s.split(c)] for a one-character separator: every occurrence of the
    separator cuts, so the list has one more piece than [s] has
    separators. *)
Fixpoint split (c : ascii) (s : string) : list string :=
  match s with
  | EmptyString => [EmptyString]
  | String a s' =>
      if Ascii.eqb a c then EmptyString :: split c s'
      else match split c s' with
           | [] => [String a EmptyString]
           | p :: ps => String a p :: ps
           end
  end.

(** [l[i]] on a list. *)
Definition getitem {A : Type} (l : list A) (i : nat) : result A :=
  match nth_error l i with
  | Some x => Ok x
  | None => Raise IndexError
  end.

Fixpoint lstrip (s : string) : string :=
  match s with
  | EmptyString => EmptyString
  | String a s' => if isspace a then lstrip s' else s
  end.

Fixpoint rstrip (s : string) : string :=
  match s with
  | EmptyString => EmptyString
  | String a s' =>
      match rstrip s' with
      | EmptyString => if isspace a then EmptyString else String a EmptyString
      | t => String a t
      end
  end.

(** [s.strip()] *)
Definition strip (s : string) : string := rstrip (lstrip s).

(** The digits of a decimal literal, left to right; a single underscore is
    allowed between two digits. [seen] tells that the previous character
    was a digit. *)
Fixpoint digits (acc : Z) (seen : bool) (s : string) : option Z :=
  match s with
  | EmptyString => if seen then Some acc else None
  | String c s' =>
      if isdigit c then digits (10 * acc + digit_value c) true s'
      else if Ascii.eqb c "_" && seen then digits acc false s'
      else None
  end.

(** The longest literal that [int] converts: the default of
    [sys.set_int_max_str_digits]. *)
Definition int_max_str_digits : nat := 4300.

Fixpoint count_digits (s : string) : nat :=
  match s with
  | EmptyString => 0
  | String c s' => ((if isdigit c then 1 else 0) + count_digits s')%nat
  end.

(** [int(s)] on a string: surrounding white space is dropped, one sign is
    allowed, and the rest is a decimal literal of at most
    [int_max_str_digits] digits. *)
Definition int (s : string) : result Z :=
  let t := strip s in
  let parsed :=
    match t with
    | String "-" u => option_map Z.opp (digits 0 false u)
    | String "+" u => digits 0 false u
    | _ => digits 0 false t
    end in
  if (int_max_str_digits <? count_digits t)%nat then Raise (ValueError s)
  else
    match parsed with
    | Some z => Ok z
    | None => Raise (ValueError s)
    end.

(** [str(z)], which is what an f-string puts for an int; Python gives
    this text for an int of at most [int_max_str_digits] digits. *)
Definition str (z : Z) : string := NilZero.string_of_int (Z.to_int z).

(** ["\n".join(l)] *)
Fixpoint join_lines (l : list string) : string :=
  match l with
  | [] => EmptyString
  | [x] => x
  | x :: rest => x ++ String LF (join_lines rest)
  end.

(** Reading a text file translates ["\r\n"] and ["\r"] to ["\n"]. *)
Fixpoint universal_newlines (s : string) : string :=
  match s with
  | EmptyString => EmptyString
  | String c s' =>
      if Ascii.eqb c CR then
        match s' with
        | String c' s'' =>
            if Ascii.eqb c' LF then String LF (universal_newlines s'')
            else String LF (universal_newlines s')
        | EmptyString => String LF EmptyString
        end
      else String c (universal_newlines s')
  end.

(** Cutting after every ["\n"], which stays at the end of its line. *)
Fixpoint keepends (s : string) : list string :=
  match s with
  | EmptyString => []
  | String c s' =>
      if Ascii.eqb c LF then String c EmptyString :: keepends s'
      else match keepends s' with
           | [] => [String c EmptyString]
           | l :: ls => String c l :: ls
           end
  end.

(** [file.readlines()] on the content of a file opened in text mode. *)
Definition readlines (content : string) : list string :=
  keepends (universal_newlines content).

End PyStr.

(** * analyze_communities.py *)

Module Analyze.

(** ** The record of one community

    [load_data_from_file] fills a dict key by key; [data] is that dict
    while the lines are read: a key is there or not. *)

Record data : Type := mkData {
  d_community_name : option string;
  d_link : option string;
  d_active_members : option Z;
  d_offline_members : option Z;
  d_total_members : option Z
}.

Definition empty_data : data := mkData None None None None None.

(** The dict that [load_data_from_file] returns: the three counts and the
    two derived metrics are there; the name and the link are there when the
    file had their lines. *)
Record community : Type := mkCommunity {
  community_name : option string;
  link : option string;
  active_members : Z;
  offline_members : Z;
  total_members : Z;
  engagement_rate : Q;
  active_ratio : Q
}.

(** [data[key]] *)
Definition lookup {A : Type} (key : string) (field : option A) : result A :=
  match field with
  | Some v => Ok v
  | None => Raise (KeyError key)
  end.

(** ** Floats

    A double is kept as the rational number it stands for, and [inf] and
    [-inf] as [infinity] and [- infinity], the first power of two past the
    largest double: order and equality of these rationals are those of the
    floats. The operations of lines 43 and 44 give no nan. *)

Definition infinity : Q := inject_Z (2 ^ 1024).

Definition is_inf (x : Q) : bool :=
  Qle_bool infinity x || Qle_bool x (- infinity).

Definition pow2 (e : Z) : Q :=
  if 0 <=? e then inject_Z (2 ^ e) else 1 # Z.to_pos (2 ^ (- e)).

(** The double nearest to [n / d], ties to the even significand. [fl] is
    the exponent of the leading bit of the quotient; the last bit that a
    double keeps has the exponent [e], 52 places lower and never under
    -1074; [m] counts the whole multiples of [2 ^ e] in the quotient and
    [r] is what is left of it. A result past the largest double is
    [infinity]. *)
Definition nearest_positive (n d : positive) : Q :=
  let e0 := Z.log2 (Z.pos n) - Z.log2 (Z.pos d) in
  let below :=
    if 0 <=? e0 then Z.pos n <? Z.pos d * 2 ^ e0
    else Z.pos n * 2 ^ (- e0) <? Z.pos d in
  let fl := if below then e0 - 1 else e0 in
  let e := Z.max (fl - 52) (-1074) in
  let N := if 0 <=? e then Z.pos n else Z.pos n * 2 ^ (- e) in
  let D := if 0 <=? e then Z.pos d * 2 ^ e else Z.pos d in
  let m := N / D in
  let r := N mod D in
  let m' := if (D <? 2 * r) || ((D =? 2 * r) && Z.odd m) then m + 1 else m in
  let v := Qred (inject_Z m' * pow2 e) in
  if Qle_bool infinity v then infinity else v.

Definition nearest_double (q : Q) : Q :=
  match Qnum q with
  | 0 => 0%Q
  | Z.pos n => nearest_positive n (Qden q)
  | Z.neg n => (- nearest_positive n (Qden q))%Q
  end.

(** [x * y] on two finite floats: a product past the largest double is an
    infinity. *)
Definition float_mul (x y : Q) : Q := nearest_double (x * y).

(** [a / b] on two ints: the double nearest to the quotient, and an
    [OverflowError] when that lies past the largest double. *)
Definition true_divide (a b : Z) : result Q :=
  if b =? 0 then Raise ZeroDivisionError
  else
    let q := nearest_double (inject_Z a / inject_Z b) in
    if is_inf q then Raise OverflowError else Ok q.

(** [line.split(":")[1].strip()] *)
Definition field_value (line : string) : result string :=
  piece <- PyStr.getitem (PyStr.split ":" line) 1 ;;
  Ok (PyStr.strip piece).

(** The wording of the specification for the same step, to compare with
    [field_value]: the line is cut at its first colon only and all that
    follows is the value. *)
Fixpoint after_first_colon (s : string) : string :=
  match s with
  | EmptyString => EmptyString
  | String a s' => if Ascii.eqb a ":" then s' else after_first_colon s'
  end.

Definition spec_field_value (line : string) : string :=
  PyStr.strip (after_first_colon line).

(** One turn of the loop over the lines (lines 30 to 40). *)
Definition read_line (d : data) (line : string) : result data :=
  if PyStr.startswith line "Community Name:" then
    v <- field_value line ;;
    Ok (mkData (Some v) (d_link d) (d_active_members d)
               (d_offline_members d) (d_total_members d))
  else if PyStr.startswith line "Community Link:" then
    v <- field_value line ;;
    Ok (mkData (d_community_name d) (Some v) (d_active_members d)
               (d_offline_members d) (d_total_members d))
  else if PyStr.startswith line "Total Active Members:" then
    v <- field_value line ;;
    n <- PyStr.int v ;;
    Ok (mkData (d_community_name d) (d_link d) (Some n)
               (d_offline_members d) (d_total_members d))
  else if PyStr.startswith line "Total Offline Members:" then
    v <- field_value line ;;
    n <- PyStr.int v ;;
    Ok (mkData (d_community_name d) (d_link d) (d_active_members d)
               (Some n) (d_total_members d))
  else if PyStr.startswith line "Total Members:" then
    v <- field_value line ;;
    n <- PyStr.int v ;;
    Ok (mkData (d_community_name d) (d_link d) (d_active_members d)
               (d_offline_members d) (Some n))
  else Ok d.

Fixpoint read_lines (d : data) (lines : list string) : result data :=
  match lines with
  | [] => Ok d
  | line :: rest => d' <- read_line d line ;; read_lines d' rest
  end.

(** Line 43. The conditional expression looks at [data['total_members']]
    first; [data['active_members']] is read only when the total is
    positive. *)
Definition line_43 (d : data) : result Q :=
  t <- lookup "total_members" (d_total_members d) ;;
  if 0 <? t then
    a <- lookup "active_members" (d_active_members d) ;;
    t' <- lookup "total_members" (d_total_members d) ;;
    q <- true_divide a t' ;;
    Ok (float_mul q 100)
  else Ok 0%Q.

(** Line 44. *)
Definition line_44 (d : data) : result Q :=
  a <- lookup "active_members" (d_active_members d) ;;
  o <- lookup "offline_members" (d_offline_members d) ;;
  true_divide a (o + 1).

(** Lines 43 to 45: the dict with its two new keys. *)
Definition add_metrics (d : data) : result community :=
  rate <- line_43 d ;;
  ratio <- line_44 d ;;
  a <- lookup "active_members" (d_active_members d) ;;
  o <- lookup "offline_members" (d_offline_members d) ;;
  t <- lookup "total_members" (d_total_members d) ;;
  Ok (mkCommunity (d_community_name d) (d_link d) a o t rate ratio).

(** The body of [load_data_from_file] on the lines of the file. *)
Definition load_lines (lines : list string) : result community :=
  d <- read_lines empty_data lines ;;
  add_metrics d.

(** The files the scripts read: the text of a file and the entries of a
    directory, when they can be opened. *)
Record filesystem : Type := mkFs {
  fs_open : string -> option string;
  fs_listdir : string -> option (list string)
}.

Definition load_data_from_file (fs : filesystem) (filepath : string)
  : result community :=
  match fs_open fs filepath with
  | None => Raise (OSError filepath)
  | Some content => load_lines (PyStr.readlines content)
  end.

(** ** The rank columns: [Series.rank(ascending=False)]

    pandas ranks a column by sorting its positions on the values (a stable
    ascending sort, reversed for a descending rank) and walking the sorted
    positions once: [sum_ranks] adds up the positions of the current block
    of equal values and [dups] counts them; when the next value differs the
    whole block is given [sum_ranks / dups]. *)

(** A stable ascending sort on a key. *)
Fixpoint insert {A : Type} (key : A -> Q) (x : A) (l : list A) : list A :=
  match l with
  | [] => [x]
  | y :: l' => if Qle_bool (key x) (key y) then x :: l else y :: insert key x l'
  end.

Definition lexsort {A : Type} (key : A -> Q) (l : list A) : list A :=
  fold_right (insert key) [] l.

(** Each value with its position in the column. *)
Definition indexed (values : list Q) : list (nat * Q) :=
  combine (seq 0 (List.length values)) values.

(** [out[k] = r] *)
Fixpoint set_nth (k : nat) (r : Q) (out : list Q) : list Q :=
  match out, k with
  | [], _ => []
  | _ :: t, O => r :: t
  | x :: t, S k' => x :: set_nth k' r t
  end.

(** The inner loop that writes the rank of a finished block; [pend] holds
    the positions of the block, the last one read first. *)
Definition assign (pend : list nat) (r : Q) (out : list Q) : list Q :=
  fold_right (fun k o => set_nth k r o) out pend.

Definition average (sum_ranks dups : nat) : Q :=
  Z.of_nat sum_ranks # Pos.of_nat dups.

(** The walk over the sorted positions; [i] counts from 0. *)
Fixpoint rank_sorted (i sum_ranks dups : nat) (pend : list nat)
    (sorted : list (nat * Q)) (out : list Q) : list Q :=
  match sorted with
  | [] => out
  | (k, v) :: rest =>
      let sum_ranks' := (sum_ranks + (i + 1))%nat in
      let dups' := (dups + 1)%nat in
      let pend' := k :: pend in
      let next_val_diff :=
        match rest with
        | [] => true
        | (_, v') :: _ => negb (Qeq_bool v v')
        end in
      if next_val_diff then
        rank_sorted (i + 1) 0 0 [] rest
          (assign pend' (average sum_ranks' dups') out)
      else rank_sorted (i + 1) sum_ranks' dups' pend' rest out
  end.

(** The positions in descending order of value. *)
Definition sort_indexer (values : list Q) : list (nat * Q) :=
  rev (lexsort snd (indexed values)).

Definition rank (values : list Q) : list Q :=
  rank_sorted 0 0 0 [] (sort_indexer values)
    (repeat 0%Q (List.length values)).

(** ** [analyze_communities] *)

Record dataframe : Type := mkFrame {
  rows : list community;
  size_rank : list Q;
  engagement_rank : list Q;
  activity_rank : list Q
}.

(** The truth value of an optional command line string. *)
Definition truthy (o : option string) : bool :=
  match o with
  | Some s => negb (String.eqb s EmptyString)
  | None => false
  end.

Definition text (o : option string) : string :=
  match o with
  | Some s => s
  | None => EmptyString
  end.

(** [os.path.join(a, b)] *)
Definition path_join (a b : string) : string :=
  if PyStr.startswith b "/" then b
  else if String.eqb a EmptyString || PyStr.endswith a "/" then a ++ b
  else a ++ "/" ++ b.

(** The loop of lines 53 to 57 over the entries of the directory. *)
Fixpoint load_directory (fs : filesystem) (directory : string)
    (entries : list string) : result (list community) :=
  match entries with
  | [] => Ok []
  | filename :: rest =>
      if PyStr.endswith filename ".txt" then
        c <- load_data_from_file fs (path_join directory filename) ;;
        cs <- load_directory fs directory rest ;;
        Ok (c :: cs)
      else load_directory fs directory rest
  end.

(** The list [communities_data] of lines 49 to 61. *)
Definition communities_data (fs : filesystem) (directory file : option string)
  : result (list community) :=
  if truthy directory then
    match fs_listdir fs (text directory) with
    | None => Raise (OSError (text directory))
    | Some entries => load_directory fs (text directory) entries
    end
  else if truthy file then
    c <- load_data_from_file fs (text file) ;;
    Ok [c]
  else Ok [].

(** Lines 63 to 70. A frame made of no dict has no column, and
    [df['total_members']] raises. *)
Definition add_rankings (cs : list community) : result dataframe :=
  match cs with
  | [] => Raise (KeyError "total_members")
  | _ =>
      Ok (mkFrame cs
            (rank (map (fun c => inject_Z (total_members c)) cs))
            (rank (map engagement_rate cs))
            (rank (map active_ratio cs)))
  end.

Definition analyze_communities (fs : filesystem)
    (directory file : option string) : result dataframe :=
  cs <- communities_data fs directory file ;;
  add_rankings cs.

(** ** The competitive report of [generate_analysis_report]

    The report is kept as the values that the f-strings print, before they
    are laid out as text: the number of communities, the three tables and
    the two findings that name a community. The averages, the sum and the
    medians of lines 120 to 122 and 143 to 146 are numbers that pandas
    reduces from whole columns in its own arithmetic; they are not among
    the values kept. *)

(** [df.sort_values(col, ascending=False)]: the rows are reversed, sorted
    ascending and reversed again. The order among rows of equal value is
    the one of the sort that pandas calls; the model takes a stable one,
    under which such rows keep their order. *)
Definition sort_values (key : community -> Q) (cs : list community)
  : list community :=
  rev (lexsort key (rev cs)).

Definition total_q (c : community) : Q := inject_Z (total_members c).

(** The row of [idxmax()]: the first row that holds the largest value. *)
Fixpoint first_max (key : community -> Q) (best : community)
    (rest : list community) : community :=
  match rest with
  | [] => best
  | c :: rest' =>
      if Qle_bool (key c) (key best) then first_max key best rest'
      else first_max key c rest'
  end.

Record analysis_report : Type := mkAnalysis {
  communities_analyzed : nat;
  by_size : list (option string * Z * Q);
  by_engagement : list (option string * Q * Z);
  by_activity : list (option string * Z * Z);
  most_engaged : option string * Q;
  largest : option string * Z
}.

(** The column [community_name] exists when some dict had the key. *)
Definition has_name_column (cs : list community) : bool :=
  existsb (fun c => match community_name c with Some _ => true | None => false end) cs.

Definition generate_analysis_report (df : dataframe) : result analysis_report :=
  match rows df with
  | [] => Raise (KeyError "total_members")
  | c0 :: rest =>
      if has_name_column (rows df) then
        let cs := rows df in
        let top_rate := first_max engagement_rate c0 rest in
        let top_size := first_max total_q c0 rest in
        Ok (mkAnalysis
              (List.length cs)
              (map (fun c => (community_name c, total_members c, engagement_rate c))
                   (sort_values total_q cs))
              (map (fun c => (community_name c, engagement_rate c, total_members c))
                   (sort_values engagement_rate cs))
              (map (fun c => (community_name c, active_members c, total_members c))
                   (sort_values active_ratio cs))
              (community_name top_rate, engagement_rate top_rate)
              (community_name top_size, total_members top_size))
      else Raise (KeyError "['community_name'] not in index")
  end.

(** ** The activity report of [generate_single_community_visualizations]

    [df.iloc[0]] hands the counts of the row to the divisions of lines 196
    to 216. Under pandas these are numpy integer scalars, which divide as
    the doubles they convert to, and whose division by zero gives an
    infinity or a nan with a warning; on Python ints the same division
    raises [ZeroDivisionError]. The model keeps both readings. *)

Inductive scalars : Type := PythonInt | NumpyInt64.

Inductive fval : Type :=
| Finite (q : Q)
| Inf
| NegInf
| NaN.

Definition is_finite (x : fval) : bool :=
  match x with
  | Finite _ => true
  | _ => false
  end.

(** The float that a rational of the model stands for. *)
Definition to_fval (x : Q) : fval :=
  if Qle_bool infinity x then Inf
  else if Qle_bool x (- infinity) then NegInf
  else Finite x.

(** [a / b] on two counts of the row. A Python int divides as in
    [true_divide]; a numpy scalar is a 64-bit integer, and each of the two
    is converted to its double before the doubles are divided. *)
Definition scalar_divide (k : scalars) (a b : Z) : result fval :=
  match k with
  | PythonInt => q <- true_divide a b ;; Ok (Finite q)
  | NumpyInt64 =>
      if b =? 0 then
        Ok (if 0 <? a then Inf else if a <? 0 then NegInf else NaN)
      else
        Ok (to_fval (nearest_double (nearest_double (inject_Z a)
                                     / nearest_double (inject_Z b))))
  end.

(** [x * 100] *)
Definition times_100 (x : fval) : fval :=
  match x with
  | Finite q => to_fval (float_mul q 100)
  | other => other
  end.

Record activity_report : Type := mkActivity {
  report_name : option string;
  report_total : Z;
  report_active : Z;
  report_inactive : Z;
  report_engagement : Q;
  inactive_to_active_ratio : fval;
  active_to_inactive_ratio : fval;
  percent_active : fval;
  percent_inactive : fval
}.

(** Lines 195 to 217 on the first row of the frame. *)
Definition activity_ratio_report (k : scalars) (named : bool) (c : community)
  : result activity_report :=
  active_to_inactive <-
    (if 0 <? offline_members c
     then scalar_divide k (active_members c) (offline_members c)
     else Ok Inf) ;;
  inactive_to_active <-
    (if 0 <? active_members c
     then scalar_divide k (offline_members c) (active_members c)
     else Ok Inf) ;;
  name <- (if named then Ok (community_name c)
           else Raise (KeyError "community_name")) ;;
  share_active <- scalar_divide k (active_members c) (total_members c) ;;
  share_inactive <- scalar_divide k (offline_members c) (total_members c) ;;
  Ok (mkActivity name (total_members c) (active_members c)
        (offline_members c) (engagement_rate c)
        inactive_to_active active_to_inactive
        (times_100 share_active) (times_100 share_inactive)).

(** The plotting library. What a chart call does to the figures is its
    own affair, but a call that raises ends the run of the script, so each
    group of calls is kept as the exception it raises, if any:
    - [pie] stands for lines 160 to 166, the figure and [plt.pie] on the
      two wedges of the row;
    - [breakdown] stands for the calls of lines 167 to 193 once the title
      of the first chart has read the name of the row;
    - [scatter] stands for lines 229 to 233 and [charts] for lines 235 to
      272 of the charts over all the rows. *)
Record plotting : Type := mkPlotting {
  pie : list Z -> option exn;
  breakdown : community -> option exn;
  scatter : list community -> option exn;
  charts : list community -> option exn
}.

(** A chart call as a step of the run. *)
Definition draw (drawn : option exn) : result unit :=
  match drawn with
  | Some e => Raise e
  | None => Ok tt
  end.

(** The files that a run writes: [analysis_report.txt] and
    [activity_ratio_report.txt]. *)
Inductive report_file : Type :=
| AnalysisReport (r : analysis_report)
| ActivityRatioReport (r : activity_report).

(** The two charts are drawn first; the title of line 167 is the first to
    read the name of the row; the report of lines 195 to 221 comes last,
    and is the only file written that is kept here. *)
Definition generate_single_community_visualizations (plt : plotting)
    (k : scalars) (df : dataframe) : result report_file :=
  match rows df with
  | [] => Raise IndexError
  | c :: _ =>
      _ <- draw (pie plt [active_members c; offline_members c]) ;;
      _ <- (if has_name_column (rows df) then Ok tt
            else Raise (KeyError "community_name")) ;;
      _ <- draw (breakdown plt c) ;;
      r <- activity_ratio_report k (has_name_column (rows df)) c ;;
      Ok (ActivityRatioReport r)
  end.

(** ** [main] *)

Record args : Type := mkArgs {
  arg_d : option string;
  arg_f : option string;
  arg_s : option string;
  arg_u : bool
}.

(** [generate_visualizations]: for a single community everything is left
    to [generate_single_community_visualizations]; otherwise three charts
    are drawn over all the rows, and line 234 is the first to read the
    column of the names. *)
Definition generate_visualizations (plt : plotting) (k : scalars)
    (df : dataframe) (is_single_community : bool)
  : result (list report_file) :=
  if is_single_community then
    r <- generate_single_community_visualizations plt k df ;;
    Ok [r]
  else
    _ <- draw (scatter plt (rows df)) ;;
    _ <- (if has_name_column (rows df) then Ok tt
          else Raise (KeyError "community_name")) ;;
    _ <- draw (charts plt (rows df)) ;;
    Ok [].

(** What a run leaves: whether it printed the usage text, the report
    files it wrote, in order, and the exception that ended it, if any. *)
Record run : Type := mkRun {
  usage_printed : bool;
  written : list report_file;
  raised : option exn
}.

(** Lines 282 to 295. Both steps look at [args.f]. The competitive report
    is on disk before the charts are drawn, so it stays when they raise.
    Copying the files for [-s] comes after and is left out. *)
Definition main (plt : plotting) (k : scalars) (fs : filesystem) (a : args)
  : run :=
  if arg_u a || (negb (truthy (arg_d a)) && negb (truthy (arg_f a))) then
    mkRun true [] None
  else
    match analyze_communities fs (arg_d a) (arg_f a) with
    | Raise e => mkRun false [] (Some e)
    | Ok df =>
        match (if negb (truthy (arg_f a))
               then r <- generate_analysis_report df ;; Ok [AnalysisReport r]
               else Ok []) with
        | Raise e => mkRun false [] (Some e)
        | Ok analysis =>
            let is_single_community := truthy (arg_f a) in
            match generate_visualizations plt k df is_single_community with
            | Raise e => mkRun false analysis (Some e)
            | Ok reports => mkRun false (analysis ++ reports)%list None
            end
        end
    end.

End Analyze.

(** * dcil.py *)

Module Dcil.

(** The dict that [scrape_discord_community] returns. *)
Record info : Type := mkInfo {
  community_name : string;
  link : string;
  active_members : Z;
  offline_members : Z;
  total_members : Z
}.

(** [format_report] *)
Definition format_report (i : info) : string :=
  PyStr.join_lines
    [ "Community Name: " ++ community_name i;
      "Community Link: " ++ link i;
      "Total Active Members: " ++ PyStr.str (active_members i);
      "Total Offline Members: " ++ PyStr.str (offline_members i);
      "Total Members: " ++ PyStr.str (total_members i) ].

(** [\w] on a code point below 256: a letter, a digit or other numeric
    character, or the underscore. *)
Definition is_word (c : ascii) : bool :=
  let n := N_of_ascii c in
  (((48 <=? n) && (n <=? 57)) || ((65 <=? n) && (n <=? 90))
   || ((97 <=? n) && (n <=? 122)) || (n =? 95)
   || (n =? 170) || (n =? 178) || (n =? 179) || (n =? 181)
   || (n =? 185) || (n =? 186) || ((188 <=? n) && (n <=? 190))
   || ((192 <=? n) && (n <=? 214)) || ((216 <=? n) && (n <=? 246))
   || ((248 <=? n) && (n <=? 255)))%N.

(** [[\w-]] *)
Definition is_code_char (c : ascii) : bool := is_word c || Ascii.eqb c "-".

Fixpoint take_while (p : ascii -> bool) (s : string) : string :=
  match s with
  | EmptyString => EmptyString
  | String c s' => if p c then String c (take_while p s') else EmptyString
  end.

Fixpoint drop (n : nat) (s : string) : string :=
  match n, s with
  | O, _ => s
  | S n', String _ s' => drop n' s'
  | S _, EmptyString => EmptyString
  end.

(** One branch of the pattern at the start of [s]: the literal, then
    [[\w-]+] as far as it goes. *)
Definition match_branch (literal s : string) : option string :=
  if PyStr.startswith s literal then
    match take_while is_code_char (drop (String.length literal) s) with
    | EmptyString => None
    | code => Some code
    end
  else None.

Definition match_here (s : string) : option string :=
  match match_branch "discord.gg/" s with
  | Some code => Some code
  | None => match_branch "discord.com/invite/" s
  end.

(** [re.search(pattern, link)] followed by [group(1)]: the first place
    where the pattern matches. *)
Fixpoint search_invite (s : string) : option string :=
  match match_here s with
  | Some code => Some code
  | None =>
      match s with
      | EmptyString => None
      | String _ s' => search_invite s'
      end
  end.

(** The answer of the invite endpoint, at the keys the function reads; a
    key can be missing. *)
Record guild : Type := mkGuild {
  name : option string
}.

Record payload : Type := mkPayload {
  approximate_member_count : option Z;
  approximate_presence_count : option Z;
  guild_object : option guild
}.

Record response : Type := mkResponse {
  status_code : Z;
  json : option payload
}.

Definition invite_url (invite_code : string) : string :=
  "https://discord.com/api/v9/invites/" ++ invite_code ++ "?with_counts=true".

(** [str(e)] *)
Definition exn_str (e : exn) : string :=
  match e with
  | KeyError key => "'" ++ key ++ "'"
  | ValueError m => m
  | IndexError => "list index out of range"
  | OverflowError => "integer division result too large for a float"
  | ZeroDivisionError => "division by zero"
  | OSError p => p
  | Exception m => m
  end.

(** The body of the [try] of lines 34 to 65; [get] is [requests.get],
    which gives no response when the request itself fails. *)
Definition scrape_body (get : string -> option response) (l : string)
  : result info :=
  match search_invite l with
  | None => Raise (ValueError "Invalid Discord invite link format")
  | Some invite_code =>
      match get (invite_url invite_code) with
      | None => Raise (Exception "request failed")
      | Some resp =>
          if negb (status_code resp =? 200) then
            Raise (Exception ("Failed to fetch data (Status code: "
                              ++ PyStr.str (status_code resp) ++ ")"))
          else
            match json resp with
            | None => Raise (ValueError "response is not JSON")
            | Some d =>
                total <- Analyze.lookup "approximate_member_count"
                           (approximate_member_count d) ;;
                active <- Analyze.lookup "approximate_presence_count"
                            (approximate_presence_count d) ;;
                let offline := total - active in
                g <- Analyze.lookup "guild" (guild_object d) ;;
                n <- Analyze.lookup "name" (name g) ;;
                Ok (mkInfo n l active offline total)
            end
      end
  end.

(** [scrape_discord_community]: whatever the body raises is raised again
    as a plain [Exception]. *)
Definition scrape_discord_community (get : string -> option response)
    (l : string) : result info :=
  match scrape_body get l with
  | Ok i => Ok i
  | Raise e => Raise (Exception ("Error scraping community: " ++ exn_str e))
  end.

(** [usage] *)
Definition usage : string :=
"Discord Community Information Lookup (DCIL)

Usage:
Basic single community usage:
  python3 dcil.py -l <discord_link> [-s <output_filename>]

For multiple communities:
  python3 dcil.py -L <file_with_links> [-s <output_filename>]
  python3 dcil.py -L <file_with_links> -S <base_filename> [-d <directory_name>]

Required:
  -l <discord_link>     Single Discord community invite link
  OR
  -L <file>            File containing multiple Discord invite links (one per line)

Optional:
  -s <filename>        Save output to a single file (will add .txt if not specified)
  -S <base_filename>   Save each community to a separate file (only with -L)
                      Files will be named as <base_filename>_<server_name>.txt
  -d <directory>       Directory to save individual files (only with -L and -S)
  -u                   Display this usage information
".

(** [s.replace(old, new)] for one-character strings. *)
Fixpoint replace_char (old new : ascii) (s : string) : string :=
  match s with
  | EmptyString => EmptyString
  | String a s' =>
      String (if Ascii.eqb a old then new else a) (replace_char old new s')
  end.

(** The nine characters that [sanitize_filename] replaces; the fourth is
    the double quote. *)
Definition invalid_chars : string :=
  String "<" (String ">" (String ":" (String "034" "/\|?*"))).

(** [sanitize_filename]: one [replace] per invalid character. *)
Definition sanitize_filename (filename : string) : string :=
  fold_left (fun f c => replace_char c "_" f)
            (list_ascii_of_string invalid_chars) filename.

(** [str.lower] on a code point below 256. *)
Definition lower_char (c : ascii) : ascii :=
  let n := N_of_ascii c in
  if (((65 <=? n) && (n <=? 90)) || ((192 <=? n) && (n <=? 214))
      || ((216 <=? n) && (n <=? 222)))%N
  then ascii_of_N (n + 32) else c.

Fixpoint lower (s : string) : string :=
  match s with
  | EmptyString => EmptyString
  | String a s' => String (lower_char a) (lower s')
  end.

(** [ensure_txt_extension] *)
Definition ensure_txt_extension (filename : string) : string :=
  if negb (PyStr.endswith (lower filename) ".txt") then filename ++ ".txt"
  else filename.

(** ** [main] of dcil.py *)

Record args : Type := mkArgs {
  arg_l : option string;
  arg_L : option string;
  arg_s : option string;
  arg_S : option string;
  arg_d : option string;
  arg_u : bool
}.

(** What the script reaches outside itself: the invite endpoint, the file
    of links, the files it writes and the directory it makes. Opening a
    file to read gives its text or raises; opening a path to write, and
    making a directory, raise or not. *)
Record world : Type := mkWorld {
  requests_get : string -> option response;
  open_read : string -> result string;
  open_write : string -> option exn;
  path_exists : string -> bool;
  makedirs : string -> option exn
}.

(** What a run leaves: the lines printed, the files written with their
    text, and the directories made, each in the order of the run. *)
Record run : Type := mkRun {
  printed : list string;
  written : list (string * string);
  created : list string
}.

(** [ensure_directory_exists] *)
Definition ensure_directory_exists (w : world) (directory : string)
  : result (list string) :=
  if path_exists w directory then Ok []
  else match makedirs w directory with
       | None => Ok [directory]
       | Some e => Raise e
       end.

(** [sep.join(l)] *)
Fixpoint join (sep : string) (l : list string) : string :=
  match l with
  | [] => EmptyString
  | [x] => x
  | x :: rest => x ++ sep ++ join sep rest
  end.

Definition blank_line : string := String PyStr.LF (String PyStr.LF "").

(** Lines 141 to 155: the file of one community under [-S]. *)
Definition save_individual (w : world) (a : args) (i : info)
    (report : string) : list string * list (string * string) :=
  if Analyze.truthy (arg_S a) then
    let filename :=
      ensure_txt_extension
        (Analyze.text (arg_S a) ++ "_" ++ sanitize_filename (community_name i)) in
    let filepath :=
      if Analyze.truthy (arg_d a)
      then Analyze.path_join (Analyze.text (arg_d a)) filename
      else filename in
    match open_write w filepath with
    | None =>
        (["Saved report for " ++ community_name i ++ " to " ++ filepath],
         [(filepath, report)])
    | Some e =>
        (["Error writing to file " ++ filepath ++ ": " ++ exn_str e], [])
    end
  else ([], []).

(** One turn of the loop of lines 135 to 163: the entry added to
    [reports], the lines printed and the files written. *)
Definition process_link (w : world) (a : args) (l : string)
  : string * list string * list (string * string) :=
  match scrape_discord_community (requests_get w) l with
  | Ok i =>
      let report := format_report i in
      let '(out, files) := save_individual w a i report in
      (report, out, files)
  | Raise e =>
      let error_msg := "Error scraping " ++ l ++ ": " ++ exn_str e in
      (error_msg, [error_msg], [])
  end.

Fixpoint process_links (w : world) (a : args) (links : list string)
  : list string * list string * list (string * string) :=
  match links with
  | [] => ([], [], [])
  | l :: rest =>
      let '(report, out, files) := process_link w a l in
      let '(reports, outs, more) := process_links w a rest in
      (report :: reports, List.app out outs, List.app files more)
  end.

(** Line 133: the stripped lines of the file that are not blank. *)
Definition links_of (content : string) : list string :=
  filter (fun l => negb (String.eqb l EmptyString))
         (map PyStr.strip (PyStr.readlines content)).

(** Lines 168 to 179: the combined report, saved or printed. *)
Definition finish (w : world) (a : args) (reports : list string)
    (out : list string) (files : list (string * string))
    (dirs : list string) : run :=
  if Analyze.truthy (arg_s a) then
    let final_report := join blank_line reports in
    let output_file := ensure_txt_extension (Analyze.text (arg_s a)) in
    match open_write w output_file with
    | None =>
        mkRun (List.app out ["Combined report saved to " ++ output_file])
              (List.app files [(output_file, final_report)]) dirs
    | Some e =>
        mkRun (List.app out ["Error writing to file: " ++ exn_str e])
              files dirs
    end
  else if negb (Analyze.truthy (arg_S a)) then
    mkRun (List.app out [join blank_line reports]) files dirs
  else mkRun out files dirs.

Definition main (w : world) (a : args) : result run :=
  if arg_u a
     || (negb (Analyze.truthy (arg_l a)) && negb (Analyze.truthy (arg_L a)))
  then Ok (mkRun [usage] [] [])
  else if (Analyze.truthy (arg_S a) || Analyze.truthy (arg_d a))
          && negb (Analyze.truthy (arg_L a))
  then Ok (mkRun ["Error: -S and -d flags can only be used with -L flag"]
             [] [])
  else if Analyze.truthy (arg_d a) && negb (Analyze.truthy (arg_S a))
  then Ok (mkRun ["Error: -d flag can only be used with -S flag"] [] [])
  else
    dirs <- (if Analyze.truthy (arg_d a)
             then ensure_directory_exists w (Analyze.text (arg_d a))
             else Ok []) ;;
    match
      (if Analyze.truthy (arg_l a) then
         match scrape_discord_community (requests_get w)
                 (Analyze.text (arg_l a)) with
         | Ok i => Ok [format_report i]
         | Raise e => Raise e
         end
       else Ok [])
    with
    | Raise e => Ok (mkRun ["Error: " ++ exn_str e] [] dirs)
    | Ok single =>
        if Analyze.truthy (arg_L a) then
          match open_read w (Analyze.text (arg_L a)) with
          | Raise e =>
              Ok (mkRun ["Error reading file: " ++ exn_str e] [] dirs)
          | Ok content =>
              let '(reports, out, files) :=
                process_links w a (links_of content) in
              Ok (finish w a (List.app single reports) out files dirs)
          end
        else Ok (finish w a single [] [] dirs)
    end.

End Dcil.

Import Analyze.

(** * Vocabulary of the statements and sample inputs *)

(** A block has a label when one of its lines starts with it. *)
Definition has_label (label : string) (lines : list string) : bool :=
  existsb (fun line => PyStr.startswith line label) lines.

(** The keys that [load_data_from_file] needs, with the labels that fill
    them. *)
Definition required_fields : list (string * string) :=
  [ ("active_members", "Total Active Members:");
    ("offline_members", "Total Offline Members:");
    ("total_members", "Total Members:") ].

Definition is_some {A : Type} (o : option A) : bool :=
  match o with
  | Some _ => true
  | None => false
  end.

Fixpoint has_char (c : ascii) (s : string) : bool :=
  match s with
  | EmptyString => false
  | String a s' => Ascii.eqb a c || has_char c s'
  end.

Definition line_of (s : string) : string := s ++ String PyStr.LF "".

Fixpoint spaceless (s : string) : bool :=
  match s with
  | EmptyString => true
  | String a s' => negb (PyStr.isspace a) && spaceless s'
  end.

(** How many values of a column satisfy a test. *)
Definition count (p : Q -> bool) (l : list Q) : nat :=
  List.length (filter p l).

(** The values of the column strictly above [v], and those equal to it. *)
Definition above (v : Q) (l : list Q) : nat :=
  count (fun y => negb (Qle_bool y v)) l.

Definition tied (v : Q) (l : list Q) : nat :=
  count (fun y => Qeq_bool y v) l.

(** In descending order the block of the values equal to [v] stands at the
    positions [above v l + 1], ..., [above v l + tied v l]; this is the
    mean of these positions. *)
Definition tie_average (l : list Q) (v : Q) : Q :=
  average (list_sum (seq (above v l + 1) (tied v l))) (tied v l).

(** A list of position and value pairs whose values never go up. *)
Fixpoint descending (s : list (nat * Q)) : Prop :=
  match s with
  | [] => True
  | x :: s' => (forall y, In y s' -> (snd y <= snd x)%Q) /\ descending s'
  end.

Fixpoint ascending (s : list (nat * Q)) : Prop :=
  match s with
  | [] => True
  | x :: s' => (forall y, In y s' -> (snd x <= snd y)%Q) /\ ascending s'
  end.

(** A record as [add_metrics] builds it from three counts. *)
Definition sample (nm : string) (a o t : Z) : community :=
  mkCommunity (Some nm) None a o t
    (if 0 <? t
     then float_mul (nearest_double (inject_Z a / inject_Z t)) 100
     else 0%Q)
    (nearest_double (inject_Z a / inject_Z (o + 1))).

(** Three communities of 100, 50 and 50 members with 50, 25 and 10 of
    them active. *)
Definition alpha : community := sample "Alpha" 50 50 100.
Definition beta : community := sample "Beta" 25 25 50.
Definition gamma : community := sample "Gamma" 10 40 50.

Definition three_communities : list community := [alpha; beta; gamma].

Definition three_ranked : dataframe :=
  mkFrame three_communities
    [1; 5 # 2; 5 # 2]%Q [3 # 2; 3 # 2; 3]%Q [1; 2; 3]%Q.

Definition three_reversed : dataframe :=
  mkFrame [gamma; beta; alpha]
    [5 # 2; 5 # 2; 1]%Q [3; 3 # 2; 3 # 2]%Q [3; 2; 1]%Q.

(** A value that the persisted format carries unchanged: no colon, no line
    break, no white space at either end. *)
Definition plain_value (v : string) : bool :=
  negb (has_char ":" v) && negb (has_char PyStr.LF v)
  && negb (has_char PyStr.CR v) && String.eqb (PyStr.strip v) v.

(** The fields that a record read back shares with the record written. *)
Definition same_record (i : Dcil.info) (c : community) : Prop :=
  community_name c = Some (Dcil.community_name i)
  /\ link c = Some (Dcil.link i)
  /\ active_members c = Dcil.active_members i
  /\ offline_members c = Dcil.offline_members i
  /\ total_members c = Dcil.total_members i.

(** Writing a record with [format_report] and loading the file again. *)
Definition round_trip (i : Dcil.info) : result community :=
  load_data_from_file
    (mkFs (fun _ => Some (Dcil.format_report i)) (fun _ => None))
    "report.txt".

Definition chess_endpoint (url : string) : option Dcil.response :=
  if String.eqb url "https://discord.com/api/v9/invites/chess?with_counts=true"
  then Some (Dcil.mkResponse 200
               (Some (Dcil.mkPayload (Some 120) (Some 45)
                        (Some (Dcil.mkGuild (Some "Chess Club"))))))
  else Some (Dcil.mkResponse 404 None).

(** A community without members, and one whose file gives a total of 0
    beside counts that are not. *)
Definition empty_community : community :=
  mkCommunity (Some "Ghost Town") (Some "discord.gg/ghost") 0 0 0 0 0.

Definition stale_total : community :=
  mkCommunity (Some "Stale Total") (Some "discord.gg/stale") 5 3 0 0
    (nearest_double (inject_Z 5 / inject_Z 4)).

(** A plotting library that refuses, as matplotlib does, a pie with a
    negative wedge or with no wedge above 0, and draws everything else. *)
Definition strict_pie : plotting :=
  mkPlotting
    (fun wedges =>
       if existsb (fun x => x <? 0) wedges
       then Some (ValueError "Wedge sizes 'x' must be non negative values")
       else if forallb (fun x => x =? 0) wedges
       then Some (ValueError "cannot convert float NaN to integer")
       else None)
    (fun _ => None) (fun _ => None) (fun _ => None).

(** A count that [int] reads back from its text. *)
Definition short (z : Z) : bool :=
  (PyStr.count_digits (PyStr.str z) <=? PyStr.int_max_str_digits)%nat.

(** The dict that the five lines of a record fill. *)
Definition fields_of (i : Dcil.info) : data :=
  mkData (Some (Dcil.community_name i)) (Some (Dcil.link i))
    (Some (Dcil.active_members i)) (Some (Dcil.offline_members i))
    (Some (Dcil.total_members i)).

(** A block whose active count is 1 followed by 400 zeros and which has
    no line for the offline count. *)
Definition huge_block : list string :=
  [ line_of ("Total Active Members: " ++ PyStr.str (10 ^ 400));
    line_of "Total Members: 1" ].

Definition python_link_line : string :=
  line_of "Community Link: https://discord.gg/python".

Definition thousands_block : list string :=
  [ line_of "Community Name: Chess Club";
    line_of "Total Members: 1,204" ].

Definition chess_file : string :=
  Dcil.format_report (Dcil.mkInfo "Chess Club" "discord.gg/chess" 45 75 120).

(** A directory [saved] that holds the one file [chess.txt]. *)
Definition one_file_fs : filesystem :=
  mkFs (fun path => if String.eqb path "saved/chess.txt"
                    then Some chess_file else None)
       (fun dir => if String.eqb dir "saved"
                   then Some ["chess.txt"; "notes.md"] else None).

Definition directory_args : args := mkArgs (Some "saved") None None false.

Definition file_args : args := mkArgs None (Some "saved/chess.txt") None false.

(** A directory [saved] that holds two records, and the arguments that
    name it together with one of its files. *)
Definition go_file : string :=
  Dcil.format_report (Dcil.mkInfo "Go Club" "discord.gg/go" 30 170 200).

Definition pair_fs : filesystem :=
  mkFs (fun path => if String.eqb path "saved/chess.txt"
                    then Some chess_file
                    else if String.eqb path "saved/go.txt"
                    then Some go_file
                    else None)
       (fun dir => if String.eqb dir "saved"
                   then Some ["chess.txt"; "go.txt"] else None).

Definition both_args : args :=
  mkArgs (Some "saved") (Some "saved/go.txt") None false.

Definition chess_club : community :=
  mkCommunity (Some "Chess Club") (Some "discord.gg/chess") 45 75 120
    (float_mul (nearest_double (inject_Z 45 / inject_Z 120)) 100)
    (nearest_double (inject_Z 45 / inject_Z 76)).

Definition go_club : community :=
  mkCommunity (Some "Go Club") (Some "discord.gg/go") 30 170 200
    (float_mul (nearest_double (inject_Z 30 / inject_Z 200)) 100)
    (nearest_double (inject_Z 30 / inject_Z 171)).

(** The five labels of the persisted format. *)
Definition labels : list string :=
  [ "Community Name:"; "Community Link:"; "Total Active Members:";
    "Total Offline Members:"; "Total Members:" ].

(** A line that [load_data_from_file] looks at: it starts with a label. *)
Definition recognized (line : string) : bool :=
  existsb (fun label => PyStr.startswith line label) labels.

(** The five lines of a record in the persisted format, without their
    line breaks. *)
Definition field_lines (i : Dcil.info) : list string :=
  [ "Community Name: " ++ Dcil.community_name i;
    "Community Link: " ++ Dcil.link i;
    "Total Active Members: " ++ PyStr.str (Dcil.active_members i);
    "Total Offline Members: " ++ PyStr.str (Dcil.offline_members i);
    "Total Members: " ++ PyStr.str (Dcil.total_members i) ].

(** A line of a record as a file can hold it: one of the five, with or
    without a line break at its end. *)
Definition line_for (i : Dcil.info) (l : string) : Prop :=
  exists f tail,
    In f (field_lines i)
    /\ (tail = "" \/ tail = String PyStr.LF "")
    /\ l = (f ++ tail)%string.

(** A directory whose second file lacks its counts. *)
Definition two_file_fs : filesystem :=
  mkFs (fun path => if String.eqb path "saved/chess.txt"
                    then Some chess_file
                    else if String.eqb path "saved/broken.txt"
                    then Some "Community Name: Broken"
                    else None)
       (fun dir => if String.eqb dir "saved"
                   then Some ["chess.txt"; "broken.txt"; "later.txt"]
                   else None).

(** A list whose keys never go up. *)
Fixpoint sorted_down {A : Type} (key : A -> Q) (l : list A) : Prop :=
  match l with
  | [] => True
  | x :: l' => (forall y, In y l' -> (key y <= key x)%Q) /\ sorted_down key l'
  end.

Fixpoint sorted_up {A : Type} (key : A -> Q) (l : list A) : Prop :=
  match l with
  | [] => True
  | x :: l' => (forall y, In y l' -> (key x <= key y)%Q) /\ sorted_up key l'
  end.

(** [c] is the first of the rows with the largest key. *)
Definition first_largest (key : community -> Q) (cs : list community)
    (c : community) : Prop :=
  exists before after,
    cs = (before ++ c :: after)%list
    /\ (forall b, In b before -> (key b < key c)%Q)
    /\ (forall a, In a after -> (key a <= key c)%Q).

(** Every character of a string passes a test. *)
Fixpoint all_chars (p : ascii -> bool) (s : string) : bool :=
  match s with
  | EmptyString => true
  | String a s' => p a && all_chars p s'
  end.

(** What [sanitize_filename] makes of one character. *)
Definition clean_char (c : ascii) : ascii :=
  if has_char c Dcil.invalid_chars then "_"%char else c.

Fixpoint map_chars (f : ascii -> ascii) (s : string) : string :=
  match s with
  | EmptyString => EmptyString
  | String a s' => String (f a) (map_chars f s')
  end.

(** The entry that the batch loop of dcil.py adds to [reports] for a link:
    its report, or the message of its failure. *)
Definition entry_of (get : string -> option Dcil.response) (l : string)
  : string :=
  match Dcil.scrape_discord_community get l with
  | Ok i => Dcil.format_report i
  | Raise e => "Error scraping " ++ l ++ ": " ++ Dcil.exn_str e
  end.

(** A world with the endpoint of the chess club, a file of two links and
    no path that can be written under [locked/]. *)
Definition chess_world : Dcil.world :=
  Dcil.mkWorld chess_endpoint
    (fun path =>
       if String.eqb path "links.txt"
       then Ok ("https://discord.gg/chess" ++ String PyStr.LF
                  ("" ++ String PyStr.LF "https://example.org/nothing"))
       else Raise (OSError path))
    (fun path => if PyStr.startswith path "locked/"
                 then Some (OSError path) else None)
    (fun _ => false)
    (fun _ => None).

Definition batch_args : Dcil.args :=
  Dcil.mkArgs None (Some "links.txt") (Some "all") (Some "club")
    (Some "locked") false.

Definition print_args : Dcil.args :=
  Dcil.mkArgs None (Some "links.txt") None None None false.

(** A written file whose name ends in [.txt], case set aside. *)
Definition txt_path (file : string * string) : Prop :=
  PyStr.endswith (Dcil.lower (fst file)) ".txt" = true.

(** * Properties *)

Ltac inv H := inversion H; subst; clear H.

(** ** Rounding to the nearest double *)

Lemma pow2_positive (e : Z) : (0 < pow2 e)%Q.
Proof.
  unfold pow2. destruct (0 <=? e) eqn:E.
  - apply Z.leb_le in E. unfold Qlt, inject_Z. cbn [Qnum Qden].
    pose proof (Z.pow_pos_nonneg 2 e). lia.
  - reflexivity.
Qed.

Lemma infinity_positive : (0 < infinity)%Q.
Proof. reflexivity. Qed.

(** The whole multiples counted by [nearest_positive], before and after
    rounding, are not negative. *)
Lemma rounded_count (N D : Z) :
  0 <= N -> 0 < D ->
  N / D
  <= (if (D <? 2 * (N mod D)) || (D =? 2 * (N mod D)) && Z.odd (N / D)
      then N / D + 1 else N / D)
  /\ 0 <= N / D.
Proof.
  intros HN HD. pose proof (Z.div_pos N D HN HD).
  destruct ((D <? 2 * (N mod D)) || (D =? 2 * (N mod D)) && Z.odd (N / D));
    lia.
Qed.

Lemma scaled_parts (n d : positive) (e : Z) :
  0 <= (if 0 <=? e then Z.pos n else Z.pos n * 2 ^ (- e))
  /\ 0 < (if 0 <=? e then Z.pos d * 2 ^ e else Z.pos d).
Proof.
  destruct (0 <=? e) eqn:E.
  - apply Z.leb_le in E. pose proof (Z.pow_pos_nonneg 2 e). lia.
  - apply Z.leb_gt in E. pose proof (Z.pow_pos_nonneg 2 (- e)). lia.
Qed.

Lemma nearest_positive_nonneg (n d : positive) : (0 <= nearest_positive n d)%Q.
Proof.
  unfold nearest_positive. cbv zeta.
  match goal with
  | |- context [Qle_bool infinity ?v] => destruct (Qle_bool infinity v)
  end; [discriminate|].
  match goal with
  | |- context [pow2 ?e] =>
      destruct (scaled_parts n d e) as [HN HD];
      pose proof (pow2_positive e) as He
  end.
  match type of HN with
  | 0 <= ?N =>
      match type of HD with
      | 0 < ?D => destruct (rounded_count N D HN HD) as [Hm H0]
      end
  end.
  rewrite Qred_correct.
  apply Qmult_le_0_compat; [|apply Qlt_le_weak; exact He].
  unfold Qle, inject_Z. cbn [Qnum Qden]. lia.
Qed.

Lemma nearest_double_nonneg (q : Q) : (0 <= q)%Q -> (0 <= nearest_double q)%Q.
Proof.
  intros Hq. unfold nearest_double.
  destruct q as [[|n|n] d]; cbn [Qnum Qden].
  - discriminate.
  - apply nearest_positive_nonneg.
  - unfold Qle in Hq. cbn in Hq. lia.
Qed.

Lemma true_divide_returns (a b : Z) (q : Q) :
  true_divide a b = Ok q ->
  b <> 0
  /\ q = nearest_double (inject_Z a / inject_Z b)
  /\ is_inf q = false.
Proof.
  unfold true_divide. destruct (b =? 0) eqn:E; [discriminate|].
  apply Z.eqb_neq in E.
  destruct (is_inf (nearest_double (inject_Z a / inject_Z b))) eqn:F;
    [discriminate|].
  intros H; inv H. auto.
Qed.

Lemma true_divide_raises (a b : Z) (e : exn) :
  true_divide a b = Raise e ->
  (b = 0 /\ e = ZeroDivisionError) \/ (b <> 0 /\ e = OverflowError).
Proof.
  unfold true_divide. destruct (b =? 0) eqn:E.
  - apply Z.eqb_eq in E. intros H; inv H. auto.
  - apply Z.eqb_neq in E.
    destruct (is_inf (nearest_double (inject_Z a / inject_Z b)));
      intros H; inv H. auto.
Qed.

Lemma true_divide_zero (b : Z) : b <> 0 -> true_divide 0 b = Ok 0%Q.
Proof.
  intros Hb. unfold true_divide.
  destruct (b =? 0) eqn:E; [apply Z.eqb_eq in E; contradiction|].
  reflexivity.
Qed.

Lemma quotient_nonneg (a b : Z) :
  0 <= a -> 0 < b -> (0 <= inject_Z a / inject_Z b)%Q.
Proof.
  intros Ha Hb. unfold Qdiv, Qle, Qmult, Qinv, inject_Z; cbn.
  destruct b as [|p|p]; try lia. cbn. lia.
Qed.
Lemma pow2_mono (x y : Z) : 0 <= x <= y -> 2 ^ x <= 2 ^ y.
Proof. intros H. apply Z.pow_le_mono_r; lia. Qed.

Lemma log2_bounds (p : positive) :
  2 ^ Z.log2 (Z.pos p) <= Z.pos p < 2 ^ (Z.log2 (Z.pos p) + 1)
  /\ 0 <= Z.log2 (Z.pos p).
Proof.
  split; [apply Z.log2_spec; lia | apply Z.log2_nonneg].
Qed.

(** The quotient holds at least one whole multiple of the last bit kept,
    unless it lies under the smallest double above 0. *)
Lemma one_multiple (n d : positive) (fl : Z) :
  fl <= Z.log2 (Z.pos n) - Z.log2 (Z.pos d) ->
  Z.pos d <= Z.pos n * 2 ^ 1074 ->
  let e := Z.max (fl - 52) (-1074) in
  (if 0 <=? e then Z.pos d * 2 ^ e else Z.pos d)
  <= (if 0 <=? e then Z.pos n else Z.pos n * 2 ^ (- e)).
Proof.
  intros Hfl Hsmall e.
  destruct (log2_bounds n) as [[Hn1 Hn2] Hn0].
  destruct (log2_bounds d) as [[Hd1 Hd2] Hd0].
  destruct (0 <=? e) eqn:E.
  - apply Z.leb_le in E.
    assert (He : e = fl - 52) by lia.
    assert (H1 : 2 ^ (Z.log2 (Z.pos d) + 1) * 2 ^ e
                 <= 2 ^ Z.log2 (Z.pos n)).
    { rewrite <- Z.pow_add_r by lia. apply pow2_mono. lia. }
    pose proof (Z.pow_pos_nonneg 2 e). nia.
  - apply Z.leb_gt in E.
    destruct (Z.eq_dec e (-1074)) as [->|Hne]; [exact Hsmall|].
    assert (He : e = fl - 52) by lia.
    assert (H1 : 2 ^ (Z.log2 (Z.pos d) + 1)
                 <= 2 ^ Z.log2 (Z.pos n) * 2 ^ (- e)).
    { rewrite <- Z.pow_add_r by lia. apply pow2_mono. lia. }
    pose proof (Z.pow_pos_nonneg 2 (- e)). nia.
Qed.

Lemma floor_exponent (n d : positive) :
  let e0 := Z.log2 (Z.pos n) - Z.log2 (Z.pos d) in
  forall below : bool, (if below then e0 - 1 else e0) <= e0.
Proof. intros e0 []; lia. Qed.

Lemma nearest_positive_above_zero (n d : positive) :
  Z.pos d <= Z.pos n * 2 ^ 1074 -> (0 < nearest_positive n d)%Q.
Proof.
  intros Hsmall. unfold nearest_positive. cbv zeta.
  match goal with
  | |- context [Qle_bool infinity ?v] => destruct (Qle_bool infinity v)
  end; [reflexivity|].
  match goal with
  | |- context [Z.max (?fl - 52) (-1074)] =>
      assert (Hfl : fl <= Z.log2 (Z.pos n) - Z.log2 (Z.pos d))
        by apply floor_exponent;
      pose proof (one_multiple n d fl Hfl Hsmall) as Hone; cbv zeta in Hone;
      set (e := Z.max (fl - 52) (-1074)) in *
  end.
  destruct (scaled_parts n d e) as [HN HD].
  pose proof (pow2_positive e) as He.
  set (N := if 0 <=? e then Z.pos n else Z.pos n * 2 ^ (- e)) in *.
  set (D := if 0 <=? e then Z.pos d * 2 ^ e else Z.pos d) in *.
  destruct (rounded_count N D HN HD) as [Hm H0].
  assert (H1 : 0 < N / D) by (apply Z.div_str_pos; lia).
  rewrite Qred_correct.
  apply Qmult_lt_0_compat; [|exact He].
  unfold Qlt, inject_Z. cbn [Qnum Qden]. lia.
Qed.

Lemma scaled_below_infinity (m e : Z) :
  (if 0 <=? e then m * 2 ^ e < 2 ^ 1024 else m < 2 ^ 1024 * 2 ^ (- e)) ->
  (inject_Z m * pow2 e < infinity)%Q.
Proof.
  unfold pow2, infinity. destruct (0 <=? e) eqn:E; intros H.
  - unfold Qlt, Qmult, inject_Z. cbn [Qnum Qden Pos.mul]. lia.
  - apply Z.leb_gt in E. pose proof (Z.pow_pos_nonneg 2 (- e)).
    unfold Qlt, Qmult, inject_Z. cbn [Qnum Qden Pos.mul].
    rewrite Z2Pos.id by lia. lia.
Qed.

(** A quotient under [2 ^ 1023] rounds to a double. *)
Lemma rounded_below_infinity (n d : positive) (fl : Z) :
  fl <= Z.log2 (Z.pos n) - Z.log2 (Z.pos d) ->
  Z.pos n < Z.pos d * 2 ^ 1023 ->
  let e := Z.max (fl - 52) (-1074) in
  let N := if 0 <=? e then Z.pos n else Z.pos n * 2 ^ (- e) in
  let D := if 0 <=? e then Z.pos d * 2 ^ e else Z.pos d in
  if 0 <=? e then (N / D + 1) * 2 ^ e < 2 ^ 1024
  else N / D + 1 < 2 ^ 1024 * 2 ^ (- e).
Proof.
  intros Hfl Hbig e N D.
  destruct (log2_bounds n) as [[Hn1 Hn2] Hn0].
  destruct (log2_bounds d) as [[Hd1 Hd2] Hd0].
  destruct (scaled_parts n d e) as [HN HD]. fold N D in HN, HD.
  pose proof (Z.mul_div_le N D HD) as Hfloor.
  assert (Hdouble : 2 ^ 1024 = 2 * 2 ^ 1023) by reflexivity.
  pose proof (Z.pow_pos_nonneg 2 1023) as Hp.
  subst N D. destruct (0 <=? e) eqn:E.
  - apply Z.leb_le in E.
    assert (Hlog : Z.log2 (Z.pos n) < Z.log2 (Z.pos d) + 1024).
    { apply (Z.pow_lt_mono_r_iff 2); [lia | lia |].
      replace (Z.log2 (Z.pos d) + 1024)
        with (Z.log2 (Z.pos d) + 1 + 1023) by lia.
      rewrite Z.pow_add_r by lia. nia. }
    assert (He : 2 ^ e <= 2 ^ 1023) by (apply pow2_mono; lia).
    pose proof (Z.pow_pos_nonneg 2 e).
    set (m := Z.pos n / (Z.pos d * 2 ^ e)) in *.
    assert (Hm : m * 2 ^ e < 2 ^ 1023) by nia.
    nia.
  - apply Z.leb_gt in E. pose proof (Z.pow_pos_nonneg 2 (- e)).
    set (m := Z.pos n * 2 ^ (- e) / Z.pos d) in *.
    assert (Hm : m < 2 ^ 1023 * 2 ^ (- e)) by nia.
    nia.
Qed.

Lemma nearest_positive_finite (n d : positive) :
  Z.pos n < Z.pos d * 2 ^ 1023 ->
  (nearest_positive n d < infinity)%Q.
Proof.
  intros Hbig. unfold nearest_positive. cbv zeta.
  match goal with
  | |- context [Z.max (?fl - 52) (-1074)] =>
      assert (Hfl : fl <= Z.log2 (Z.pos n) - Z.log2 (Z.pos d))
        by apply floor_exponent;
      pose proof (rounded_below_infinity n d fl Hfl Hbig) as Hlt;
      cbv zeta in Hlt;
      set (e := Z.max (fl - 52) (-1074)) in *
  end.
  destruct (scaled_parts n d e) as [HN HD].
  set (N := if 0 <=? e then Z.pos n else Z.pos n * 2 ^ (- e)) in *.
  set (D := if 0 <=? e then Z.pos d * 2 ^ e else Z.pos d) in *.
  destruct (rounded_count N D HN HD) as [Hm H0].
  set (m' := if (D <? 2 * (N mod D)) || (D =? 2 * (N mod D)) && Z.odd (N / D)
             then N / D + 1 else N / D) in *.
  assert (Hv : (inject_Z m' * pow2 e < infinity)%Q).
  { apply scaled_below_infinity.
    assert (Hm' : m' <= N / D + 1)
      by (subst m';
          destruct ((D <? 2 * (N mod D))
                    || (D =? 2 * (N mod D)) && Z.odd (N / D)); lia).
    destruct (0 <=? e) eqn:E.
    - pose proof (Z.pow_pos_nonneg 2 e). apply Z.leb_le in E. nia.
    - lia. }
  rewrite <- Qred_correct in Hv.
  destruct (Qle_bool infinity (Qred (inject_Z m' * pow2 e))) eqn:F;
    [|exact Hv].
  apply Qle_bool_iff in F. exfalso. exact (Qlt_not_le _ _ Hv F).
Qed.

Lemma is_inf_between (x : Q) :
  (- infinity < x)%Q -> (x < infinity)%Q -> is_inf x = false.
Proof.
  intros Hlo Hhi. unfold is_inf. apply orb_false_iff. split.
  - destruct (Qle_bool infinity x) eqn:F; [|reflexivity].
    apply Qle_bool_iff in F. exfalso. exact (Qlt_not_le _ _ Hhi F).
  - destruct (Qle_bool x (- infinity)) eqn:F; [|reflexivity].
    apply Qle_bool_iff in F. exfalso. exact (Qlt_not_le _ _ Hlo F).
Qed.

Lemma nearest_double_finite (q : Q) :
  Z.abs (Qnum q) < Z.pos (Qden q) * 2 ^ 1023 ->
  is_inf (nearest_double q) = false.
Proof.
  intros Hq. unfold nearest_double. destruct q as [[|n|n] d];
    cbn [Qnum Qden] in *.
  - reflexivity.
  - pose proof (nearest_positive_finite n d Hq) as Hhi.
    pose proof (nearest_positive_nonneg n d) as Hlo.
    apply is_inf_between; [|exact Hhi].
    apply Qlt_le_trans with (y := 0%Q); [reflexivity | exact Hlo].
  - pose proof (nearest_positive_finite n d Hq) as Hhi.
    pose proof (nearest_positive_nonneg n d) as Hlo.
    apply is_inf_between.
    + apply Qopp_lt_compat. exact Hhi.
    + apply Qle_lt_trans with (y := 0%Q); [|reflexivity].
      apply (Qopp_le_compat 0). exact Hlo.
Qed.

(** The quotient of two ints within the range of the doubles is a float:
    [a / b] raises no [OverflowError] for [a] under [2 ^ 1023] in size. *)
Lemma true_divide_in_range (a b : Z) :
  b <> 0 -> Z.abs a < 2 ^ 1023 ->
  exists q, true_divide a b = Ok q.
Proof.
  intros Hb Ha. unfold true_divide.
  destruct (b =? 0) eqn:E; [apply Z.eqb_eq in E; contradiction|].
  rewrite nearest_double_finite; [eexists; reflexivity|].
  pose proof (Z.pow_pos_nonneg 2 1023) as Hp.
  unfold Qdiv, Qmult, Qinv, inject_Z. cbn [Qnum Qden].
  destruct b as [|p|p]; [contradiction|..]; cbn [Qnum Qden Pos.mul];
    assert (Hd : 2 ^ 1023 <= Z.pos p * 2 ^ 1023) by nia; lia.
Qed.

(** ** Derived metrics (lines 43 and 44) *)

(** A record that [add_metrics] returns holds the keys of the dict it was
    made from and the values of lines 43 and 44. *)
Lemma add_metrics_fields (d : data) (c : community) :
  add_metrics d = Ok c ->
  d = mkData (community_name c) (link c) (Some (active_members c))
        (Some (offline_members c)) (Some (total_members c))
  /\ line_43 d = Ok (engagement_rate c)
  /\ line_44 d = Ok (active_ratio c).
Proof.
  unfold add_metrics.
  destruct (line_43 d) as [rate|e1]; cbn [bind]; [|discriminate].
  destruct (line_44 d) as [ratio|e2]; cbn [bind]; [|discriminate].
  destruct d as [nm lk [a|] [o|] [t|]]; cbn; try discriminate.
  intros H; inv H. cbn. auto.
Qed.

(** Counts of a size under [2 ^ 1023] with an offline count other than -1
    give a record. *)
Lemma add_metrics_returns (nm lk : option string) (a o t : Z) :
  o <> -1 -> Z.abs a < 2 ^ 1023 ->
  exists c, add_metrics (mkData nm lk (Some a) (Some o) (Some t)) = Ok c.
Proof.
  intros Ho Ha. unfold add_metrics, line_43, line_44.
  cbn [lookup bind d_total_members d_active_members d_offline_members
       d_community_name d_link].
  destruct (true_divide_in_range a (o + 1)) as [ratio ->]; [lia | exact Ha |].
  destruct (0 <? t) eqn:Et.
  - apply Z.ltb_lt in Et.
    destruct (true_divide_in_range a t) as [q ->]; [lia | exact Ha |].
    cbn [bind]. eexists. reflexivity.
  - cbn [bind]. eexists. reflexivity.
Qed.

(** C6. Line 43 never divides by a zero total, whatever the counts. Counts
    within the range of the doubles give a record, and every record built
    from three counts carries
    [engagement_rate = active_members / total_members * 100], the float
    that Python computes with its division and its product, when
    [total_members > 0], and [engagement_rate = 0] when [total_members]
    is 0. *)
Theorem engagement_rate_at_construction
    (nm lk : option string) (a o t : Z) :
  line_43 (mkData nm lk (Some a) (Some o) (Some t)) <> Raise ZeroDivisionError
  /\ (o <> -1 -> Z.abs a < 2 ^ 1023 ->
      exists c, add_metrics (mkData nm lk (Some a) (Some o) (Some t)) = Ok c)
  /\ forall c,
       add_metrics (mkData nm lk (Some a) (Some o) (Some t)) = Ok c ->
       active_members c = a /\ total_members c = t
       /\ (0 < t ->
           exists q, true_divide a t = Ok q
                     /\ engagement_rate c = float_mul q 100)
       /\ (t = 0 -> engagement_rate c = 0%Q).
Proof.
  split; [|split].
  - unfold line_43. cbn [lookup bind d_total_members d_active_members].
    destruct (0 <? t) eqn:Et; [|discriminate].
    apply Z.ltb_lt in Et.
    destruct (true_divide a t) as [q|e] eqn:E; cbn [bind]; [discriminate|].
    destruct (true_divide_raises _ _ _ E) as [[H0 _]|[_ ->]];
      [lia | discriminate].
  - apply add_metrics_returns.
  - intros c Hc. destruct (add_metrics_fields _ _ Hc) as (Hd & H43 & _).
    inv Hd. repeat split.
    + intros Ht. unfold line_43 in H43.
      cbn [lookup bind d_total_members d_active_members] in H43.
      apply Z.ltb_lt in Ht. rewrite Ht in H43.
      destruct (true_divide (active_members c) (total_members c)) as [q|e];
        cbn [bind] in H43; [|discriminate].
      exists q. split; [reflexivity|]. inv H43. auto.
    + intros Ht. unfold line_43 in H43.
      cbn [lookup bind d_total_members d_active_members] in H43.
      rewrite Ht in H43. cbn in H43. inv H43. auto.
Qed.

Lemma engagement_rate_at_construction_witness :
  exists c,
    add_metrics (mkData (Some "Chess") None (Some 25) (Some 75) (Some 100))
    = Ok c
    /\ active_members c = 25 /\ total_members c = 100
    /\ (0 < 100 ->
        exists q, true_divide 25 100 = Ok q
                  /\ engagement_rate c = float_mul q 100)
    /\ (100 = 0 -> engagement_rate c = 0%Q).
Proof.
  exists (sample "Chess" 25 75 100). split; [reflexivity|].
  apply (engagement_rate_at_construction (Some "Chess") None 25 75 100).
  reflexivity.
Defined.

(** The rate is the double of Python, not the exact quotient: 7 active
    members of 100 have the rate 7.000000000000001, and an active count of
    308 digits has the rate [inf]. *)
Example seven_of_a_hundred :
  engagement_rate (sample "Seven" 7 93 100)
  = (7881299347898369 # 1125899906842624)%Q
  /\ ~ (engagement_rate (sample "Seven" 7 93 100) == 7)%Q
  /\ exists c,
       add_metrics (mkData None None (Some (10 ^ 307)) (Some 0) (Some 1))
       = Ok c
       /\ engagement_rate c = infinity.
Proof.
  split; [vm_compute; reflexivity|]. split; [intros H; vm_compute in H; discriminate|].
  eexists. split; [vm_compute; reflexivity|]. reflexivity.
Qed.

(** C5, as the spec words it, does not hold: a community without active
    members has the ratio 0, which is not above 0. *)
Lemma active_ratio_positive_counterexample :
  exists c,
    add_metrics (mkData (Some "Quiet") None (Some 0) (Some 12) (Some 12))
    = Ok c
    /\ active_ratio c = 0%Q
    /\ ~ (0 < active_ratio c)%Q.
Proof.
  eexists. split; [reflexivity|]. split; [reflexivity|]. discriminate.
Qed.

(** C5, amended. For non-negative [active_members] and [offline_members]
    a record is built when [active_members] is within the range of the
    doubles, and in every record built [active_ratio] is the double
    nearest to [active_members / (offline_members + 1)]; it is finite and
    never negative; it is 0 when [active_members] is 0, and above 0 when
    [active_members] is above 0 and the quotient is no smaller than
    [2 ^ -1074], the smallest double above 0. *)
Theorem active_ratio_smoothing
    (nm lk : option string) (a o t : Z) :
  0 <= a -> 0 <= o ->
  (a < 2 ^ 1023 ->
   exists c, add_metrics (mkData nm lk (Some a) (Some o) (Some t)) = Ok c)
  /\ forall c,
       add_metrics (mkData nm lk (Some a) (Some o) (Some t)) = Ok c ->
       true_divide a (o + 1) = Ok (active_ratio c)
       /\ active_ratio c = nearest_double (inject_Z a / inject_Z (o + 1))
       /\ is_inf (active_ratio c) = false
       /\ (0 <= active_ratio c)%Q
       /\ (a = 0 -> active_ratio c = 0%Q)
       /\ (0 < a -> o + 1 <= a * 2 ^ 1074 -> (0 < active_ratio c)%Q).
Proof.
  intros Ha Ho. split.
  - intros Hr. apply add_metrics_returns; lia.
  - intros c Hc. destruct (add_metrics_fields _ _ Hc) as (Hd & _ & H44).
    inv Hd. unfold line_44 in H44.
    cbn [lookup bind d_active_members d_offline_members] in H44.
    destruct (true_divide_returns _ _ _ H44) as (_ & Hq & Hfin).
    split; [exact H44|]. split; [exact Hq|]. split; [exact Hfin|].
    split; [|split].
    + rewrite Hq. apply nearest_double_nonneg, quotient_nonneg; lia.
    + intros H0. rewrite Hq, H0. reflexivity.
    + intros Hpos Hsmall. rewrite Hq.
      destruct (active_members c) as [|n|n]; try lia.
      destruct (offline_members c + 1) as [|p|p] eqn:Ep; try lia.
      unfold nearest_double, Qdiv, Qmult, Qinv, inject_Z.
      cbn [Qnum Qden Z.mul Pos.mul]. rewrite Pos.mul_1_r.
      apply nearest_positive_above_zero. exact Hsmall.
Qed.

Lemma active_ratio_smoothing_witness :
  (100 < 2 ^ 1023 ->
   exists c,
     add_metrics (mkData None None (Some 100) (Some 0) (Some 100)) = Ok c)
  /\ forall c,
       add_metrics (mkData None None (Some 100) (Some 0) (Some 100)) = Ok c ->
       true_divide 100 (0 + 1) = Ok (active_ratio c)
       /\ active_ratio c = nearest_double (inject_Z 100 / inject_Z (0 + 1))
       /\ is_inf (active_ratio c) = false
       /\ (0 <= active_ratio c)%Q
       /\ (100 = 0 -> active_ratio c = 0%Q)
       /\ (0 < 100 -> 0 + 1 <= 100 * 2 ^ 1074 -> (0 < active_ratio c)%Q).
Proof.
  apply (active_ratio_smoothing None None 100 0 100); lia.
Defined.

(** Under the smallest double the ratio is 0 although a member is active:
    one active member beside [10 ^ 400] offline ones. *)
Example active_ratio_underflow :
  add_metrics (mkData None None (Some 1) (Some (10 ^ 400)) (Some 0))
  = Ok (mkCommunity None None 1 (10 ^ 400) 0 0 0).
Proof. vm_compute. reflexivity. Qed.

(** ** The fetch path of dcil.py *)

(** C10. A record that [scrape_discord_community] returns has
    [total_members = active_members + offline_members], because
    [offline_members] is computed as the difference of the two counts of
    the answer. *)
Theorem scraped_counts_add_up
    (get : string -> option Dcil.response) (l : string) (i : Dcil.info) :
  Dcil.scrape_discord_community get l = Ok i ->
  Dcil.total_members i = Dcil.active_members i + Dcil.offline_members i.
Proof.
  unfold Dcil.scrape_discord_community, Dcil.scrape_body.
  destruct (Dcil.search_invite l) as [code|]; [|discriminate].
  destruct (get (Dcil.invite_url code)) as [resp|]; [|discriminate].
  destruct (negb (Dcil.status_code resp =? 200)); [discriminate|].
  destruct (Dcil.json resp) as [d|]; [|discriminate].
  destruct (Dcil.approximate_member_count d) as [total|]; [|cbn; discriminate].
  destruct (Dcil.approximate_presence_count d) as [active|]; [|cbn; discriminate].
  destruct (Dcil.guild_object d) as [g|]; [|cbn; discriminate].
  destruct g as [[n|]]; [|cbn; discriminate].
  cbn. intros H. inv H. cbn. lia.
Qed.

Lemma scraped_counts_add_up_witness :
  Dcil.scrape_discord_community chess_endpoint "https://discord.gg/chess"
  = Ok (Dcil.mkInfo "Chess Club" "https://discord.gg/chess" 45 75 120)
  /\ 120 = 45 + 75.
Proof.
  split; [reflexivity|].
  apply (scraped_counts_add_up chess_endpoint "https://discord.gg/chess"
           (Dcil.mkInfo "Chess Club" "https://discord.gg/chess" 45 75 120)).
  reflexivity.
Defined.

(** ** The activity report on a community without members *)

(** The two guarded ratios of lines 196 to 202 on numpy scalars. *)
Lemma guarded_divide (a b : Z) :
  exists x,
    (if 0 <? b then scalar_divide NumpyInt64 a b else Ok Inf) = Ok x.
Proof.
  unfold scalar_divide. destruct (0 <? b) eqn:E; [|eexists; reflexivity].
  apply Z.ltb_lt in E.
  destruct (b =? 0) eqn:E0; [apply Z.eqb_eq in E0; lia|].
  eexists. reflexivity.
Qed.

(** The same ratios on Python ints: a float, or the [OverflowError] of a
    quotient past the doubles. *)
Lemma guarded_true_divide (a b : Z) :
  (exists x, (if 0 <? b then scalar_divide PythonInt a b else Ok Inf) = Ok x)
  \/ (if 0 <? b then scalar_divide PythonInt a b else Ok Inf)
     = Raise OverflowError.
Proof.
  unfold scalar_divide. destruct (0 <? b) eqn:E; [|left; eexists; reflexivity].
  apply Z.ltb_lt in E.
  destruct (true_divide a b) as [q|e] eqn:Eq; cbn [bind].
  - left. eexists. reflexivity.
  - right. destruct (true_divide_raises _ _ _ Eq) as [[H0 _]|[_ ->]];
      [lia | reflexivity].
Qed.

Lemma zero_share_not_finite (a : Z) :
  is_finite
    (times_100 (if 0 <? a then Inf else if a <? 0 then NegInf else NaN))
  = false.
Proof. destruct (0 <? a), (a <? 0); reflexivity. Qed.

(** C4 at the code: for a first row with [total_members = 0] whose two
    charts are drawn, [generate_single_community_visualizations] reaches
    the divisions of lines 196 to 216 with no guard of its own on the
    total. On Python ints the run ends in an error of the division, the
    [ZeroDivisionError] of line 215 unless a ratio of lines 196 to 202 is
    past the doubles; on numpy scalars the report is written with shares
    that are not finite. *)
Theorem activity_report_divides_by_zero_total
    (plt : plotting) (df : dataframe) (c : community)
    (rest : list community) (nm : string) :
  rows df = c :: rest ->
  community_name c = Some nm ->
  total_members c = 0 ->
  pie plt [active_members c; offline_members c] = None ->
  breakdown plt c = None ->
  (exists e,
     generate_single_community_visualizations plt PythonInt df = Raise e
     /\ (e = ZeroDivisionError \/ e = OverflowError))
  /\ exists r,
       generate_single_community_visualizations plt NumpyInt64 df
       = Ok (ActivityRatioReport r)
       /\ report_total r = 0
       /\ is_finite (percent_active r) = false
       /\ is_finite (percent_inactive r) = false.
Proof.
  intros Hrows Hname Htotal Hpie Hbars.
  unfold generate_single_community_visualizations. rewrite Hrows.
  assert (Hcol : has_name_column (c :: rest) = true)
    by (cbn; rewrite Hname; reflexivity).
  rewrite Hcol, Hpie, Hbars. cbn [draw bind].
  unfold activity_ratio_report. rewrite Htotal. split.
  - destruct (guarded_true_divide (active_members c) (offline_members c))
      as [[x ->] | ->]; cbn [bind]; [|eexists; split; [reflexivity|auto]].
    destruct (guarded_true_divide (offline_members c) (active_members c))
      as [[y ->] | ->]; cbn [bind]; [|eexists; split; [reflexivity|auto]].
    eexists. split; [reflexivity|auto].
  - destruct (guarded_divide (active_members c) (offline_members c))
      as [x ->].
    destruct (guarded_divide (offline_members c) (active_members c))
      as [y ->].
    cbn [bind scalar_divide Z.eqb]. eexists. split; [reflexivity|].
    cbn [report_total percent_active percent_inactive].
    split; [reflexivity|]. split; apply zero_share_not_finite.
Qed.

Lemma activity_report_divides_by_zero_total_witness :
  (exists e,
     generate_single_community_visualizations strict_pie PythonInt
       (mkFrame [stale_total] [1%Q] [1%Q] [1%Q]) = Raise e
     /\ (e = ZeroDivisionError \/ e = OverflowError))
  /\ exists r,
       generate_single_community_visualizations strict_pie NumpyInt64
         (mkFrame [stale_total] [1%Q] [1%Q] [1%Q])
       = Ok (ActivityRatioReport r)
       /\ report_total r = 0
       /\ is_finite (percent_active r) = false
       /\ is_finite (percent_inactive r) = false.
Proof.
  apply (activity_report_divides_by_zero_total strict_pie
           (mkFrame [stale_total] [1%Q] [1%Q] [1%Q])
           stale_total [] "Stale Total"); reflexivity.
Defined.

(** On the record of five active and three offline members with the total
    0 the run on Python ints ends in [ZeroDivisionError], and on numpy
    scalars both shares are written as [inf]. A community with no member
    at all does not come that far: the pie of line 165 has no wedge to
    draw, the run ends there, and no report is written, for a reason that
    is not the total. *)
Example shares_of_a_zero_total :
  generate_single_community_visualizations strict_pie PythonInt
    (mkFrame [stale_total] [1%Q] [1%Q] [1%Q]) = Raise ZeroDivisionError
  /\ (exists r,
        generate_single_community_visualizations strict_pie NumpyInt64
          (mkFrame [stale_total] [1%Q] [1%Q] [1%Q])
        = Ok (ActivityRatioReport r)
        /\ percent_active r = Inf /\ percent_inactive r = Inf)
  /\ forall k,
       generate_single_community_visualizations strict_pie k
         (mkFrame [empty_community] [1%Q] [1%Q] [1%Q])
       = Raise (ValueError "cannot convert float NaN to integer").
Proof.
  split; [vm_compute; reflexivity|]. split.
  - eexists. split; [vm_compute; reflexivity|]. split; reflexivity.
  - intros k. reflexivity.
Qed.

(** ** The value of a line *)

(** C2 at the code: on the line that [format_report] writes for an
    [https] link, [line.split(":")[1]] keeps only what stands between the
    first and the second colon, where the rule of the specification keeps
    the whole link. *)
Theorem field_value_stops_at_second_colon :
  field_value python_link_line = Ok "https"
  /\ spec_field_value python_link_line = "https://discord.gg/python".
Proof. split; reflexivity. Qed.

(** ** Lines and labels *)

Lemma prefix_split (p s : string) :
  String.prefix p s = true -> exists rest, s = p ++ rest.
Proof.
  revert s. induction p as [|a p IH]; intros s H.
  - exists s. reflexivity.
  - destruct s as [|b s]; [discriminate|]. cbn in H.
    destruct (ascii_dec a b) as [->|]; [|discriminate].
    destruct (IH s H) as [rest ->]. exists rest. reflexivity.
Qed.

Lemma split_not_nil (c : ascii) (s : string) : PyStr.split c s <> [].
Proof.
  destruct s as [|a s]; cbn; [discriminate|].
  destruct (Ascii.eqb a c); [discriminate|].
  destruct (PyStr.split c s); discriminate.
Qed.

Lemma split_app (c : ascii) (p rest : string) :
  has_char c p = false ->
  PyStr.split c (p ++ String c rest) = p :: PyStr.split c rest.
Proof.
  induction p as [|a p IH]; cbn; intros H.
  - rewrite Ascii.eqb_refl. reflexivity.
  - apply orb_false_iff in H as [Ha Hp]. rewrite Ha, (IH Hp). reflexivity.
Qed.

(** After a label, [line.split(":")[1]] is always there. *)
Lemma field_value_after (p rest : string) :
  has_char ":" p = false ->
  exists piece,
    nth_error (PyStr.split ":" rest) 0 = Some piece
    /\ field_value (p ++ String ":" rest) = Ok (PyStr.strip piece).
Proof.
  intros Hp. unfold field_value, PyStr.getitem. rewrite (split_app _ _ _ Hp).
  destruct (PyStr.split ":" rest) as [|piece ps] eqn:E;
    [exfalso; exact (split_not_nil _ _ E)|].
  exists piece. split; reflexivity.
Qed.

Lemma field_value_labelled (label line : string) :
  In label [ "Community Name:"; "Community Link:"; "Total Active Members:";
             "Total Offline Members:"; "Total Members:" ] ->
  PyStr.startswith line label = true ->
  exists v, field_value line = Ok v.
Proof.
  intros Hl Hp. destruct (prefix_split _ _ Hp) as [rest ->].
  cbn in Hl.
  repeat (destruct Hl as [<-|Hl];
    [ match goal with
      | |- context [ (?l ++ rest)%string ] =>
          let p := eval cbv in (String.substring 0 (String.length l - 1) l) in
          destruct (field_value_after p rest eq_refl) as (piece & _ & Hv);
          exists (PyStr.strip piece); exact Hv
      end | ]).
  contradiction.
Qed.

Lemma int_raises (s : string) (e : exn) :
  PyStr.int s = Raise e -> e = ValueError s.
Proof.
  unfold PyStr.int.
  destruct (PyStr.int_max_str_digits <? PyStr.count_digits (PyStr.strip s))%nat;
    [intros H; inv H; reflexivity|].
  destruct (match PyStr.strip s with
            | String "-" u => option_map Z.opp (PyStr.digits 0 false u)
            | String "+" u => PyStr.digits 0 false u
            | _ => PyStr.digits 0 false (PyStr.strip s)
            end); intros H; inv H; reflexivity.
Qed.

(** Two labels never start the same line. *)
Lemma labels_apart (l1 l2 line : string) :
  In l1 [ "Community Name:"; "Community Link:"; "Total Active Members:";
          "Total Offline Members:"; "Total Members:" ] ->
  In l2 [ "Total Active Members:"; "Total Offline Members:";
          "Total Members:" ] ->
  l1 <> l2 ->
  PyStr.startswith line l1 = true -> PyStr.startswith line l2 = false.
Proof.
  intros H1 H2 Hne Hp. destruct (prefix_split _ _ Hp) as [rest ->].
  cbn in H1, H2.
  repeat (destruct H1 as [<-|H1]);
    repeat (destruct H2 as [<-|H2]);
    try contradiction; try reflexivity; exfalso; apply Hne; reflexivity.
Qed.

Ltac label_side :=
  first [ eassumption | discriminate | (cbn; auto 10) ].

Ltac other_labels E :=
  match type of E with
  | PyStr.startswith ?line ?l1 = true =>
      repeat match goal with
      | |- context [PyStr.startswith line ?l2] =>
          rewrite (labels_apart l1 l2 line) by label_side
      end
  end.

Ltac run_line :=
  repeat match goal with
  | |- context [field_value ?l] =>
      destruct (field_value l); cbn [bind]; [|discriminate]
  | |- context [PyStr.int ?v] =>
      destruct (PyStr.int v); cbn [bind]; [|discriminate]
  end;
  let H := fresh in
  intros H; inv H;
  cbn [d_active_members d_offline_members d_total_members is_some];
  rewrite ?orb_false_r, ?orb_true_r; auto.

(** What one line does to the three counts: a count is there afterwards
    when it was there before or when the line carries its label. *)
Lemma read_line_counts (d d' : data) (line : string) :
  read_line d line = Ok d' ->
  is_some (d_active_members d')
  = is_some (d_active_members d)
    || PyStr.startswith line "Total Active Members:"
  /\ is_some (d_offline_members d')
     = is_some (d_offline_members d)
       || PyStr.startswith line "Total Offline Members:"
  /\ is_some (d_total_members d')
     = is_some (d_total_members d) || PyStr.startswith line "Total Members:".
Proof.
  unfold read_line.
  destruct (PyStr.startswith line "Community Name:") eqn:E1;
    [other_labels E1; run_line|].
  destruct (PyStr.startswith line "Community Link:") eqn:E2;
    [other_labels E2; run_line|].
  destruct (PyStr.startswith line "Total Active Members:") eqn:E3;
    [other_labels E3; run_line|].
  destruct (PyStr.startswith line "Total Offline Members:") eqn:E4;
    [other_labels E4; run_line|].
  destruct (PyStr.startswith line "Total Members:") eqn:E5; run_line.
Qed.

Lemma read_lines_counts (lines : list string) (d d' : data) :
  read_lines d lines = Ok d' ->
  is_some (d_active_members d')
  = is_some (d_active_members d) || has_label "Total Active Members:" lines
  /\ is_some (d_offline_members d')
     = is_some (d_offline_members d)
       || has_label "Total Offline Members:" lines
  /\ is_some (d_total_members d')
     = is_some (d_total_members d) || has_label "Total Members:" lines.
Proof.
  revert d. induction lines as [|line rest IH]; intros d; cbn [read_lines].
  - intros H; inv H. cbn. rewrite !orb_false_r. auto.
  - destruct (read_line d line) as [d1|e] eqn:E1; cbn [bind]; [|discriminate].
    intros H. apply IH in H as (Ha & Ho & Ht).
    apply read_line_counts in E1 as (Ha1 & Ho1 & Ht1).
    rewrite Ha, Ho, Ht, Ha1, Ho1, Ht1. cbn [has_label existsb].
    rewrite !orb_assoc. auto.
Qed.

(** A line raises nothing but the [ValueError] of [int]. *)
Lemma read_line_raises (d : data) (line : string) (e : exn) :
  read_line d line = Raise e -> exists literal, e = ValueError literal.
Proof.
  unfold read_line.
  repeat match goal with
  | |- context [if PyStr.startswith line ?l then _ else _] =>
      let E := fresh "E" in
      destruct (PyStr.startswith line l) eqn:E;
      [ destruct (field_value_labelled l line) as [v Hv];
        [cbn; auto 10 | exact E |];
        rewrite Hv; cbn [bind];
        try (destruct (PyStr.int v) as [n|e'] eqn:En; cbn [bind];
             [discriminate|];
             intros H; inv H; exists v; exact (int_raises _ _ En));
        try discriminate
      | ]
  end.
  discriminate.
Qed.

Lemma read_lines_raises (lines : list string) (d : data) (e : exn) :
  read_lines d lines = Raise e -> exists literal, e = ValueError literal.
Proof.
  revert d. induction lines as [|line rest IH]; intros d; cbn [read_lines].
  - discriminate.
  - destruct (read_line d line) as [d1|e1] eqn:E1; cbn [bind].
    + apply IH.
    + intros H; inv H. exact (read_line_raises _ _ _ E1).
Qed.

(** Lines 43 and 44 on a dict that lacks a count: the [KeyError] names a
    count that is not there, unless the quotient of line 43 has ended in
    an [OverflowError] before line 44 looks for the offline count. *)
Lemma add_metrics_missing (d : data) :
  is_some (d_active_members d) && is_some (d_offline_members d)
    && is_some (d_total_members d) = false ->
  (add_metrics d = Raise (KeyError "active_members")
   /\ d_active_members d = None)
  \/ (add_metrics d = Raise (KeyError "offline_members")
      /\ d_offline_members d = None)
  \/ (add_metrics d = Raise (KeyError "total_members")
      /\ d_total_members d = None)
  \/ (add_metrics d = Raise OverflowError
      /\ d_offline_members d = None
      /\ exists a t,
           d_active_members d = Some a /\ d_total_members d = Some t
           /\ 0 < t /\ true_divide a t = Raise OverflowError).
Proof.
  destruct d as [nm lk [a|] [o|] [t|]]; cbn; try discriminate; intros _;
    unfold add_metrics, line_43, line_44;
    cbn [lookup bind d_total_members d_active_members d_offline_members];
    auto;
    destruct (0 <? t) eqn:Et; cbn [bind]; auto.
  apply Z.ltb_lt in Et.
  destruct (true_divide a t) as [q|e] eqn:Eq; cbn [bind]; auto.
  destruct (true_divide_raises _ _ _ Eq) as [[H0 _]|[_ ->]]; [lia|].
  right. right. right. split; [reflexivity|]. split; [reflexivity|].
  exists a, t. auto.
Qed.

(** ** A block that lacks a count *)

(** C3, as the spec words it, does not hold: in a block without the lines
    of the active and offline counts whose total is written ["1,204"], the
    error is the [ValueError] of that line, not an error that names a
    missing count. *)
Lemma missing_field_not_named_counterexample :
  has_label "Total Active Members:" thousands_block = false
  /\ load_lines thousands_block = Raise (ValueError "1,204")
  /\ ~ (exists key, load_lines thousands_block = Raise (KeyError key)).
Proof.
  assert (H : load_lines thousands_block = Raise (ValueError "1,204"))
    by reflexivity.
  repeat split; try assumption; try reflexivity.
  intros [key Hk]. rewrite H in Hk. discriminate.
Qed.

(** C3, amended. A block that lacks the line of one of the three counts
    never gives a record: parsing raises. The error is a [KeyError] whose
    key is a count without a line in the block, unless an error of a line
    that is there comes first: the [ValueError] of a count that is not an
    integer literal, or, in a block without the offline count, the
    [OverflowError] of the quotient of line 43 when the active count is
    past the doubles. *)
Theorem missing_count_is_fatal (lines : list string) :
  has_label "Total Active Members:" lines = false
  \/ has_label "Total Offline Members:" lines = false
  \/ has_label "Total Members:" lines = false ->
  exists e,
    load_lines lines = Raise e
    /\ ((exists literal,
           e = ValueError literal /\ read_lines empty_data lines = Raise e)
        \/ (exists key label,
              e = KeyError key
              /\ In (key, label) required_fields
              /\ has_label label lines = false)
        \/ (e = OverflowError
            /\ has_label "Total Offline Members:" lines = false
            /\ exists d a t,
                 read_lines empty_data lines = Ok d
                 /\ d_active_members d = Some a
                 /\ d_total_members d = Some t
                 /\ 0 < t
                 /\ true_divide a t = Raise OverflowError)).
Proof.
  intros Habsent. unfold load_lines.
  destruct (read_lines empty_data lines) as [d|e] eqn:E; cbn [bind].
  - destruct (read_lines_counts _ _ _ E) as (Ha & Ho & Ht). cbn in Ha, Ho, Ht.
    assert (Hmiss : is_some (d_active_members d)
                    && is_some (d_offline_members d)
                    && is_some (d_total_members d) = false).
    { rewrite Ha, Ho, Ht.
      destruct Habsent as [-> | [-> | ->]];
        rewrite ?andb_false_r; reflexivity. }
    destruct (add_metrics_missing d Hmiss)
      as [[Hr Hn] | [[Hr Hn] | [[Hr Hn] | (Hr & Hn & a & t & Hover)]]];
      rewrite Hr; eexists; (split; [reflexivity|]); right.
    + left. exists "active_members", "Total Active Members:".
      rewrite Hn in Ha. cbn. auto.
    + left. exists "offline_members", "Total Offline Members:".
      rewrite Hn in Ho. cbn. auto 6.
    + left. exists "total_members", "Total Members:".
      rewrite Hn in Ht. cbn. auto 6.
    + right. split; [reflexivity|]. rewrite Hn in Ho. split; [auto|].
      exists d, a, t. auto.
  - exists e. split; [reflexivity|]. left.
    destruct (read_lines_raises _ _ _ E) as [literal ->].
    exists literal. split; reflexivity.
Qed.

Lemma missing_count_is_fatal_witness :
  exists e,
    load_lines [line_of "Community Name: Chess Club";
                line_of "Total Members: 120"] = Raise e
    /\ ((exists literal,
           e = ValueError literal
           /\ read_lines empty_data
                [line_of "Community Name: Chess Club";
                 line_of "Total Members: 120"] = Raise e)
        \/ (exists key label,
              e = KeyError key
              /\ In (key, label) required_fields
              /\ has_label label
                   [line_of "Community Name: Chess Club";
                    line_of "Total Members: 120"] = false)
        \/ (e = OverflowError
            /\ has_label "Total Offline Members:"
                 [line_of "Community Name: Chess Club";
                  line_of "Total Members: 120"] = false
            /\ exists d a t,
                 read_lines empty_data
                   [line_of "Community Name: Chess Club";
                    line_of "Total Members: 120"] = Ok d
                 /\ d_active_members d = Some a
                 /\ d_total_members d = Some t
                 /\ 0 < t
                 /\ true_divide a t = Raise OverflowError)).
Proof.
  apply (missing_count_is_fatal
           [line_of "Community Name: Chess Club";
            line_of "Total Members: 120"]).
  left. reflexivity.
Defined.

(** The three errors of a block that lacks a count, each at a block of
    its own: the key of the missing count, the literal that is no int,
    and the quotient of line 43 past the doubles. *)
Example errors_of_a_block_without_a_count :
  load_lines [line_of "Community Name: Chess Club";
              line_of "Total Members: 120"]
  = Raise (KeyError "active_members")
  /\ load_lines thousands_block = Raise (ValueError "1,204")
  /\ load_lines huge_block = Raise OverflowError.
Proof. repeat split; vm_compute; reflexivity. Qed.

(** ** The choice of the report in [main] *)

Lemma chess_file_loads :
  load_data_from_file one_file_fs "saved/chess.txt" = Ok chess_club.
Proof. vm_compute. reflexivity. Qed.

(** Whatever the charts over all the rows do, they write no report. *)
Lemma charts_write_no_report (plt : plotting) (k : scalars) (df : dataframe)
    (reports : list report_file) :
  generate_visualizations plt k df false = Ok reports -> reports = [].
Proof.
  unfold generate_visualizations.
  destruct (draw (scatter plt (rows df))); cbn [bind]; [|discriminate].
  destruct (has_name_column (rows df)); cbn [bind]; [|discriminate].
  destruct (draw (charts plt (rows df))); cbn [bind]; [|discriminate].
  intros H; inv H. reflexivity.
Qed.

(** C1 at the code: [main] chooses the report by the [-f] argument and
    never looks at the number of records. A directory that holds one record
    gets the competitive report, which the comment of line 290 keeps for
    several communities, and no report of a single community, whatever the
    charts do. A directory of two records named together with [-f] gets
    the report of a single community, made from the first record of the
    directory, which the comment of line 157 takes to be the only one. *)
Theorem report_follows_the_flag_not_the_count (k : scalars) :
  communities_data one_file_fs (arg_d directory_args) (arg_f directory_args)
  = Ok [chess_club]
  /\ (forall plt,
        exists r,
          written (main plt k one_file_fs directory_args) = [AnalysisReport r]
          /\ communities_analyzed r = 1%nat)
  /\ communities_data pair_fs (arg_d both_args) (arg_f both_args)
     = Ok [chess_club; go_club]
  /\ exists r,
       main strict_pie k pair_fs both_args
       = mkRun false [ActivityRatioReport r] None
       /\ report_name r = Some "Chess Club".
Proof.
  split; [vm_compute; reflexivity|]. split; [|split].
  - intros plt. unfold main.
    change (arg_u directory_args
            || negb (truthy (arg_d directory_args))
               && negb (truthy (arg_f directory_args))) with false.
    change (truthy (arg_f directory_args)) with false.
    assert (Ha : analyze_communities one_file_fs (arg_d directory_args)
                   (arg_f directory_args)
                 = Ok (mkFrame [chess_club] [1%Q] [1%Q] [1%Q]))
      by (vm_compute; reflexivity).
    rewrite Ha. cbv iota. cbn [negb].
    destruct (generate_analysis_report (mkFrame [chess_club] [1%Q] [1%Q] [1%Q]))
      as [r|e] eqn:Er; [|discriminate]. cbn [bind].
    assert (Hn : communities_analyzed r = 1%nat) by (inv Er; reflexivity).
    exists r. split; [|exact Hn].
    destruct (generate_visualizations plt k
                (mkFrame [chess_club] [1%Q] [1%Q] [1%Q]) false)
      as [reports|e] eqn:Ev; cbn [written]; [|reflexivity].
    rewrite (charts_write_no_report _ _ _ _ Ev). reflexivity.
  - vm_compute. reflexivity.
  - destruct k; eexists; (split; [vm_compute; reflexivity | reflexivity]).
Qed.

(** The same file named with [-f] alone gets the report of a single
    community and no competitive report. *)
Example single_file_run :
  forall k,
    exists r,
      main strict_pie k one_file_fs file_args
      = mkRun false [ActivityRatioReport r] None
      /\ report_name r = Some "Chess Club"
      /\ report_total r = 120.
Proof.
  intros k. destruct k; eexists;
    (split; [vm_compute; reflexivity | split; reflexivity]).
Qed.

(** ** Integer literals *)

Lemma digits_acc (d : Decimal.uint) (acc : positive) :
  PyStr.digits (Z.pos acc) true (NilEmpty.string_of_uint d)
  = Some (Z.pos (Pos.of_uint_acc d acc)).
Proof.
  revert acc. induction d; intros acc;
    cbn [NilEmpty.string_of_uint Pos.of_uint_acc]; [reflexivity|..];
    rewrite <- IHd; unfold PyStr.digits at 1; fold PyStr.digits;
    (match goal with
     | |- (if ?b then _ else _) = _ => change b with true; cbv iota
     end);
    f_equal;
    (match goal with
     | |- context [PyStr.digit_value ?c] =>
         let v := eval vm_compute in (PyStr.digit_value c) in
         change (PyStr.digit_value c) with v
     end); lia.
Qed.

Lemma digits_uint (d : Decimal.uint) (seen : bool) :
  d <> Decimal.Nil \/ seen = true ->
  PyStr.digits 0 seen (NilEmpty.string_of_uint d)
  = Some (Z.of_N (Pos.of_uint d)).
Proof.
  revert seen. induction d; intros seen Hd;
    cbn [NilEmpty.string_of_uint PyStr.digits Pos.of_uint].
  - destruct Hd as [Hd| ->]; [contradiction|reflexivity].
  - apply (IHd true). right. reflexivity.
  - exact (digits_acc d 1).
  - exact (digits_acc d 2).
  - exact (digits_acc d 3).
  - exact (digits_acc d 4).
  - exact (digits_acc d 5).
  - exact (digits_acc d 6).
  - exact (digits_acc d 7).
  - exact (digits_acc d 8).
  - exact (digits_acc d 9).
Qed.

Lemma literal_uint (d : Decimal.uint) :
  d <> Decimal.Nil ->
  match NilEmpty.string_of_uint d with
  | String "-" u => option_map Z.opp (PyStr.digits 0 false u)
  | String "+" u => PyStr.digits 0 false u
  | _ => PyStr.digits 0 false (NilEmpty.string_of_uint d)
  end = PyStr.digits 0 false (NilEmpty.string_of_uint d).
Proof. destruct d; [contradiction | reflexivity ..]. Qed.

Lemma lstrip_spaceless (s : string) : spaceless s = true -> PyStr.lstrip s = s.
Proof.
  destruct s as [|a s]; cbn; [reflexivity|].
  destruct (PyStr.isspace a); [discriminate|reflexivity].
Qed.

Lemma rstrip_spaceless (s : string) : spaceless s = true -> PyStr.rstrip s = s.
Proof.
  induction s as [|a s IH]; cbn; [reflexivity|].
  intros H. apply andb_true_iff in H as [Ha Hs]. rewrite (IH Hs).
  destruct s; [|reflexivity].
  destruct (PyStr.isspace a); [discriminate|reflexivity].
Qed.

Lemma strip_spaceless (s : string) : spaceless s = true -> PyStr.strip s = s.
Proof.
  intros H. unfold PyStr.strip. rewrite (lstrip_spaceless s H).
  apply rstrip_spaceless, H.
Qed.

Lemma spaceless_uint (d : Decimal.uint) :
  spaceless (NilEmpty.string_of_uint d) = true.
Proof.
  induction d; cbn [NilEmpty.string_of_uint spaceless];
    rewrite ?IHd; reflexivity.
Qed.

Lemma has_char_uint (c : ascii) (d : Decimal.uint) :
  PyStr.isdigit c = false -> has_char c (NilEmpty.string_of_uint d) = false.
Proof.
  intros Hc. induction d; cbn [NilEmpty.string_of_uint has_char];
    [reflexivity|..]; rewrite IHd, orb_false_r;
    (match goal with
     | |- Ascii.eqb ?a c = false =>
         destruct (Ascii.eqb_spec a c) as [<-|]; [discriminate|reflexivity]
     end).
Qed.

(** The text of an int: digits, after a minus sign when it is negative. *)
Lemma str_cases (z : Z) :
  (exists d, d <> Decimal.Nil
             /\ PyStr.str z = NilEmpty.string_of_uint d
             /\ Z.of_N (Pos.of_uint d) = z)
  \/ (exists d, d <> Decimal.Nil
                /\ PyStr.str z = String "-" (NilEmpty.string_of_uint d)
                /\ Z.opp (Z.of_N (Pos.of_uint d)) = z).
Proof.
  unfold PyStr.str. destruct z as [|p|p]; cbn [Z.to_int NilZero.string_of_int].
  - left. exists (Decimal.D0 Decimal.Nil). repeat split. discriminate.
  - left. exists (Pos.to_uint p).
    pose proof (DecimalPos.Unsigned.to_uint_nonnil p) as Hn.
    rewrite DecimalPos.Unsigned.of_to. repeat split; [exact Hn|].
    unfold NilZero.string_of_uint. destruct (Pos.to_uint p);
      [contradiction | reflexivity ..].
  - right. exists (Pos.to_uint p).
    pose proof (DecimalPos.Unsigned.to_uint_nonnil p) as Hn.
    rewrite DecimalPos.Unsigned.of_to. repeat split; [exact Hn|].
    unfold NilZero.string_of_uint. destruct (Pos.to_uint p);
      [contradiction | reflexivity ..].
Qed.

Lemma spaceless_str (z : Z) : spaceless (PyStr.str z) = true.
Proof.
  destruct (str_cases z) as [(d & _ & -> & _) | (d & _ & -> & _)];
    cbn [spaceless]; rewrite spaceless_uint; reflexivity.
Qed.

Lemma has_char_str (c : ascii) (z : Z) :
  PyStr.isdigit c = false -> Ascii.eqb "-" c = false ->
  has_char c (PyStr.str z) = false.
Proof.
  intros Hc Hm.
  destruct (str_cases z) as [(d & _ & -> & _) | (d & _ & -> & _)];
    cbn [has_char]; rewrite ?Hm, (has_char_uint c d Hc); reflexivity.
Qed.

(** [int(str(z))] is [z] for a count that is short enough to convert. *)
Lemma int_str (z : Z) : short z = true -> PyStr.int (PyStr.str z) = Ok z.
Proof.
  intros Hs. unfold short in Hs. apply Nat.leb_le, Nat.ltb_ge in Hs.
  unfold PyStr.int. rewrite (strip_spaceless _ (spaceless_str z)), Hs.
  destruct (str_cases z) as [(d & Hd & -> & Hz) | (d & Hd & -> & Hz)].
  - rewrite (literal_uint d Hd), digits_uint by (left; exact Hd).
    rewrite Hz. reflexivity.
  - rewrite digits_uint by (left; exact Hd). cbn [option_map].
    rewrite Hz. reflexivity.
Qed.

(** ** Stripping and cutting into lines *)

Lemma append_empty (s : string) : (s ++ "")%string = s.
Proof. induction s as [|a s IH]; cbn; [reflexivity|rewrite IH; reflexivity]. Qed.

Lemma has_char_app (c : ascii) (s t : string) :
  has_char c (s ++ t) = has_char c s || has_char c t.
Proof.
  induction s as [|a s IH]; cbn; [reflexivity|].
  rewrite IH, orb_assoc. reflexivity.
Qed.

Lemma lstrip_length (s : string) :
  (String.length (PyStr.lstrip s) <= String.length s)%nat.
Proof.
  induction s as [|a s IH]; cbn; [lia|].
  destruct (PyStr.isspace a); cbn; lia.
Qed.

Lemma rstrip_length (s : string) :
  (String.length (PyStr.rstrip s) <= String.length s)%nat.
Proof.
  induction s as [|a s IH]; cbn; [lia|].
  destruct (PyStr.rstrip s); [destruct (PyStr.isspace a)|]; cbn in *; lia.
Qed.

(** A string that [strip] leaves alone is left alone at both ends. *)
Lemma strip_fixed (v : string) :
  PyStr.strip v = v -> PyStr.lstrip v = v /\ PyStr.rstrip v = v.
Proof.
  intros H. unfold PyStr.strip in H.
  assert (Hl : PyStr.lstrip v = v).
  { pose proof (rstrip_length (PyStr.lstrip v)) as H1. rewrite H in H1.
    destruct v as [|a v]; [reflexivity|]. cbn in *.
    destruct (PyStr.isspace a); [|reflexivity].
    pose proof (lstrip_length v). lia. }
  split; [exact Hl|]. rewrite Hl in H. exact H.
Qed.

Lemma rstrip_newline (s : string) :
  PyStr.rstrip (s ++ String PyStr.LF "") = PyStr.rstrip s.
Proof.
  induction s as [|a s IH]; [reflexivity|].
  cbn [append PyStr.rstrip]. rewrite IH. reflexivity.
Qed.

(** The blank after the colon and the line break at the end fall off. *)
Lemma strip_padded (v tail : string) :
  PyStr.strip v = v ->
  tail = "" \/ tail = String PyStr.LF "" ->
  PyStr.strip (String " " (v ++ tail)) = v.
Proof.
  intros Hv Ht. destruct (strip_fixed v Hv) as [Hl Hr].
  unfold PyStr.strip. change (PyStr.lstrip (String " " (v ++ tail)))
    with (PyStr.lstrip (v ++ tail)).
  destruct v as [|a v].
  - destruct Ht as [-> | ->]; reflexivity.
  - assert (Ha : PyStr.isspace a = false).
    { cbn in Hl. destruct (PyStr.isspace a); [|reflexivity].
      pose proof (lstrip_length v) as Hlen. rewrite Hl in Hlen.
      cbn in Hlen. lia. }
    cbn [append PyStr.lstrip]. rewrite Ha.
    change (String a (v ++ tail)) with (String a v ++ tail)%string.
    destruct Ht as [-> | ->].
    + rewrite append_empty. exact Hr.
    + rewrite rstrip_newline. exact Hr.
Qed.

Lemma split_whole (c : ascii) (s : string) :
  has_char c s = false -> PyStr.split c s = [s].
Proof.
  induction s as [|a s IH]; cbn; [reflexivity|]. intros H.
  apply orb_false_iff in H as [Ha Hs]. rewrite Ha, (IH Hs). reflexivity.
Qed.

(** On a line [label: value] whose value has neither a colon nor blanks
    at its ends, [field_value] is the value. *)
Lemma field_value_plain (p v tail : string) :
  has_char ":" p = false ->
  has_char ":" v = false ->
  PyStr.strip v = v ->
  tail = "" \/ tail = String PyStr.LF "" ->
  field_value (p ++ String ":" (String " " (v ++ tail))) = Ok v.
Proof.
  intros Hp Hc Hv Ht. unfold field_value.
  rewrite (split_app _ _ _ Hp), split_whole.
  - cbn [PyStr.getitem nth_error bind]. rewrite (strip_padded v tail Hv Ht).
    reflexivity.
  - cbn [has_char]. rewrite has_char_app, Hc.
    destruct Ht as [-> | ->]; reflexivity.
Qed.

Lemma universal_newlines_plain (s : string) :
  has_char PyStr.CR s = false -> PyStr.universal_newlines s = s.
Proof.
  induction s as [|a s IH]; [reflexivity|]. intros H.
  cbn [has_char] in H. apply orb_false_iff in H as [Ha Hs].
  cbn [PyStr.universal_newlines]. rewrite Ha, (IH Hs). reflexivity.
Qed.

Lemma keepends_line (a rest : string) :
  has_char PyStr.LF a = false ->
  PyStr.keepends (a ++ String PyStr.LF rest)
  = (a ++ String PyStr.LF "")%string :: PyStr.keepends rest.
Proof.
  induction a as [|c a IH]; intros H.
  - reflexivity.
  - cbn [has_char] in H. apply orb_false_iff in H as [Hc Ha].
    cbn [append PyStr.keepends]. rewrite Hc, (IH Ha). reflexivity.
Qed.

Lemma keepends_last (a : string) :
  has_char PyStr.LF a = false -> a <> "" -> PyStr.keepends a = [a].
Proof.
  induction a as [|c a IH]; intros H Hne; [contradiction|].
  cbn [has_char] in H. apply orb_false_iff in H as [Hc Ha].
  cbn [PyStr.keepends]. rewrite Hc.
  destruct a as [|c' a']; [reflexivity|].
  rewrite (IH Ha) by discriminate. reflexivity.
Qed.

(** ** Writing a record and reading it back *)

Ltac eval_labels :=
  repeat match goal with
  | |- context [PyStr.startswith ?l ?lab] =>
      let b := eval cbv in (PyStr.startswith l lab) in
      change (PyStr.startswith l lab) with b
  end;
  cbv iota.

Lemma read_name_line (d : data) (v tail : string) :
  has_char ":" v = false -> PyStr.strip v = v ->
  tail = "" \/ tail = String PyStr.LF "" ->
  read_line d (("Community Name: " ++ v) ++ tail)
  = Ok (mkData (Some v) (d_link d) (d_active_members d)
          (d_offline_members d) (d_total_members d)).
Proof.
  intros Hc Hv Ht. unfold read_line. eval_labels.
  change (("Community Name: " ++ v) ++ tail)%string
    with ("Community Name" ++ String ":" (String " " (v ++ tail)))%string.
  rewrite field_value_plain by (assumption || reflexivity). reflexivity.
Qed.

Lemma read_link_line (d : data) (v tail : string) :
  has_char ":" v = false -> PyStr.strip v = v ->
  tail = "" \/ tail = String PyStr.LF "" ->
  read_line d (("Community Link: " ++ v) ++ tail)
  = Ok (mkData (d_community_name d) (Some v) (d_active_members d)
          (d_offline_members d) (d_total_members d)).
Proof.
  intros Hc Hv Ht. unfold read_line. eval_labels.
  change (("Community Link: " ++ v) ++ tail)%string
    with ("Community Link" ++ String ":" (String " " (v ++ tail)))%string.
  rewrite field_value_plain by (assumption || reflexivity). reflexivity.
Qed.

Lemma count_value (p : string) (z : Z) (tail : string) :
  has_char ":" p = false ->
  tail = "" \/ tail = String PyStr.LF "" ->
  field_value (p ++ String ":" (String " " (PyStr.str z ++ tail)))
  = Ok (PyStr.str z).
Proof.
  intros Hp Ht. apply field_value_plain; try assumption.
  - apply has_char_str; reflexivity.
  - apply strip_spaceless, spaceless_str.
Qed.

Lemma read_active_line (d : data) (z : Z) (tail : string) :
  short z = true ->
  tail = "" \/ tail = String PyStr.LF "" ->
  read_line d (("Total Active Members: " ++ PyStr.str z) ++ tail)
  = Ok (mkData (d_community_name d) (d_link d) (Some z)
          (d_offline_members d) (d_total_members d)).
Proof.
  intros Hz Ht. unfold read_line. eval_labels.
  change (("Total Active Members: " ++ PyStr.str z) ++ tail)%string
    with ("Total Active Members"
          ++ String ":" (String " " (PyStr.str z ++ tail)))%string.
  rewrite count_value by (assumption || reflexivity). cbn [bind].
  rewrite int_str by exact Hz. reflexivity.
Qed.

Lemma read_offline_line (d : data) (z : Z) (tail : string) :
  short z = true ->
  tail = "" \/ tail = String PyStr.LF "" ->
  read_line d (("Total Offline Members: " ++ PyStr.str z) ++ tail)
  = Ok (mkData (d_community_name d) (d_link d) (d_active_members d)
          (Some z) (d_total_members d)).
Proof.
  intros Hz Ht. unfold read_line. eval_labels.
  change (("Total Offline Members: " ++ PyStr.str z) ++ tail)%string
    with ("Total Offline Members"
          ++ String ":" (String " " (PyStr.str z ++ tail)))%string.
  rewrite count_value by (assumption || reflexivity). cbn [bind].
  rewrite int_str by exact Hz. reflexivity.
Qed.

Lemma read_total_line (d : data) (z : Z) (tail : string) :
  short z = true ->
  tail = "" \/ tail = String PyStr.LF "" ->
  read_line d (("Total Members: " ++ PyStr.str z) ++ tail)
  = Ok (mkData (d_community_name d) (d_link d) (d_active_members d)
          (d_offline_members d) (Some z)).
Proof.
  intros Hz Ht. unfold read_line. eval_labels.
  change (("Total Members: " ++ PyStr.str z) ++ tail)%string
    with ("Total Members"
          ++ String ":" (String " " (PyStr.str z ++ tail)))%string.
  rewrite count_value by (assumption || reflexivity). cbn [bind].
  rewrite int_str by exact Hz. reflexivity.
Qed.

Lemma plain_value_spec (v : string) :
  plain_value v = true ->
  has_char ":" v = false /\ has_char PyStr.LF v = false
  /\ has_char PyStr.CR v = false /\ PyStr.strip v = v.
Proof.
  unfold plain_value. intros H.
  repeat (apply andb_true_iff in H as [H ?]).
  repeat match goal with
  | Hn : negb _ = true |- _ => apply negb_true_iff in Hn
  end.
  repeat split; try assumption. apply String.eqb_eq. assumption.
Qed.

(** The lines that [readlines] cuts from a report. *)
Lemma report_lines (nm lk : string) (a o t : Z) :
  has_char PyStr.LF nm = false -> has_char PyStr.CR nm = false ->
  has_char PyStr.LF lk = false -> has_char PyStr.CR lk = false ->
  PyStr.readlines (Dcil.format_report (Dcil.mkInfo nm lk a o t))
  = [ (("Community Name: " ++ nm) ++ String PyStr.LF "")%string;
      (("Community Link: " ++ lk) ++ String PyStr.LF "")%string;
      (("Total Active Members: " ++ PyStr.str a) ++ String PyStr.LF "")%string;
      (("Total Offline Members: " ++ PyStr.str o) ++ String PyStr.LF "")%string;
      (("Total Members: " ++ PyStr.str t) ++ "")%string ].
Proof.
  intros Hn1 Hn2 Hl1 Hl2.
  assert (Hs : forall c z, PyStr.isdigit c = false -> Ascii.eqb "-" c = false ->
                 forall label, has_char c label = false ->
                 has_char c (label ++ PyStr.str z) = false).
  { intros c z H1 H2 label H3. rewrite has_char_app, H3, has_char_str; auto. }
  assert (Hv : forall c v label, has_char c v = false ->
                 has_char c label = false -> has_char c (label ++ v) = false).
  { intros c v label H1 H2. rewrite has_char_app, H1, H2. reflexivity. }
  unfold PyStr.readlines, Dcil.format_report, PyStr.join_lines.
  cbn [Dcil.community_name Dcil.link Dcil.active_members
       Dcil.offline_members Dcil.total_members].
  rewrite universal_newlines_plain.
  - rewrite !keepends_line, keepends_last, append_empty;
      first [ reflexivity
            | apply Hs; reflexivity
            | apply Hv; (assumption || reflexivity)
            | idtac ].
    destruct (PyStr.str t); discriminate.
  - repeat (rewrite has_char_app; cbn [has_char orb]);
      rewrite ?Hn2, ?Hl2, ?has_char_str by reflexivity; reflexivity.
Qed.

(** C9, as the spec words it, does not hold for every record: a name
    with a blank at its end comes back without the blank, and a link with
    a colon comes back cut at the colon. *)
Lemma round_trip_counterexample :
  ~ (exists c,
       round_trip (Dcil.mkInfo "Chess Club " "discord.gg/chess" 45 75 120)
       = Ok c
       /\ same_record
            (Dcil.mkInfo "Chess Club " "discord.gg/chess" 45 75 120) c)
  /\ ~ (exists c,
          round_trip
            (Dcil.mkInfo "Chess Club" "https://discord.gg/chess" 45 75 120)
          = Ok c
          /\ same_record
               (Dcil.mkInfo "Chess Club" "https://discord.gg/chess" 45 75 120)
               c).
Proof.
  split.
  - assert (H : round_trip
                  (Dcil.mkInfo "Chess Club " "discord.gg/chess" 45 75 120)
                = Ok chess_club) by (vm_compute; reflexivity).
    intros (c & Hc & Hname & _). rewrite H in Hc. inv Hc.
    cbn in Hname. discriminate.
  - assert (H : exists c0,
                  round_trip
                    (Dcil.mkInfo "Chess Club" "https://discord.gg/chess"
                       45 75 120) = Ok c0
                  /\ link c0 = Some "https")
      by (exists (mkCommunity (Some "Chess Club") (Some "https") 45 75 120
                    (engagement_rate chess_club) (active_ratio chess_club));
          split; [vm_compute; reflexivity | reflexivity]).
    destruct H as (c0 & H0 & Hcut).
    intros (c & Hc & _ & Hlink & _). rewrite H0 in Hc. inv Hc.
    rewrite Hcut in Hlink. discriminate.
Qed.

(** C9, amended. For every record whose name and link have no colon, no
    line break and no white space at their ends, and whose counts are
    short enough for [str] and [int], reading the text of [format_report]
    back is building the record from the same five fields: the outcome is
    that of lines 43 and 44 on them. It is a record when the offline count
    is not -1 and the active count is within the range of the doubles,
    and every record read back has the same name, link and three counts,
    with the two derived metrics computed from these counts. *)
Theorem report_round_trip (i : Dcil.info) :
  plain_value (Dcil.community_name i) = true ->
  plain_value (Dcil.link i) = true ->
  short (Dcil.active_members i) = true ->
  short (Dcil.offline_members i) = true ->
  short (Dcil.total_members i) = true ->
  round_trip i = add_metrics (fields_of i)
  /\ (Dcil.offline_members i <> -1 ->
      Z.abs (Dcil.active_members i) < 2 ^ 1023 ->
      exists c, round_trip i = Ok c)
  /\ forall c,
       round_trip i = Ok c ->
       same_record i c
       /\ line_43 (fields_of i) = Ok (engagement_rate c)
       /\ line_44 (fields_of i) = Ok (active_ratio c).
Proof.
  destruct i as [nm lk a o t].
  cbn [Dcil.community_name Dcil.link Dcil.active_members
       Dcil.offline_members Dcil.total_members].
  intros Hn Hl Ha Ho Ht.
  apply plain_value_spec in Hn as (Hn1 & Hn2 & Hn3 & Hn4).
  apply plain_value_spec in Hl as (Hl1 & Hl2 & Hl3 & Hl4).
  assert (Hread : round_trip (Dcil.mkInfo nm lk a o t)
                  = add_metrics (fields_of (Dcil.mkInfo nm lk a o t))).
  { unfold round_trip, load_data_from_file. cbn [fs_open].
    rewrite report_lines by assumption.
    unfold load_lines. cbn [read_lines].
    rewrite read_name_line by auto. cbn [bind].
    rewrite read_link_line by auto. cbn [bind].
    rewrite read_active_line by auto. cbn [bind].
    rewrite read_offline_line by auto. cbn [bind].
    rewrite read_total_line by auto. cbn [bind].
    reflexivity. }
  split; [exact Hread|]. rewrite Hread. unfold fields_of.
  cbn [Dcil.community_name Dcil.link Dcil.active_members
       Dcil.offline_members Dcil.total_members].
  split.
  - apply add_metrics_returns.
  - intros c Hc. destruct (add_metrics_fields _ _ Hc) as (Hd & H43 & H44).
    split; [|split; assumption].
    inv Hd. unfold same_record. cbn. auto.
Qed.

Lemma report_round_trip_witness :
  round_trip (Dcil.mkInfo "Chess Club" "discord.gg/chess" 45 75 120)
  = add_metrics
      (fields_of (Dcil.mkInfo "Chess Club" "discord.gg/chess" 45 75 120))
  /\ (75 <> -1 -> Z.abs 45 < 2 ^ 1023 ->
      exists c,
        round_trip (Dcil.mkInfo "Chess Club" "discord.gg/chess" 45 75 120)
        = Ok c)
  /\ forall c,
       round_trip (Dcil.mkInfo "Chess Club" "discord.gg/chess" 45 75 120)
       = Ok c ->
       same_record (Dcil.mkInfo "Chess Club" "discord.gg/chess" 45 75 120) c
       /\ line_43
            (fields_of (Dcil.mkInfo "Chess Club" "discord.gg/chess" 45 75 120))
          = Ok (engagement_rate c)
       /\ line_44
            (fields_of (Dcil.mkInfo "Chess Club" "discord.gg/chess" 45 75 120))
          = Ok (active_ratio c).
Proof.
  apply (report_round_trip
           (Dcil.mkInfo "Chess Club" "discord.gg/chess" 45 75 120));
    reflexivity.
Defined.

(** The file of the chess club reads back as the record of the club, and
    a record whose active count is past the doubles is written and then
    refused by the reader with the [OverflowError] of line 43. *)
Example round_trips_of_two_records :
  round_trip (Dcil.mkInfo "Chess Club" "discord.gg/chess" 45 75 120)
  = Ok chess_club
  /\ round_trip (Dcil.mkInfo "Big" "discord.gg/big" (10 ^ 400) 0 1)
     = Raise OverflowError.
Proof. split; vm_compute; reflexivity. Qed.

(** ** The rank columns *)

Ltac q_props :=
  repeat match goal with
  | H : Qle_bool _ _ = true |- _ => apply Qle_bool_iff in H
  | H : Qle_bool ?x ?y = false |- _ =>
      assert (~ (x <= y)%Q) by (rewrite <- Qle_bool_iff; congruence); clear H
  | H : Qeq_bool _ _ = true |- _ => apply Qeq_bool_iff in H
  | H : Qeq_bool ?x ?y = false |- _ =>
      assert (~ (x == y)%Q) by (rewrite <- Qeq_bool_iff; congruence); clear H
  end.

Ltac q_bool :=
  match goal with
  | |- Qle_bool ?x ?y = true => apply Qle_bool_iff; q_props; lra
  | |- Qeq_bool ?x ?y = true => apply Qeq_bool_iff; q_props; lra
  | |- Qle_bool ?x ?y = false =>
      let E := fresh in destruct (Qle_bool x y) eqn:E;
      [exfalso; q_props; lra | reflexivity]
  | |- Qeq_bool ?x ?y = false =>
      let E := fresh in destruct (Qeq_bool x y) eqn:E;
      [exfalso; q_props; lra | reflexivity]
  | |- negb ?b = false => apply (proj2 (negb_false_iff b)); q_bool
  | |- negb ?b = true => apply (proj2 (negb_true_iff b)); q_bool
  end.

Lemma count_cons (p : Q -> bool) (x : Q) (l : list Q) :
  count p (x :: l) = ((if p x then 1 else 0) + count p l)%nat.
Proof. unfold count. cbn. destruct (p x); reflexivity. Qed.

Lemma count_ext (p q : Q -> bool) (l : list Q) :
  (forall y, In y l -> p y = q y) -> count p l = count q l.
Proof.
  induction l as [|x l IH]; intros H; [reflexivity|].
  rewrite !count_cons, (H x (or_introl eq_refl)), IH; [reflexivity|].
  intros y Hy. apply H. right. exact Hy.
Qed.

Lemma count_none (p : Q -> bool) (l : list Q) :
  (forall y, In y l -> p y = false) -> count p l = 0%nat.
Proof.
  induction l as [|x l IH]; intros H; [reflexivity|].
  rewrite count_cons, (H x (or_introl eq_refl)), IH; [reflexivity|].
  intros y Hy. apply H. right. exact Hy.
Qed.

Lemma count_some (p : Q -> bool) (l : list Q) (y : Q) :
  In y l -> p y = true -> (1 <= count p l)%nat.
Proof.
  induction l as [|x l IH]; intros Hy Hp; [contradiction|].
  rewrite count_cons. destruct Hy as [->|Hy].
  - rewrite Hp. lia.
  - specialize (IH Hy Hp). lia.
Qed.

Lemma count_perm (p : Q -> bool) (l l' : list Q) :
  Permutation l l' -> count p l = count p l'.
Proof.
  induction 1 as [|x l l' _ IH|x y l|l l' l'' _ IH1 _ IH2];
    rewrite ?count_cons; lia.
Qed.

Lemma above_eq (v w : Q) (l : list Q) :
  (v == w)%Q -> above v l = above w l.
Proof.
  intros H. apply count_ext. intros y _. f_equal.
  destruct (Qle_bool y w) eqn:E; q_bool.
Qed.

Lemma tied_eq (v w : Q) (l : list Q) :
  (v == w)%Q -> tied v l = tied w l.
Proof.
  intros H. apply count_ext. intros y _.
  destruct (Qeq_bool y w) eqn:E; q_bool.
Qed.

Lemma set_nth_length (k : nat) (r : Q) (out : list Q) :
  List.length (set_nth k r out) = List.length out.
Proof.
  revert k. induction out as [|x out IH]; intros [|k]; cbn; auto.
Qed.

Lemma nth_set_nth_same (k : nat) (r : Q) (out : list Q) :
  (k < List.length out)%nat -> nth k (set_nth k r out) 0%Q = r.
Proof.
  revert k. induction out as [|x out IH]; intros [|k] H; cbn in *;
    try lia; [reflexivity|]. apply IH. lia.
Qed.

Lemma nth_set_nth_other (k k' : nat) (r : Q) (out : list Q) :
  k <> k' -> nth k' (set_nth k r out) 0%Q = nth k' out 0%Q.
Proof.
  revert k k'. induction out as [|x out IH]; intros [|k] [|k'] H; cbn;
    try reflexivity; try contradiction. apply IH. lia.
Qed.

Lemma assign_length (pend : list nat) (r : Q) (out : list Q) :
  List.length (assign pend r out) = List.length out.
Proof.
  induction pend as [|k pend IH]; cbn; [reflexivity|].
  rewrite set_nth_length. exact IH.
Qed.

Lemma assign_inside (pend : list nat) (r : Q) (out : list Q) (k : nat) :
  In k pend -> (k < List.length out)%nat -> nth k (assign pend r out) 0%Q = r.
Proof.
  induction pend as [|k0 pend IH]; intros Hin Hk; [contradiction|].
  cbn [assign fold_right]. fold (assign pend r out).
  destruct (Nat.eq_dec k0 k) as [->|Hne].
  - apply nth_set_nth_same. rewrite assign_length. exact Hk.
  - rewrite nth_set_nth_other by exact Hne.
    destruct Hin as [->|Hin]; [contradiction|]. apply IH; assumption.
Qed.

Lemma assign_outside (pend : list nat) (r : Q) (out : list Q) (k : nat) :
  ~ In k pend -> nth k (assign pend r out) 0%Q = nth k out 0%Q.
Proof.
  induction pend as [|k0 pend IH]; intros Hin; [reflexivity|].
  cbn [assign fold_right]. fold (assign pend r out).
  rewrite nth_set_nth_other.
  - apply IH. intros H. apply Hin. right. exact H.
  - intros ->. apply Hin. left. reflexivity.
Qed.

(** The sort. *)

Lemma insert_perm (x : nat * Q) (l : list (nat * Q)) :
  Permutation (insert snd x l) (x :: l).
Proof.
  induction l as [|y l IH]; cbn; [reflexivity|].
  destruct (Qle_bool (snd x) (snd y)); [reflexivity|].
  rewrite IH. apply perm_swap.
Qed.

Lemma lexsort_perm (l : list (nat * Q)) : Permutation (lexsort snd l) l.
Proof.
  induction l as [|x l IH]; cbn; [reflexivity|].
  rewrite insert_perm, IH. reflexivity.
Qed.

Lemma insert_ascending (x : nat * Q) (l : list (nat * Q)) :
  ascending l -> ascending (insert snd x l).
Proof.
  induction l as [|y l IH]; cbn; [tauto|]. intros [Hy Hl].
  destruct (Qle_bool (snd x) (snd y)) eqn:E; cbn.
  - q_props. repeat split; try assumption.
    intros z [<-|Hz]; [exact E|]. specialize (Hy z Hz). lra.
  - q_props. split; [|apply IH; exact Hl].
    intros z Hz. apply (Permutation_in _ (insert_perm x l)) in Hz.
    destruct Hz as [<-|Hz]; [lra|apply Hy; exact Hz].
Qed.

Lemma lexsort_ascending (l : list (nat * Q)) : ascending (lexsort snd l).
Proof.
  induction l as [|x l IH]; cbn; [exact I|].
  apply insert_ascending, IH.
Qed.

Lemma descending_snoc (l : list (nat * Q)) (x : nat * Q) :
  descending l -> (forall y, In y l -> (snd x <= snd y)%Q) ->
  descending (l ++ [x]).
Proof.
  induction l as [|y l IH]; cbn; intros Hl Hx.
  - split; [contradiction|exact I].
  - destruct Hl as [Hy Hl]. split.
    + intros z Hz. apply in_app_or in Hz as [Hz|[<-|[]]].
      * apply Hy, Hz.
      * apply Hx. left. reflexivity.
    + apply IH; [exact Hl|]. intros z Hz. apply Hx. right. exact Hz.
Qed.

Lemma rev_descending (l : list (nat * Q)) : ascending l -> descending (rev l).
Proof.
  induction l as [|x l IH]; cbn; [tauto|]. intros [Hx Hl].
  apply descending_snoc; [apply IH, Hl|].
  intros y Hy. apply in_rev in Hy. apply Hx, Hy.
Qed.

Lemma sort_indexer_perm (values : list Q) :
  Permutation (sort_indexer values) (indexed values).
Proof.
  unfold sort_indexer. rewrite <- Permutation_rev. apply lexsort_perm.
Qed.

Lemma sort_indexer_descending (values : list Q) :
  descending (sort_indexer values).
Proof. apply rev_descending, lexsort_ascending. Qed.

Lemma indexed_fst (values : list Q) :
  map fst (indexed values) = seq 0 (List.length values).
Proof.
  unfold indexed. generalize 0%nat.
  induction values as [|v l IH]; intros n; cbn; [reflexivity|].
  rewrite IH. reflexivity.
Qed.

Lemma indexed_snd (values : list Q) : map snd (indexed values) = values.
Proof.
  unfold indexed. generalize 0%nat.
  induction values as [|v l IH]; intros n; cbn; [reflexivity|].
  rewrite IH. reflexivity.
Qed.

Lemma indexed_in (values : list Q) (i : nat) :
  (i < List.length values)%nat -> In (i, nth i values 0%Q) (indexed values).
Proof.
  unfold indexed. intros H.
  assert (G : forall n l j, (j < List.length l)%nat ->
            In ((n + j)%nat, nth j l 0%Q) (combine (seq n (List.length l)) l)).
  { intros n l. revert n. induction l as [|v l IH]; intros n [|j] Hj;
      cbn in *; try lia.
    - left. f_equal. lia.
    - right. replace (n + S j)%nat with (S n + j)%nat by lia.
      apply IH. lia. }
  apply (G 0%nat values i H).
Qed.

Lemma cons_counts (v0 w : Q) (l : list Q) :
  above w (v0 :: l)
  = ((if negb (Qle_bool v0 w) then 1 else 0) + above w l)%nat
  /\ tied w (v0 :: l) = ((if Qeq_bool v0 w then 1 else 0) + tied w l)%nat.
Proof. unfold above, tied. rewrite !count_cons. split; reflexivity. Qed.

Lemma none_above (u : Q) (s : list (nat * Q)) :
  (forall y, In y s -> (snd y <= u)%Q) -> above u (map snd s) = 0%nat.
Proof.
  intros H. apply count_none. intros y Hy.
  apply in_map_iff in Hy as (x & <- & Hx). specialize (H x Hx). q_bool.
Qed.

Lemma none_tied (u : Q) (s : list (nat * Q)) :
  (forall y, In y s -> (snd y < u)%Q) -> tied u (map snd s) = 0%nat.
Proof.
  intros H. apply count_none. intros y Hy.
  apply in_map_iff in Hy as (x & <- & Hx). specialize (H x Hx). q_bool.
Qed.

Lemma average_eq (a a' b b' : nat) :
  a = a' -> b = b' -> average a b = average a' b'.
Proof. intros -> ->. reflexivity. Qed.

Lemma nodup_app_apart (l1 l2 : list nat) (a : nat) :
  NoDup (l1 ++ l2) -> In a l1 -> ~ In a l2.
Proof.
  induction l1 as [|x l1 IH]; cbn; intros H Hin H2; [contradiction|].
  inv H. destruct Hin as [->|Hin].
  - match goal with Hx : ~ In _ _ |- _ => apply Hx end.
    apply in_or_app. right. exact H2.
  - apply IH; assumption.
Qed.

Lemma rank_sorted_step (i sum dups : nat) (pend : list nat)
    (k0 : nat) (v0 : Q) (x : nat * Q) (rest : list (nat * Q)) (out : list Q) :
  rank_sorted i sum dups pend ((k0, v0) :: x :: rest) out
  = if negb (Qeq_bool v0 (snd x))
    then rank_sorted (i + 1) 0 0 [] (x :: rest)
           (assign (k0 :: pend) (average (sum + (i + 1)) (dups + 1)) out)
    else rank_sorted (i + 1) (sum + (i + 1)) (dups + 1) (k0 :: pend)
           (x :: rest) out.
Proof. destruct x. reflexivity. Qed.

Lemma list_sum_seq_next (a n : nat) :
  list_sum (seq a (S n)) = (a + list_sum (seq (a + 1) n))%nat.
Proof. cbn. rewrite Nat.add_1_r. reflexivity. Qed.

Lemma descending_head (x : nat * Q) (s : list (nat * Q)) :
  descending (x :: s) -> forall y, In y (x :: s) -> (snd y <= snd x)%Q.
Proof. intros [H _] y [<-|Hy]; [lra|apply H, Hy]. Qed.

Lemma rank_sorted_spec (s : list (nat * Q)) :
  forall (i sum dups : nat) (pend : list nat) (out : list Q),
    descending s ->
    NoDup (pend ++ map fst s) ->
    (forall k, In k (pend ++ map fst s) -> (k < List.length out)%nat) ->
    List.length (rank_sorted i sum dups pend s out) = List.length out
    /\ (forall k, ~ In k (pend ++ map fst s) ->
          nth k (rank_sorted i sum dups pend s out) 0%Q = nth k out 0%Q)
    /\ (forall k, In k pend ->
          match s with
          | [] => nth k (rank_sorted i sum dups pend s out) 0%Q = nth k out 0%Q
          | x :: _ =>
              nth k (rank_sorted i sum dups pend s out) 0%Q
              = average (sum + list_sum (seq (i + 1) (tied (snd x) (map snd s))))
                        (dups + tied (snd x) (map snd s))
          end)
    /\ (forall k v, In (k, v) s ->
          nth k (rank_sorted i sum dups pend s out) 0%Q
          = if (above v (map snd s) =? 0)%nat
            then average (sum + list_sum (seq (i + 1) (tied v (map snd s))))
                         (dups + tied v (map snd s))
            else average (list_sum (seq (i + above v (map snd s) + 1)
                                        (tied v (map snd s))))
                         (tied v (map snd s))).
Proof.
  induction s as [|[k0 v0] rest IH]; intros i sum dups pend out Hd Hnd Hb.
  - cbn [rank_sorted]. repeat split; auto. intros k v [].
  - assert (Hvv : Qeq_bool v0 v0 = true) by q_bool.
    assert (Hle : Qle_bool v0 v0 = true) by q_bool.
    destruct Hd as [Hhead Hd]. cbn [snd] in Hhead.
    assert (Hk0 : (k0 < List.length out)%nat).
    { apply Hb. apply in_or_app. right. left. reflexivity. }
    assert (Hpend : forall k, In k pend -> (k < List.length out)%nat).
    { intros k Hk. apply Hb. apply in_or_app. left. exact Hk. }
    assert (Hnd' : NoDup ((k0 :: pend) ++ map fst rest)).
    { apply (Permutation_NoDup (l := pend ++ map fst ((k0, v0) :: rest)));
        [|exact Hnd]. cbn. symmetry. apply Permutation_middle. }
    assert (Hb' : forall k, In k ((k0 :: pend) ++ map fst rest) ->
                            (k < List.length out)%nat).
    { intros k Hk. apply Hb.
      apply (Permutation_in (l := (k0 :: pend) ++ map fst rest));
        [|exact Hk]. cbn. apply Permutation_middle. }
    destruct rest as [|[k1 v1] rest'].
    + cbn [rank_sorted map snd fst].
      destruct (cons_counts v0 v0 []) as [Ha Ht]. rewrite Hle in Ha.
      rewrite Hvv in Ht. cbn [negb] in Ha.
      change (above v0 []) with 0%nat in Ha. change (tied v0 []) with 0%nat in Ht.
      split; [apply assign_length|].
      split; [|split].
      * intros k Hk. apply assign_outside. intros Hin. apply Hk.
        cbn. destruct Hin as [<-|Hin]; apply in_or_app; [right|left]; cbn; auto.
      * intros k Hk. rewrite assign_inside by (cbn; auto).
        rewrite Ht. apply average_eq; cbn; lia.
      * intros k v [H|[]]. inv H.
        rewrite assign_inside by (cbn; auto).
        rewrite Ha, Ht. cbn [Nat.eqb]. apply average_eq; cbn; lia.
    + set (rest := (k1, v1) :: rest') in *.
      pose proof (descending_head _ _ Hd) as Hv1. fold rest in Hv1.
      cbn [snd] in Hv1.
      assert (Hin1 : In (k1, v1) rest) by (left; reflexivity).
      assert (Ha0 : above v0 (map snd ((k0, v0) :: rest)) = 0%nat).
      { cbn [map snd]. rewrite (proj1 (cons_counts v0 v0 _)), Hle.
        cbn [negb]. apply (none_above v0 rest). exact Hhead. }
      assert (Hstep : rank_sorted i sum dups pend ((k0, v0) :: rest) out
                = if negb (Qeq_bool v0 v1)
                  then rank_sorted (i + 1) 0 0 [] rest
                         (assign (k0 :: pend)
                            (average (sum + (i + 1)) (dups + 1)) out)
                  else rank_sorted (i + 1) (sum + (i + 1)) (dups + 1)
                         (k0 :: pend) rest out)
        by (apply (rank_sorted_step i sum dups pend k0 v0 (k1, v1) rest' out)).
      rewrite Hstep. clear Hstep. cbn [snd].
      destruct (Qeq_bool v0 v1) eqn:E; cbn [negb].
      * destruct (IH (i + 1)%nat (sum + (i + 1))%nat (dups + 1)%nat
                    (k0 :: pend) out Hd Hnd' Hb') as (L & U & P & V).
        cbn [snd] in P.
        assert (Ht0 : tied v0 (map snd ((k0, v0) :: rest))
                      = S (tied v1 (map snd rest))).
        { cbn [map snd]. rewrite (proj2 (cons_counts v0 v0 _)), Hvv.
          rewrite (tied_eq v0 v1) by (q_props; lra). reflexivity. }
        assert (Hblock : forall k, In k (k0 :: pend) ->
                  nth k (rank_sorted (i + 1) (sum + (i + 1)) (dups + 1)
                           (k0 :: pend) rest out) 0%Q
                  = average (sum + list_sum (seq (i + 1)
                                (tied v0 (map snd ((k0, v0) :: rest)))))
                      (dups + tied v0 (map snd ((k0, v0) :: rest)))).
        { intros k Hk. rewrite (P k Hk), Ht0, list_sum_seq_next.
          apply average_eq; lia. }
        split; [exact L|]. split; [|split].
        -- intros k Hk. apply U. intros Hin. apply Hk.
           apply (Permutation_in (l := (k0 :: pend) ++ map fst rest));
             [|exact Hin]. cbn. apply Permutation_middle.
        -- intros k Hk. cbn [snd]. apply Hblock. right. exact Hk.
        -- intros k v [H|Hin].
           ++ inv H. rewrite Ha0. cbn [Nat.eqb]. apply Hblock. left. reflexivity.
           ++ rewrite (V k v Hin).
              pose proof (Hhead _ Hin) as Hv. cbn [snd] in Hv.
              cbn [map snd]. destruct (cons_counts v0 v (map snd rest))
                as [-> ->].
              destruct (Qeq_bool v0 v) eqn:Ev.
              ** assert (Hab : above v (map snd rest) = 0%nat).
                 { apply none_above. intros y Hy. specialize (Hhead y Hy).
                   q_props. lra. }
                 assert (Hnle : negb (Qle_bool v0 v) = false) by q_bool.
                 rewrite Hab, Hnle. cbn [Nat.eqb Nat.add].
                 rewrite list_sum_seq_next. apply average_eq; lia.
              ** assert (Hnle : negb (Qle_bool v0 v) = true) by q_bool.
                 assert (Hab : (1 <= above v (map snd rest))%nat).
                 { apply (count_some _ _ v1).
                   - apply (in_map snd) in Hin1. exact Hin1.
                   - q_bool. }
                 rewrite Hnle.
                 destruct (above v (map snd rest)) as [|n] eqn:En; [lia|].
                 cbn [Nat.eqb Nat.add].
                 apply average_eq; [|reflexivity].
                 do 2 f_equal. lia.
      * assert (Hlt : forall y, In y rest -> (snd y < v0)%Q).
        { intros y Hy. specialize (Hv1 y Hy). specialize (Hhead _ Hin1).
          cbn [snd] in Hhead. q_props. lra. }
        assert (Ht0 : tied v0 (map snd ((k0, v0) :: rest)) = 1%nat).
        { cbn [map snd]. rewrite (proj2 (cons_counts v0 v0 _)), Hvv.
          rewrite (none_tied v0 rest Hlt). reflexivity. }
        set (out1 := assign (k0 :: pend)
                       (average (sum + (i + 1)) (dups + 1)) out).
        assert (Hnd1 : NoDup ([] ++ map fst rest)).
        { apply NoDup_app_remove_l in Hnd. cbn in Hnd. inv Hnd. assumption. }
        assert (Hfresh : forall k, In k (k0 :: pend) -> ~ In k (map fst rest)).
        { intros k Hk Hin.
          exact (nodup_app_apart _ _ k Hnd' Hk Hin). }
        assert (Hb1 : forall k, In k ([] ++ map fst rest) ->
                                (k < List.length out1)%nat).
        { intros k Hk. unfold out1. rewrite assign_length. apply Hb'.
          apply in_or_app. right. exact Hk. }
        destruct (IH (i + 1)%nat 0%nat 0%nat [] out1 Hd Hnd1 Hb1)
          as (L & U & _ & V).
        assert (Hblock : forall k, In k (k0 :: pend) ->
                  nth k (rank_sorted (i + 1) 0 0 [] rest out1) 0%Q
                  = average (sum + list_sum (seq (i + 1)
                                (tied v0 (map snd ((k0, v0) :: rest)))))
                      (dups + tied v0 (map snd ((k0, v0) :: rest)))).
        { intros k Hk. rewrite U by (apply Hfresh, Hk).
          unfold out1. rewrite assign_inside by (auto; apply Hb', in_or_app; auto).
          rewrite Ht0. apply average_eq; cbn; lia. }
        split; [rewrite L; apply assign_length|]. split; [|split].
        -- intros k Hk. rewrite U.
           ++ apply assign_outside. intros Hin. apply Hk.
              apply (Permutation_in (l := (k0 :: pend) ++ map fst rest));
                [cbn; apply Permutation_middle|].
              apply in_or_app. left. exact Hin.
           ++ intros Hin. apply Hk. apply in_or_app. right. right. exact Hin.
        -- intros k Hk. cbn [snd]. apply Hblock. right. exact Hk.
        -- intros k v [H|Hin].
           ++ inv H. rewrite Ha0. cbn [Nat.eqb]. apply Hblock. left. reflexivity.
           ++ rewrite (V k v Hin).
              pose proof (Hlt _ Hin) as Hv. cbn [snd] in Hv.
              cbn [map snd]. destruct (cons_counts v0 v (map snd rest))
                as [-> ->].
              assert (Hnle : negb (Qle_bool v0 v) = true) by q_bool.
              assert (Hne : Qeq_bool v0 v = false) by q_bool.
              rewrite Hnle, Hne. cbn [Nat.add].
              destruct (above v (map snd rest)) as [|n] eqn:En;
                cbn [Nat.eqb]; apply average_eq; try reflexivity;
                try lia; do 2 f_equal; lia.
Qed.

Lemma sort_indexer_values (values : list Q) :
  Permutation (map snd (sort_indexer values)) values.
Proof.
  rewrite (Permutation_map snd (sort_indexer_perm values)), indexed_snd.
  reflexivity.
Qed.

Lemma above_perm (v : Q) (l l' : list Q) :
  Permutation l l' -> above v l = above v l'.
Proof. apply count_perm. Qed.

Lemma tied_perm (v : Q) (l l' : list Q) :
  Permutation l l' -> tied v l = tied v l'.
Proof. apply count_perm. Qed.

(** The rank of a value is the mean of the positions of its block. *)
Lemma rank_closed_form (values : list Q) (i : nat) :
  (i < List.length values)%nat ->
  nth i (rank values) 0%Q = tie_average values (nth i values 0%Q).
Proof.
  intros Hi. unfold rank.
  pose proof (Permutation_map fst (sort_indexer_perm values)) as Hf.
  rewrite indexed_fst in Hf.
  destruct (rank_sorted_spec (sort_indexer values) 0 0 0 []
              (repeat 0%Q (List.length values)))
    as (_ & _ & _ & V).
  - apply sort_indexer_descending.
  - cbn [app]. apply (Permutation_NoDup (Permutation_sym Hf)), seq_NoDup.
  - cbn [app]. intros k Hk. apply (Permutation_in _ Hf) in Hk.
    apply in_seq in Hk. rewrite repeat_length. lia.
  - rewrite (V i (nth i values 0%Q)).
    + rewrite (above_perm _ _ _ (sort_indexer_values values)).
      rewrite (tied_perm _ _ _ (sort_indexer_values values)).
      unfold tie_average.
      destruct (above (nth i values 0%Q) values) as [|n]; reflexivity.
    + apply (Permutation_in _ (Permutation_sym (sort_indexer_perm values))).
      apply indexed_in, Hi.
Qed.

(** In a descending list the values equal to [v] stand together, after the
    values above [v]. *)
Lemma block_positions (s : list (nat * Q)) (v : Q) :
  descending s ->
  forall p, (p < List.length s)%nat ->
    Qeq_bool (snd (nth p s (0%nat, 0%Q))) v = true
    <-> (above v (map snd s) <= p < above v (map snd s) + tied v (map snd s))%nat.
Proof.
  induction s as [|[k x] s IH]; intros Hd p Hp; [cbn in Hp; lia|].
  destruct Hd as [Hhead Hd]. cbn [snd] in Hhead. cbn [map snd].
  destruct (cons_counts x v (map snd s)) as [-> ->].
  destruct (Qle_bool x v) eqn:Ele; cbn [negb].
  - assert (Ha : above v (map snd s) = 0%nat).
    { apply none_above. intros y Hy. specialize (Hhead y Hy). q_props. lra. }
    destruct (Qeq_bool x v) eqn:Eeq.
    + destruct p as [|p]; cbn [nth snd].
      * rewrite Eeq. split; [lia|reflexivity].
      * cbn in Hp. rewrite (IH Hd p) by lia. lia.
    + assert (Ht : tied v (map snd s) = 0%nat).
      { apply none_tied. intros y Hy. specialize (Hhead y Hy). q_props. lra. }
      destruct p as [|p]; cbn [nth snd].
      * rewrite Eeq. split; [discriminate|lia].
      * cbn in Hp. rewrite (IH Hd p) by lia. lia.
  - assert (Eeq : Qeq_bool x v = false) by q_bool. rewrite Eeq.
    destruct p as [|p]; cbn [nth snd].
    + rewrite Eeq. split; [discriminate|lia].
    + cbn in Hp. rewrite (IH Hd p) by lia. lia.
Qed.

Lemma tie_average_perm (l l' : list Q) (v : Q) :
  Permutation l l' -> tie_average l v = tie_average l' v.
Proof.
  intros H. unfold tie_average.
  rewrite (above_perm v _ _ H), (tied_perm v _ _ H). reflexivity.
Qed.

Lemma column_nth (metric : community -> Q) (cs : list community)
    (i : nat) (c : community) :
  nth_error cs i = Some c ->
  (i < List.length (map metric cs))%nat
  /\ nth i (map metric cs) 0%Q = metric c.
Proof.
  intros H. split.
  - rewrite length_map. apply nth_error_Some. congruence.
  - apply (map_nth_error metric) in H. apply (nth_error_nth _ _ _ H).
Qed.

Lemma sort_indexer_length (values : list Q) :
  List.length (sort_indexer values) = List.length values.
Proof.
  rewrite (Permutation_length (sort_indexer_perm values)).
  rewrite <- (length_map fst), indexed_fst. apply length_seq.
Qed.

(** C7. For each of the three metrics, the rank column gives a record the
    mean of the positions that the block of the records with the same
    metric value takes in descending order: the positions after the
    [above] records with a larger value, as many as the [tied] records of
    the block. Rank 1 goes to the largest value and equal values share
    one rank. *)
Theorem ranks_average_tied_positions
    (cs : list community) (df : dataframe) (i : nat) (c : community) :
  add_rankings cs = Ok df ->
  nth_error cs i = Some c ->
  forall metric ranks,
    In (metric, ranks)
       [ (total_q, size_rank df);
         (engagement_rate, engagement_rank df);
         (active_ratio, activity_rank df) ] ->
    nth i ranks 0%Q = tie_average (map metric cs) (metric c)
    /\ descending (sort_indexer (map metric cs))
    /\ forall p, (p < List.length cs)%nat ->
         Qeq_bool (snd (nth p (sort_indexer (map metric cs)) (0%nat, 0%Q)))
                  (metric c) = true
         <-> (above (metric c) (map metric cs) <= p
              < above (metric c) (map metric cs)
                + tied (metric c) (map metric cs))%nat.
Proof.
  intros Hdf Hc metric ranks Hin.
  assert (Hrank : ranks = rank (map metric cs)).
  { destruct cs as [|c0 cs0]; [discriminate|]. inv Hdf.
    cbn [size_rank engagement_rank activity_rank] in Hin.
    destruct Hin as [H|[H|[H|[]]]]; inv H; reflexivity. }
  destruct (column_nth metric cs i c Hc) as [Hi Hv].
  subst ranks. split; [|split].
  - rewrite rank_closed_form by exact Hi. rewrite Hv. reflexivity.
  - apply sort_indexer_descending.
  - intros p Hp.
    rewrite <- (above_perm _ _ _ (sort_indexer_values (map metric cs))).
    rewrite <- (tied_perm _ _ _ (sort_indexer_values (map metric cs))).
    apply block_positions; [apply sort_indexer_descending|].
    rewrite sort_indexer_length, length_map. exact Hp.
Qed.

Lemma ranks_average_tied_positions_witness :
  nth 1 (size_rank three_ranked) 0%Q
  = tie_average (map total_q three_communities) (total_q beta)
  /\ descending (sort_indexer (map total_q three_communities))
  /\ forall p, (p < List.length three_communities)%nat ->
       Qeq_bool (snd (nth p (sort_indexer (map total_q three_communities))
                        (0%nat, 0%Q)))
                (total_q beta) = true
       <-> (above (total_q beta) (map total_q three_communities) <= p
            < above (total_q beta) (map total_q three_communities)
              + tied (total_q beta) (map total_q three_communities))%nat.
Proof.
  apply (ranks_average_tied_positions three_communities three_ranked 1 beta);
    [reflexivity | reflexivity | left; reflexivity].
Defined.

(** Two records tied at the positions 2 and 3 both get the rank 2.5. *)
Example tied_at_two_and_three :
  add_rankings three_communities = Ok three_ranked
  /\ tie_average (map total_q three_communities) (total_q beta) = (5 # 2)%Q.
Proof. split; reflexivity. Qed.

(** C8. Ranking a permutation of the records gives every record the rank
    it had: for each of the three metrics, a record found at place [i] of
    one order and at place [j] of the other has the same rank in both
    frames. *)
Theorem ranks_ignore_input_order
    (cs cs' : list community) (df df' : dataframe) (i j : nat)
    (c : community) :
  Permutation cs cs' ->
  add_rankings cs = Ok df ->
  add_rankings cs' = Ok df' ->
  nth_error cs i = Some c ->
  nth_error cs' j = Some c ->
  nth i (size_rank df) 0%Q = nth j (size_rank df') 0%Q
  /\ nth i (engagement_rank df) 0%Q = nth j (engagement_rank df') 0%Q
  /\ nth i (activity_rank df) 0%Q = nth j (activity_rank df') 0%Q.
Proof.
  intros Hp Hdf Hdf' Hc Hc'.
  assert (Hcol : forall metric,
            nth i (rank (map metric cs)) 0%Q
            = nth j (rank (map metric cs')) 0%Q).
  { intros metric.
    destruct (column_nth metric cs i c Hc) as [Hi Hv].
    destruct (column_nth metric cs' j c Hc') as [Hj Hv'].
    rewrite !rank_closed_form by assumption. rewrite Hv, Hv'.
    apply tie_average_perm, Permutation_map, Hp. }
  destruct cs as [|c0 cs0]; [discriminate|].
  destruct cs' as [|c0' cs0']; [discriminate|].
  inv Hdf. inv Hdf'. cbn [size_rank engagement_rank activity_rank].
  repeat split; apply Hcol.
Qed.

Lemma ranks_ignore_input_order_witness :
  nth 0 (size_rank three_ranked) 0%Q = nth 2 (size_rank three_reversed) 0%Q
  /\ nth 0 (engagement_rank three_ranked) 0%Q
     = nth 2 (engagement_rank three_reversed) 0%Q
  /\ nth 0 (activity_rank three_ranked) 0%Q
     = nth 2 (activity_rank three_reversed) 0%Q.
Proof.
  apply (ranks_ignore_input_order three_communities [gamma; beta; alpha]
           three_ranked three_reversed 0 2 alpha);
    try reflexivity.
  apply (Permutation_rev three_communities).
Defined.

(** ** More on the record parser *)

Lemma read_line_unrecognized (d : data) (line : string) :
  recognized line = false -> read_line d line = Ok d.
Proof.
  unfold recognized, labels. cbn [existsb]. intros H.
  repeat (apply orb_false_iff in H as [? H]).
  unfold read_line.
  repeat match goal with
  | E : PyStr.startswith line ?l = false |- _ => rewrite E; clear E
  end.
  reflexivity.
Qed.

(** X1. Only the lines that start with one of the five labels count: a
    block loads as the block without its other lines does. *)
Theorem unrecognized_lines_are_ignored (lines : list string) :
  load_lines lines = load_lines (filter recognized lines).
Proof.
  unfold load_lines. f_equal. generalize empty_data.
  induction lines as [|line rest IH]; intros d; [reflexivity|].
  cbn [filter read_lines]. destruct (recognized line) eqn:E.
  - cbn [read_lines]. destruct (read_line d line); cbn [bind];
      [apply IH|reflexivity].
  - rewrite (read_line_unrecognized d line E). cbn [bind]. apply IH.
Qed.

Ltac label_tests :=
  repeat match goal with
  | |- context [PyStr.startswith ?l ?lab] =>
      let b := eval cbv in (PyStr.startswith l lab) in
      change (PyStr.startswith l lab) with b
  end.

Lemma has_label_cons (label l : string) (rest : list string) :
  has_label label (l :: rest)
  = PyStr.startswith l label || has_label label rest.
Proof. reflexivity. Qed.

(** What a block made of lines of [i] leaves in the dict: a key that has a
    line holds the value of [i], the other keys are as before. *)
Lemma read_lines_of_record (i : Dcil.info) (lines : list string) :
  plain_value (Dcil.community_name i) = true ->
  plain_value (Dcil.link i) = true ->
  short (Dcil.active_members i) = true ->
  short (Dcil.offline_members i) = true ->
  short (Dcil.total_members i) = true ->
  Forall (line_for i) lines ->
  forall d,
    read_lines d lines
    = Ok (mkData
            (if has_label "Community Name:" lines
             then Some (Dcil.community_name i) else d_community_name d)
            (if has_label "Community Link:" lines
             then Some (Dcil.link i) else d_link d)
            (if has_label "Total Active Members:" lines
             then Some (Dcil.active_members i) else d_active_members d)
            (if has_label "Total Offline Members:" lines
             then Some (Dcil.offline_members i) else d_offline_members d)
            (if has_label "Total Members:" lines
             then Some (Dcil.total_members i) else d_total_members d)).
Proof.
  destruct i as [nm lk a o t].
  cbn [Dcil.community_name Dcil.link Dcil.active_members
       Dcil.offline_members Dcil.total_members].
  intros Hn Hl Hsa Hso Hst Hall.
  apply plain_value_spec in Hn as (Hn1 & _ & _ & Hn4).
  apply plain_value_spec in Hl as (Hl1 & _ & _ & Hl4).
  induction Hall as [|l rest Hline _ IH]; intros d.
  - destruct d. reflexivity.
  - destruct Hline as (f & tail & Hf & Ht & ->).
    cbn [read_lines]. rewrite !has_label_cons.
    unfold field_lines in Hf.
    cbn [Dcil.community_name Dcil.link Dcil.active_members
         Dcil.offline_members Dcil.total_members In] in Hf.
    destruct Hf as [<-|[<-|[<-|[<-|[<-|[]]]]]].
    + rewrite read_name_line by assumption. cbn [bind]. rewrite IH.
      label_tests. cbn [orb d_community_name d_link d_active_members
        d_offline_members d_total_members].
      destruct (has_label "Community Name:" rest); reflexivity.
    + rewrite read_link_line by assumption. cbn [bind]. rewrite IH.
      label_tests. cbn [orb d_community_name d_link d_active_members
        d_offline_members d_total_members].
      destruct (has_label "Community Link:" rest); reflexivity.
    + rewrite read_active_line by assumption. cbn [bind]. rewrite IH.
      label_tests. cbn [orb d_community_name d_link d_active_members
        d_offline_members d_total_members].
      destruct (has_label "Total Active Members:" rest); reflexivity.
    + rewrite read_offline_line by assumption. cbn [bind]. rewrite IH.
      label_tests. cbn [orb d_community_name d_link d_active_members
        d_offline_members d_total_members].
      destruct (has_label "Total Offline Members:" rest); reflexivity.
    + rewrite read_total_line by assumption. cbn [bind]. rewrite IH.
      label_tests. cbn [orb d_community_name d_link d_active_members
        d_offline_members d_total_members].
      destruct (has_label "Total Members:" rest); reflexivity.
Qed.

(** X2. The persisted format is read whatever the order of its lines: a
    block made only of the five lines of a record, in any order, repeated
    or not, each with or without its line break, in which every label
    occurs, loads as the five fields of the record do: it gives the record
    that lines 43 and 44 build from them, or their error. *)
Theorem field_order_is_free (i : Dcil.info) (lines : list string) :
  plain_value (Dcil.community_name i) = true ->
  plain_value (Dcil.link i) = true ->
  short (Dcil.active_members i) = true ->
  short (Dcil.offline_members i) = true ->
  short (Dcil.total_members i) = true ->
  Forall (line_for i) lines ->
  forallb (fun label => has_label label lines) labels = true ->
  load_lines lines = add_metrics (fields_of i).
Proof.
  intros Hn Hl Hsa Hso Hst Hall Hlabels. unfold load_lines.
  rewrite (read_lines_of_record i lines Hn Hl Hsa Hso Hst Hall). cbn [bind].
  unfold labels in Hlabels. cbn [forallb] in Hlabels.
  repeat (apply andb_true_iff in Hlabels as [? Hlabels]).
  repeat match goal with
  | E : has_label _ lines = true |- _ => rewrite E; clear E
  end.
  reflexivity.
Qed.

Lemma field_order_is_free_witness :
  load_lines
    [ line_of "Total Members: 120";
      line_of "Community Link: discord.gg/chess";
      line_of "Total Offline Members: 75";
      line_of "Community Name: Chess Club";
      "Total Active Members: 45" ]
  = add_metrics
      (fields_of (Dcil.mkInfo "Chess Club" "discord.gg/chess" 45 75 120)).
Proof.
  apply (field_order_is_free
           (Dcil.mkInfo "Chess Club" "discord.gg/chess" 45 75 120));
    try reflexivity.
  repeat constructor.
  - exists "Total Members: 120", (String PyStr.LF ""). cbn. auto 10.
  - exists "Community Link: discord.gg/chess", (String PyStr.LF "").
    cbn. auto 10.
  - exists "Total Offline Members: 75", (String PyStr.LF ""). cbn. auto 10.
  - exists "Community Name: Chess Club", (String PyStr.LF ""). cbn. auto 10.
  - exists "Total Active Members: 45", "". cbn. auto 10.
Defined.

(** The five fields of the chess club give its record. *)
Example fields_of_the_chess_club :
  add_metrics
    (fields_of (Dcil.mkInfo "Chess Club" "discord.gg/chess" 45 75 120))
  = Ok chess_club.
Proof. reflexivity. Qed.

(** A quotient of two ints overflows only for a dividend of at least
    [2 ^ 1023] in size. *)
Lemma overflow_is_large (a b : Z) :
  true_divide a b = Raise OverflowError -> 2 ^ 1023 <= Z.abs a.
Proof.
  intros H. destruct (Z_lt_le_dec (Z.abs a) (2 ^ 1023)) as [Hlt|Hle];
    [|exact Hle].
  destruct (true_divide_raises _ _ _ H) as [[_ He]|[Hb _]]; [discriminate|].
  destruct (true_divide_in_range a b Hb Hlt) as [q Hq].
  rewrite Hq in H. discriminate.
Qed.

(** Lines 43 and 44 on a dict that has the three counts raise only the
    errors of their two divisions. *)
Lemma add_metrics_raises (nm lk : option string) (a o t : Z) (e : exn) :
  add_metrics (mkData nm lk (Some a) (Some o) (Some t)) = Raise e ->
  (e = ZeroDivisionError /\ o = -1)
  \/ (e = OverflowError /\ 2 ^ 1023 <= Z.abs a).
Proof.
  unfold add_metrics, line_43, line_44.
  cbn [lookup bind d_total_members d_active_members d_offline_members
       d_community_name d_link].
  assert (Hrate : forall q : result Q,
            (if 0 <? t then q0 <- true_divide a t ;; Ok (float_mul q0 100)
             else Ok 0%Q) = q ->
            (exists rate, q = Ok rate)
            \/ (q = Raise OverflowError /\ 2 ^ 1023 <= Z.abs a)).
  { intros q <-. destruct (0 <? t) eqn:Et; [|left; eexists; reflexivity].
    apply Z.ltb_lt in Et.
    destruct (true_divide a t) as [q0|e0] eqn:Eq; cbn [bind];
      [left; eexists; reflexivity|].
    destruct (true_divide_raises _ _ _ Eq) as [[H0 _]|[_ ->]]; [lia|].
    right. split; [reflexivity | exact (overflow_is_large _ _ Eq)]. }
  destruct (Hrate _ eq_refl) as [[rate ->] | [-> Hbig]]; cbn [bind].
  - destruct (true_divide a (o + 1)) as [ratio|e1] eqn:Eq; cbn [bind];
      [discriminate|].
    intros H; inv H.
    destruct (true_divide_raises _ _ _ Eq) as [[H0 ->]|[_ ->]].
    + left. split; [reflexivity | lia].
    + right. split; [reflexivity | exact (overflow_is_large _ _ Eq)].
  - intros H; inv H. right. auto.
Qed.

(** X3. Loading a block raises nothing but the [ValueError] of a count
    that is no integer literal, the [KeyError] of a count without a line,
    the [ZeroDivisionError] of an offline count of -1, or the
    [OverflowError] of an active count of at least [2 ^ 1023] in size. *)
Theorem load_lines_errors (lines : list string) (e : exn) :
  load_lines lines = Raise e ->
  (exists literal, e = ValueError literal)
  \/ (exists key label,
        e = KeyError key /\ In (key, label) required_fields
        /\ has_label label lines = false)
  \/ (e = ZeroDivisionError
      /\ exists d, read_lines empty_data lines = Ok d
                   /\ d_offline_members d = Some (-1))
  \/ (e = OverflowError
      /\ exists d a, read_lines empty_data lines = Ok d
                     /\ d_active_members d = Some a
                     /\ 2 ^ 1023 <= Z.abs a).
Proof.
  unfold load_lines.
  destruct (read_lines empty_data lines) as [d|e0] eqn:E; cbn [bind].
  - intros Hadd.
    destruct (is_some (d_active_members d) && is_some (d_offline_members d)
              && is_some (d_total_members d)) eqn:Hall.
    + right. right.
      destruct d as [nm lk [a|] [o|] [t|]]; try discriminate.
      destruct (add_metrics_raises _ _ _ _ _ _ Hadd) as [[-> ->]|[-> Hbig]].
      * left. split; [reflexivity|]. eexists. split; reflexivity.
      * right. split; [reflexivity|]. exists (mkData nm lk (Some a) (Some o) (Some t)), a.
        auto.
    + destruct (read_lines_counts _ _ _ E) as (Ha & Ho & Ht).
      cbn [empty_data d_active_members d_offline_members d_total_members
           is_some orb] in Ha, Ho, Ht.
      destruct (add_metrics_missing d Hall)
        as [[Hr Hn] | [[Hr Hn] | [[Hr Hn] | (Hr & Hn & a & t & Hover)]]];
        rewrite Hr in Hadd; inv Hadd.
      * right. left. exists "active_members", "Total Active Members:".
        rewrite Hn in Ha. cbn. auto.
      * right. left. exists "offline_members", "Total Offline Members:".
        rewrite Hn in Ho. cbn. auto 6.
      * right. left. exists "total_members", "Total Members:".
        rewrite Hn in Ht. cbn. auto 6.
      * right. right. right. split; [reflexivity|].
        destruct Hover as (Hda & _ & _ & Hq).
        exists d, a. split; [reflexivity|]. split; [exact Hda|].
        exact (overflow_is_large _ _ Hq).
  - intros H. inv H. left. exact (read_lines_raises _ _ _ E).
Qed.

Lemma load_lines_errors_witness :
  (exists literal, ZeroDivisionError = ValueError literal)
  \/ (exists key label,
        ZeroDivisionError = KeyError key /\ In (key, label) required_fields
        /\ has_label label
             [ line_of "Total Active Members: 3";
               line_of "Total Offline Members: -1";
               line_of "Total Members: 2" ] = false)
  \/ (ZeroDivisionError = ZeroDivisionError
      /\ exists d,
           read_lines empty_data
             [ line_of "Total Active Members: 3";
               line_of "Total Offline Members: -1";
               line_of "Total Members: 2" ] = Ok d
           /\ d_offline_members d = Some (-1))
  \/ (ZeroDivisionError = OverflowError
      /\ exists d a,
           read_lines empty_data
             [ line_of "Total Active Members: 3";
               line_of "Total Offline Members: -1";
               line_of "Total Members: 2" ] = Ok d
           /\ d_active_members d = Some a
           /\ 2 ^ 1023 <= Z.abs a).
Proof.
  apply (load_lines_errors
           [ line_of "Total Active Members: 3";
             line_of "Total Offline Members: -1";
             line_of "Total Members: 2" ] ZeroDivisionError).
  reflexivity.
Defined.

(** ** Loading a directory *)

(** X7. A directory loads exactly when every entry that ends in [.txt]
    loads, and then gives one record per such entry, in the order of the
    listing; the other entries are never opened. *)
Theorem directory_records
    (fs : filesystem) (directory : string) (entries : list string)
    (cs : list community) :
  load_directory fs directory entries = Ok cs
  <-> Forall2
        (fun filename c =>
           load_data_from_file fs (path_join directory filename) = Ok c)
        (filter (fun filename => PyStr.endswith filename ".txt") entries) cs.
Proof.
  revert cs. induction entries as [|filename rest IH]; intros cs;
    cbn [load_directory filter].
  - split; [intros H; inv H; constructor | intros H; inv H; reflexivity].
  - destruct (PyStr.endswith filename ".txt"); [|apply IH].
    destruct (load_data_from_file fs (path_join directory filename))
      as [c|e] eqn:E; cbn [bind].
    + destruct (load_directory fs directory rest) as [cs0|e0]; cbn [bind].
      * split.
        -- intros H; inv H. constructor; [exact E|]. apply IH. reflexivity.
        -- intros H; inv H.
           match goal with
           | H1 : load_data_from_file _ _ = Ok _ |- _ =>
               rewrite E in H1; inv H1
           end.
           match goal with
           | H2 : Forall2 _ _ _ |- _ => apply IH in H2; inv H2
           end. reflexivity.
      * split; [discriminate|]. intros H; inv H.
        match goal with
        | H2 : Forall2 _ _ _ |- _ => apply IH in H2; discriminate
        end.
    + split; [discriminate|]. intros H; inv H.
      match goal with
      | H1 : load_data_from_file _ _ = Ok _ |- _ =>
          rewrite E in H1; discriminate
      end.
Qed.

(** X8. One file that does not load stops the whole directory: when the
    [.txt] entries before it load, the error of the first one that does
    not is the error of the directory, whatever comes after. *)
Theorem directory_stops_at_first_error
    (fs : filesystem) (directory : string)
    (before after : list string) (bad : string) (e : exn) :
  Forall (fun filename =>
            PyStr.endswith filename ".txt" = true ->
            exists c,
              load_data_from_file fs (path_join directory filename) = Ok c)
         before ->
  PyStr.endswith bad ".txt" = true ->
  load_data_from_file fs (path_join directory bad) = Raise e ->
  load_directory fs directory (before ++ bad :: after)%list = Raise e.
Proof.
  intros Hbefore Hbad He.
  induction Hbefore as [|filename rest Hf _ IH]; cbn [app load_directory].
  - rewrite Hbad, He. reflexivity.
  - destruct (PyStr.endswith filename ".txt"); [|exact IH].
    destruct (Hf eq_refl) as [c ->]. cbn [bind]. rewrite IH. reflexivity.
Qed.

Lemma directory_stops_at_first_error_witness :
  load_directory two_file_fs "saved"
    (["chess.txt"] ++ "broken.txt" :: ["later.txt"])%list
  = Raise (KeyError "total_members").
Proof.
  apply (directory_stops_at_first_error two_file_fs "saved"
           ["chess.txt"] ["later.txt"] "broken.txt"
           (KeyError "total_members")); try reflexivity.
  constructor; [|constructor]. intros _. exists chess_club.
  vm_compute. reflexivity.
Defined.

(** ** The size of a rank *)

Lemma count_room (p q r : Q -> bool) (l : list Q) :
  (forall y, p y = true -> r y = true) ->
  (forall y, q y = true -> r y = true) ->
  (forall y, p y = true -> q y = false) ->
  (count p l + count q l <= count r l)%nat.
Proof.
  intros Hp Hq Hpq. induction l as [|x l IH]; [cbn; lia|].
  rewrite !count_cons. specialize (Hp x). specialize (Hq x).
  specialize (Hpq x).
  destruct (p x), (q x), (r x); try lia;
    try (specialize (Hp eq_refl); discriminate);
    try (specialize (Hq eq_refl); discriminate);
    try (specialize (Hpq eq_refl); discriminate).
Qed.

Lemma count_all (l : list Q) : count (fun _ => true) l = List.length l.
Proof.
  induction l as [|x l IH]; [reflexivity|]. rewrite count_cons, IH. reflexivity.
Qed.

Lemma block_fits (v : Q) (l : list Q) :
  (above v l + tied v l <= List.length l)%nat.
Proof.
  rewrite <- count_all. apply count_room; auto.
  intros y Hy. apply negb_true_iff in Hy. q_bool.
Qed.

Lemma tied_self (l : list Q) (i : nat) :
  (i < List.length l)%nat -> (1 <= tied (nth i l 0%Q) l)%nat.
Proof.
  intros Hi. apply (count_some _ _ (nth i l 0%Q)); [apply nth_In, Hi|q_bool].
Qed.

Lemma blocks_stack (v w : Q) (l : list Q) :
  (w < v)%Q -> (above v l + tied v l <= above w l)%nat.
Proof.
  intros H. apply count_room.
  - intros y Hy. apply negb_true_iff in Hy. q_bool.
  - intros y Hy. q_bool.
  - intros y Hy. apply negb_true_iff in Hy. q_bool.
Qed.

Lemma twice_sum_seq (s t : nat) :
  (2 * list_sum (seq s t) + t = t * (2 * s + t))%nat.
Proof.
  revert s. induction t as [|t IH]; intros s; [reflexivity|].
  change (list_sum (seq s (S t))) with (s + list_sum (seq (S s) t))%nat. specialize (IH (S s)). nia.
Qed.

Lemma pos_of_nat (t : nat) : (1 <= t)%nat -> Z.pos (Pos.of_nat t) = Z.of_nat t.
Proof.
  intros Ht. rewrite <- positive_nat_Z, Nat2Pos.id by lia. reflexivity.
Qed.

(** Twice the numerator of the mean of a block, by its place and size. *)
Lemma tie_average_numerator (l : list Q) (v : Q) :
  2 * Z.of_nat (list_sum (seq (above v l + 1) (tied v l)))
  = Z.of_nat (tied v l)
    * (2 * Z.of_nat (above v l) + Z.of_nat (tied v l) + 1).
Proof.
  pose proof (twice_sum_seq (above v l + 1) (tied v l)). nia.
Qed.

Lemma tie_average_bounds (l : list Q) (v : Q) :
  (1 <= tied v l)%nat ->
  (1 <= tie_average l v <= inject_Z (Z.of_nat (List.length l)))%Q.
Proof.
  intros Ht. pose proof (block_fits v l) as Hfit.
  pose proof (tie_average_numerator l v) as Hnum.
  unfold tie_average, average, Qle, inject_Z. cbn [Qnum Qden].
  rewrite (pos_of_nat _ Ht). split; nia.
Qed.

Lemma tie_average_order (l : list Q) (v w : Q) :
  (1 <= tied v l)%nat -> (1 <= tied w l)%nat -> (w < v)%Q ->
  (tie_average l v < tie_average l w)%Q.
Proof.
  intros Hv Hw Hlt. pose proof (blocks_stack v w l Hlt) as Hstack.
  pose proof (tie_average_numerator l v) as Hnv.
  pose proof (tie_average_numerator l w) as Hnw.
  unfold tie_average, average, Qlt. cbn [Qnum Qden].
  rewrite (pos_of_nat _ Hv), (pos_of_nat _ Hw).
  set (tv := Z.of_nat (tied v l)) in *. set (tw := Z.of_nat (tied w l)) in *.
  set (av := Z.of_nat (above v l)) in *. set (aw := Z.of_nat (above w l)) in *.
  set (sv := Z.of_nat (list_sum (seq (above v l + 1) (tied v l)))) in *.
  set (sw := Z.of_nat (list_sum (seq (above w l + 1) (tied w l)))) in *.
  assert (H1 : 1 <= tv) by (unfold tv; lia).
  assert (H2 : 1 <= tw) by (unfold tw; lia).
  assert (H3 : av + tv <= aw) by (unfold av, tv, aw; lia).
  assert (H4 : tv * tw * (2 * av + tv + 1) < tv * tw * (2 * aw + tw + 1)).
  { apply Z.mul_lt_mono_pos_l; nia. }
  nia.
Qed.

Lemma rank_length (values : list Q) :
  List.length (rank values) = List.length values.
Proof.
  unfold rank.
  pose proof (Permutation_map fst (sort_indexer_perm values)) as Hf.
  rewrite indexed_fst in Hf.
  destruct (rank_sorted_spec (sort_indexer values) 0 0 0 []
              (repeat 0%Q (List.length values)))
    as (L & _).
  - apply sort_indexer_descending.
  - cbn [app]. apply (Permutation_NoDup (Permutation_sym Hf)), seq_NoDup.
  - cbn [app]. intros k Hk. apply (Permutation_in _ Hf) in Hk.
    apply in_seq in Hk. rewrite repeat_length. lia.
  - rewrite L. apply repeat_length.
Qed.

(** X9. Each of the three rank columns has one rank per record, and every
    rank lies between 1 and the number of records. *)
Theorem ranks_within_bounds
    (cs : list community) (df : dataframe) :
  add_rankings cs = Ok df ->
  rows df = cs
  /\ forall ranks,
       In ranks [size_rank df; engagement_rank df; activity_rank df] ->
       List.length ranks = List.length cs
       /\ forall i, (i < List.length cs)%nat ->
            (1 <= nth i ranks 0 <= inject_Z (Z.of_nat (List.length cs)))%Q.
Proof.
  intros Hdf. destruct cs as [|c0 cs0]; [discriminate|]. inv Hdf.
  split; [reflexivity|].
  cbn [size_rank engagement_rank activity_rank].
  assert (Hcol : forall metric : community -> Q,
            List.length (rank (map metric (c0 :: cs0)))
            = List.length (c0 :: cs0)
            /\ forall i, (i < List.length (c0 :: cs0))%nat ->
                 (1 <= nth i (rank (map metric (c0 :: cs0))) 0
                  <= inject_Z (Z.of_nat (List.length (c0 :: cs0))))%Q).
  { intros metric. split; [rewrite rank_length; apply length_map|].
    intros i Hi. rewrite <- (length_map metric) in Hi |- *.
    rewrite rank_closed_form by exact Hi.
    apply tie_average_bounds, tied_self, Hi. }
  intros ranks [<-|[<-|[<-|[]]]]; apply Hcol.
Qed.

Lemma ranks_within_bounds_witness :
  rows three_ranked = three_communities
  /\ forall ranks,
       In ranks [size_rank three_ranked; engagement_rank three_ranked;
                 activity_rank three_ranked] ->
       List.length ranks = List.length three_communities
       /\ forall i, (i < List.length three_communities)%nat ->
            (1 <= nth i ranks 0
             <= inject_Z (Z.of_nat (List.length three_communities)))%Q.
Proof.
  apply (ranks_within_bounds three_communities three_ranked). reflexivity.
Defined.

(** X10. A rank column follows its metric: of two records the one with the
    larger value has the smaller rank, and only it; two records with the
    same value have the same rank. *)
Theorem ranks_follow_metric
    (cs : list community) (df : dataframe) (i j : nat) (c c' : community) :
  add_rankings cs = Ok df ->
  nth_error cs i = Some c ->
  nth_error cs j = Some c' ->
  forall metric ranks,
    In (metric, ranks)
       [ (total_q, size_rank df);
         (engagement_rate, engagement_rank df);
         (active_ratio, activity_rank df) ] ->
    ((metric c' < metric c)%Q <-> (nth i ranks 0 < nth j ranks 0)%Q)
    /\ ((metric c == metric c')%Q -> nth i ranks 0%Q = nth j ranks 0%Q).
Proof.
  intros Hdf Hc Hc' metric ranks Hin.
  assert (Hrank : ranks = rank (map metric cs)).
  { destruct cs as [|c0 cs0]; [discriminate|]. inv Hdf.
    cbn [size_rank engagement_rank activity_rank] in Hin.
    destruct Hin as [H|[H|[H|[]]]]; inv H; reflexivity. }
  destruct (column_nth metric cs i c Hc) as [Hi Hv].
  destruct (column_nth metric cs j c' Hc') as [Hj Hv'].
  subst ranks. rewrite !rank_closed_form by assumption. rewrite Hv, Hv'.
  pose proof (tied_self _ _ Hi) as Ti. pose proof (tied_self _ _ Hj) as Tj.
  rewrite Hv in Ti. rewrite Hv' in Tj.
  assert (Heq : forall v w, (v == w)%Q ->
            tie_average (map metric cs) v = tie_average (map metric cs) w).
  { intros v w H. unfold tie_average.
    rewrite (above_eq v w _ H), (tied_eq v w _ H). reflexivity. }
  split; [split|].
  - apply tie_average_order; assumption.
  - intros Hlt.
    destruct (Qlt_le_dec (metric c') (metric c)) as [H|H]; [exact H|].
    exfalso. destruct (Qle_lt_or_eq _ _ H) as [H1|H1].
    + pose proof (tie_average_order _ _ _ Tj Ti H1). lra.
    + rewrite (Heq _ _ H1) in Hlt. lra.
  - apply Heq.
Qed.

Lemma ranks_follow_metric_witness :
  ((total_q beta < total_q alpha)%Q
   <-> (nth 0 (size_rank three_ranked) 0
        < nth 1 (size_rank three_ranked) 0)%Q)
  /\ ((total_q alpha == total_q beta)%Q ->
      nth 0 (size_rank three_ranked) 0%Q
      = nth 1 (size_rank three_ranked) 0%Q).
Proof.
  apply (ranks_follow_metric three_communities three_ranked 0 1 alpha beta);
    [reflexivity | reflexivity | reflexivity | left; reflexivity].
Defined.

(** ** The tables and findings of the competitive report *)

Lemma insert_permutation {A : Type} (key : A -> Q) (x : A) (l : list A) :
  Permutation (insert key x l) (x :: l).
Proof.
  induction l as [|y l IH]; cbn; [reflexivity|].
  destruct (Qle_bool (key x) (key y)); [reflexivity|].
  rewrite IH. apply perm_swap.
Qed.

Lemma lexsort_permutation {A : Type} (key : A -> Q) (l : list A) :
  Permutation (lexsort key l) l.
Proof.
  induction l as [|x l IH]; cbn; [reflexivity|].
  rewrite insert_permutation, IH. reflexivity.
Qed.

Lemma insert_sorted_up {A : Type} (key : A -> Q) (x : A) (l : list A) :
  sorted_up key l -> sorted_up key (insert key x l).
Proof.
  induction l as [|y l IH]; cbn; [tauto|]. intros [Hy Hl].
  destruct (Qle_bool (key x) (key y)) eqn:E; cbn.
  - q_props. repeat split; try assumption.
    intros z [<-|Hz]; [exact E|]. specialize (Hy z Hz). lra.
  - q_props. split; [|apply IH; exact Hl].
    intros z Hz. apply (Permutation_in _ (insert_permutation key x l)) in Hz.
    destruct Hz as [<-|Hz]; [lra|apply Hy; exact Hz].
Qed.

Lemma lexsort_sorted_up {A : Type} (key : A -> Q) (l : list A) :
  sorted_up key (lexsort key l).
Proof.
  induction l as [|x l IH]; cbn; [exact I|]. apply insert_sorted_up, IH.
Qed.

Lemma sorted_down_snoc {A : Type} (key : A -> Q) (l : list A) (x : A) :
  sorted_down key l -> (forall y, In y l -> (key x <= key y)%Q) ->
  sorted_down key (l ++ [x]).
Proof.
  induction l as [|y l IH]; cbn; intros Hl Hx.
  - split; [contradiction|exact I].
  - destruct Hl as [Hy Hl]. split.
    + intros z Hz. apply in_app_or in Hz as [Hz|[<-|[]]].
      * apply Hy, Hz.
      * apply Hx. left. reflexivity.
    + apply IH; [exact Hl|]. intros z Hz. apply Hx. right. exact Hz.
Qed.

Lemma rev_sorted_down {A : Type} (key : A -> Q) (l : list A) :
  sorted_up key l -> sorted_down key (rev l).
Proof.
  induction l as [|x l IH]; cbn; [tauto|]. intros [Hx Hl].
  apply sorted_down_snoc; [apply IH, Hl|].
  intros y Hy. apply in_rev in Hy. apply Hx, Hy.
Qed.

Lemma sort_values_permutation (key : community -> Q) (cs : list community) :
  Permutation (sort_values key cs) cs.
Proof.
  unfold sort_values. rewrite <- Permutation_rev, lexsort_permutation.
  symmetry. apply Permutation_rev.
Qed.

Lemma sort_values_sorted (key : community -> Q) (cs : list community) :
  sorted_down key (sort_values key cs).
Proof. apply rev_sorted_down, lexsort_sorted_up. Qed.

(** X11. Each of the three tables of the competitive report lists every
    record of the frame once, none left out, in descending order of its
    metric; the report counts as many communities as the frame has
    rows. *)
Theorem report_tables_are_full_rankings
    (df : dataframe) (r : analysis_report) :
  generate_analysis_report df = Ok r ->
  communities_analyzed r = List.length (rows df)
  /\ (exists s, Permutation s (rows df) /\ sorted_down total_q s
         /\ by_size r
            = map (fun c => (community_name c, total_members c,
                             engagement_rate c)) s)
  /\ (exists s, Permutation s (rows df) /\ sorted_down engagement_rate s
         /\ by_engagement r
            = map (fun c => (community_name c, engagement_rate c,
                             total_members c)) s)
  /\ (exists s, Permutation s (rows df) /\ sorted_down active_ratio s
         /\ by_activity r
            = map (fun c => (community_name c, active_members c,
                             total_members c)) s).
Proof.
  unfold generate_analysis_report.
  destruct (rows df) as [|c0 rest] eqn:Hrows; [discriminate|].
  destruct (has_name_column (c0 :: rest)); [|discriminate].
  intros H; inv H.
  cbn [communities_analyzed by_size by_engagement by_activity].
  split; [reflexivity|].
  repeat split; eexists;
    (split; [apply sort_values_permutation|]);
    (split; [apply sort_values_sorted|reflexivity]).
Qed.

Lemma report_tables_are_full_rankings_witness :
  exists r,
    generate_analysis_report three_ranked = Ok r
    /\ communities_analyzed r = List.length (rows three_ranked)
    /\ (exists s, Permutation s (rows three_ranked) /\ sorted_down total_q s
           /\ by_size r
              = map (fun c => (community_name c, total_members c,
                               engagement_rate c)) s)
    /\ (exists s, Permutation s (rows three_ranked)
           /\ sorted_down engagement_rate s
           /\ by_engagement r
              = map (fun c => (community_name c, engagement_rate c,
                               total_members c)) s)
    /\ (exists s, Permutation s (rows three_ranked)
           /\ sorted_down active_ratio s
           /\ by_activity r
              = map (fun c => (community_name c, active_members c,
                               total_members c)) s).
Proof.
  eexists. split; [reflexivity|].
  apply (report_tables_are_full_rankings three_ranked). reflexivity.
Defined.

Lemma first_max_spec (key : community -> Q) (rest : list community) :
  forall (best : community) (pre mid : list community),
    (forall b, In b pre -> (key b < key best)%Q) ->
    (forall m, In m mid -> (key m <= key best)%Q) ->
    first_largest key (pre ++ best :: mid ++ rest)%list
      (first_max key best rest).
Proof.
  induction rest as [|c rest IH]; intros best pre mid Hpre Hmid;
    cbn [first_max].
  - exists pre, mid. rewrite app_nil_r. auto.
  - destruct (Qle_bool (key c) (key best)) eqn:E.
    + replace (pre ++ best :: mid ++ c :: rest)%list
        with (pre ++ best :: (mid ++ [c]) ++ rest)%list
        by (rewrite <- app_assoc; reflexivity).
      apply IH; [exact Hpre|].
      intros m Hm. apply in_app_or in Hm as [Hm|[<-|[]]];
        [apply Hmid, Hm | q_props; lra].
    + replace (pre ++ best :: mid ++ c :: rest)%list
        with ((pre ++ best :: mid) ++ c :: [] ++ rest)%list
        by (rewrite <- app_assoc; reflexivity).
      apply IH; [|intros m []].
      intros b Hb. q_props. apply in_app_or in Hb as [Hb|[<-|Hb]].
      * specialize (Hpre b Hb). lra.
      * lra.
      * specialize (Hmid b Hb). lra.
Qed.

Lemma first_largest_is_largest (key : community -> Q)
    (cs : list community) (c : community) :
  first_largest key cs c ->
  In c cs /\ forall x, In x cs -> (key x <= key c)%Q.
Proof.
  intros (before & after & -> & Hb & Ha). split.
  - apply in_or_app. right. left. reflexivity.
  - intros x Hx. apply in_app_or in Hx as [Hx|[<-|Hx]].
    + specialize (Hb x Hx). lra.
    + lra.
    + apply Ha, Hx.
Qed.

Lemma sorted_down_head {A : Type} (key : A -> Q) (x : A) (l : list A) :
  sorted_down key (x :: l) -> forall y, In y (x :: l) -> (key y <= key x)%Q.
Proof. intros [H _] y [<-|Hy]; [lra|apply H, Hy]. Qed.

(** X12. The two findings of the competitive report name the first row
    among those with the largest engagement rate and the first row among
    those with the largest total, and the rate of the most engaged
    community is the rate at the head of the table by engagement. *)
Theorem findings_name_the_first_largest
    (df : dataframe) (r : analysis_report) :
  generate_analysis_report df = Ok r ->
  (exists c, first_largest engagement_rate (rows df) c
             /\ most_engaged r = (community_name c, engagement_rate c))
  /\ (exists c, first_largest total_q (rows df) c
                /\ largest r = (community_name c, total_members c))
  /\ (exists nm rate t,
        nth_error (by_engagement r) 0 = Some (nm, rate, t)
        /\ (rate == snd (most_engaged r))%Q).
Proof.
  unfold generate_analysis_report.
  destruct (rows df) as [|c0 rest] eqn:Hrows; [discriminate|].
  destruct (has_name_column (c0 :: rest)); [|discriminate].
  intros H; inv H. cbn [most_engaged largest by_engagement snd].
  pose proof (first_max_spec engagement_rate rest c0 [] []
                (fun b (H : In b []) => match H with end)
                (fun m (H : In m []) => match H with end)) as Hrate.
  pose proof (first_max_spec total_q rest c0 [] []
                (fun b (H : In b []) => match H with end)
                (fun m (H : In m []) => match H with end)) as Hsize.
  cbn [app] in Hrate, Hsize.
  split; [eexists; split; [exact Hrate|reflexivity]|].
  split; [eexists; split; [exact Hsize|reflexivity]|].
  destruct (first_largest_is_largest _ _ _ Hrate) as [Hin Hmax].
  pose proof (sort_values_permutation engagement_rate (c0 :: rest)) as Hperm.
  pose proof (sort_values_sorted engagement_rate (c0 :: rest)) as Hsorted.
  destruct (sort_values engagement_rate (c0 :: rest)) as [|h s] eqn:Hs.
  - apply Permutation_nil in Hperm. discriminate.
  - cbn [map nth_error]. do 3 eexists. split; [reflexivity|].
    pose proof (sorted_down_head _ _ _ Hsorted) as Hhead.
    assert (H1 : (engagement_rate (first_max engagement_rate c0 rest)
                  <= engagement_rate h)%Q).
    { apply Hhead. apply (Permutation_in _ (Permutation_sym Hperm)), Hin. }
    assert (H2 : (engagement_rate h
                  <= engagement_rate (first_max engagement_rate c0 rest))%Q).
    { apply Hmax. apply (Permutation_in _ Hperm). left. reflexivity. }
    lra.
Qed.

Lemma findings_name_the_first_largest_witness :
  exists r,
    generate_analysis_report three_ranked = Ok r
    /\ (exists c, first_largest engagement_rate (rows three_ranked) c
                  /\ most_engaged r = (community_name c, engagement_rate c))
    /\ (exists c, first_largest total_q (rows three_ranked) c
                  /\ largest r = (community_name c, total_members c))
    /\ (exists nm rate t,
          nth_error (by_engagement r) 0 = Some (nm, rate, t)
          /\ (rate == snd (most_engaged r))%Q).
Proof.
  eexists. split; [reflexivity|].
  apply (findings_name_the_first_largest three_ranked). reflexivity.
Defined.

(** ** File names in dcil.py *)

Lemma clean_char_step (a : ascii) :
  fold_left (fun (c : ascii) (old : ascii) =>
               if Ascii.eqb c old then "_"%char else c)
            (list_ascii_of_string Dcil.invalid_chars) a
  = clean_char a.
Proof. destruct a as [[] [] [] [] [] [] [] []]; reflexivity. Qed.

Lemma clean_char_valid (a : ascii) :
  has_char (clean_char a) Dcil.invalid_chars = false.
Proof. destruct a as [[] [] [] [] [] [] [] []]; reflexivity. Qed.

Lemma replace_all_chars (olds : list ascii) (s : string) :
  fold_left (fun f c => Dcil.replace_char c "_" f) olds s
  = map_chars (fun a => fold_left (fun (c : ascii) (old : ascii) =>
                                     if Ascii.eqb c old then "_"%char else c)
                                  olds a) s.
Proof.
  revert s. induction olds as [|old olds IH]; intros s; cbn [fold_left].
  - induction s as [|a s IHs]; cbn; [reflexivity|]. rewrite <- IHs.
    reflexivity.
  - rewrite IH. clear IH. induction s as [|a s IHs]; cbn; [reflexivity|].
    rewrite IHs. reflexivity.
Qed.

Lemma sanitize_by_char (f : string) :
  Dcil.sanitize_filename f = map_chars clean_char f.
Proof.
  unfold Dcil.sanitize_filename. rewrite replace_all_chars.
  induction f as [|a f IH]; cbn [map_chars]; [reflexivity|].
  rewrite clean_char_step, IH. reflexivity.
Qed.

(** X14. [sanitize_filename] keeps the length of the name, leaves none of
    the nine invalid characters in it, changes no other character, and
    changes nothing when applied again. *)
Theorem sanitize_filename_cleans (f : string) :
  String.length (Dcil.sanitize_filename f) = String.length f
  /\ (forall c, has_char c Dcil.invalid_chars = true ->
                has_char c (Dcil.sanitize_filename f) = false)
  /\ (forall n a, String.get n f = Some a ->
                  has_char a Dcil.invalid_chars = false ->
                  String.get n (Dcil.sanitize_filename f) = Some a)
  /\ Dcil.sanitize_filename (Dcil.sanitize_filename f)
     = Dcil.sanitize_filename f.
Proof.
  rewrite !sanitize_by_char. repeat split.
  - induction f as [|a f IH]; cbn; [reflexivity|]. rewrite IH. reflexivity.
  - intros c Hc. induction f as [|a f IH]; cbn [map_chars has_char];
      [reflexivity|]. rewrite IH, orb_false_r.
    destruct (Ascii.eqb_spec (clean_char a) c) as [<-|]; [|reflexivity].
    rewrite clean_char_valid in Hc. discriminate.
  - induction f as [|a f IH]; intros [|n] b Hget Hb;
      cbn [String.get map_chars] in *; try discriminate.
    + inv Hget. unfold clean_char. rewrite Hb. reflexivity.
    + apply IH; assumption.
  - induction f as [|a f IH]; cbn [map_chars]; [reflexivity|].
    rewrite IH. f_equal. unfold clean_char at 1.
    rewrite clean_char_valid. reflexivity.
Qed.

Lemma substring_all (p : string) : String.substring 0 (String.length p) p = p.
Proof.
  induction p as [|a p IH]; cbn; [reflexivity|]. rewrite IH. reflexivity.
Qed.

Lemma substring_skip (pre p : string) :
  String.substring (String.length pre) (String.length p) (pre ++ p) = p.
Proof.
  induction pre as [|a pre IH]; cbn [append String.length String.substring];
    [apply substring_all|exact IH].
Qed.

Lemma length_append (s t : string) :
  String.length (s ++ t) = (String.length s + String.length t)%nat.
Proof.
  induction s as [|a s IH]; cbn; [reflexivity|]. rewrite IH. reflexivity.
Qed.

Lemma endswith_append (pre p : string) : PyStr.endswith (pre ++ p) p = true.
Proof.
  unfold PyStr.endswith. rewrite length_append.
  replace (String.length pre + String.length p - String.length p)%nat
    with (String.length pre) by lia.
  rewrite substring_skip, String.eqb_refl, andb_true_r.
  apply Nat.leb_le. lia.
Qed.

Lemma substring_cut (n : nat) (s : string) :
  (n <= String.length s)%nat ->
  s = (String.substring 0 n s
       ++ String.substring n (String.length s - n) s)%string.
Proof.
  revert n. induction s as [|a s IH]; intros [|n] Hn; cbn in *; try lia.
  - reflexivity.
  - rewrite substring_all. reflexivity.
  - f_equal. apply IH. lia.
Qed.

Lemma endswith_split (s p : string) :
  PyStr.endswith s p = true -> exists pre, s = (pre ++ p)%string.
Proof.
  unfold PyStr.endswith. intros H. apply andb_true_iff in H as [Hle Heq].
  apply Nat.leb_le in Hle. apply String.eqb_eq in Heq.
  exists (String.substring 0 (String.length s - String.length p) s).
  pose proof (substring_cut (String.length s - String.length p) s) as Hcut.
  replace (String.length s - (String.length s - String.length p))%nat
    with (String.length p) in Hcut by lia.
  rewrite Heq in Hcut. apply Hcut. lia.
Qed.

Lemma lower_append (s t : string) :
  Dcil.lower (s ++ t) = (Dcil.lower s ++ Dcil.lower t)%string.
Proof.
  induction s as [|a s IH]; cbn; [reflexivity|]. rewrite IH. reflexivity.
Qed.

(** X15. The name that [ensure_txt_extension] gives always ends in [.txt]
    when case is set aside, is the name itself or the name with [.txt]
    added, and is left alone when the function is applied again. *)
Theorem ensure_txt_extension_ends_in_txt (f : string) :
  PyStr.endswith (Dcil.lower (Dcil.ensure_txt_extension f)) ".txt" = true
  /\ (Dcil.ensure_txt_extension f = f
      \/ Dcil.ensure_txt_extension f = (f ++ ".txt")%string)
  /\ Dcil.ensure_txt_extension (Dcil.ensure_txt_extension f)
     = Dcil.ensure_txt_extension f.
Proof.
  assert (H : PyStr.endswith
                (Dcil.lower (Dcil.ensure_txt_extension f)) ".txt" = true).
  { unfold Dcil.ensure_txt_extension.
    destruct (PyStr.endswith (Dcil.lower f) ".txt") eqn:E; cbn [negb];
      [exact E|].
    rewrite lower_append. apply (endswith_append (Dcil.lower f) ".txt"). }
  split; [exact H|]. split.
  - unfold Dcil.ensure_txt_extension.
    destruct (PyStr.endswith (Dcil.lower f) ".txt"); auto.
  - unfold Dcil.ensure_txt_extension at 1. rewrite H. reflexivity.
Qed.

(** X16. A file named by [ensure_txt_extension] is read by the directory
    loop of the analysis script exactly when the name was extended or
    already ended in lower case [.txt]: a name left alone for an ending
    such as [.TXT] is passed over. *)
Theorem saved_names_and_the_directory_filter (f : string) :
  PyStr.endswith (Dcil.ensure_txt_extension f) ".txt"
  = PyStr.endswith f ".txt"
    || negb (PyStr.endswith (Dcil.lower f) ".txt").
Proof.
  unfold Dcil.ensure_txt_extension.
  destruct (PyStr.endswith (Dcil.lower f) ".txt"); cbn [negb].
  - rewrite orb_false_r. reflexivity.
  - rewrite (endswith_append f ".txt"), orb_true_r. reflexivity.
Qed.

Example upper_case_report_is_passed_over :
  Dcil.ensure_txt_extension "club_Chess.TXT" = "club_Chess.TXT"
  /\ load_directory one_file_fs "saved" ["club_Chess.TXT"] = Ok [].
Proof. split; reflexivity. Qed.

(** ** The invite code and the fetch *)

Lemma take_while_all (p : ascii -> bool) (s : string) :
  all_chars p (Dcil.take_while p s) = true.
Proof.
  induction s as [|a s IH]; cbn; [reflexivity|].
  destruct (p a) eqn:E; cbn; [rewrite E, IH|]; reflexivity.
Qed.

Lemma take_while_rest (p : ascii -> bool) (s : string) :
  exists post,
    s = (Dcil.take_while p s ++ post)%string
    /\ (post = "" \/ exists c post', post = String c post' /\ p c = false).
Proof.
  induction s as [|a s IH]; cbn.
  - exists "". auto.
  - destruct (p a) eqn:E.
    + destruct IH as (post & Hs & Hpost). exists post. cbn.
      split; [f_equal; exact Hs|exact Hpost].
    + exists (String a s). split; [reflexivity|]. right. eauto.
Qed.

Lemma drop_literal (literal rest : string) :
  Dcil.drop (String.length literal) (literal ++ rest) = rest.
Proof. induction literal as [|a lit IH]; cbn; [reflexivity|exact IH]. Qed.

Lemma match_branch_shape (literal s code : string) :
  Dcil.match_branch literal s = Some code ->
  code <> ""
  /\ all_chars Dcil.is_code_char code = true
  /\ exists post,
       s = (literal ++ code ++ post)%string
       /\ (post = ""
           \/ exists c post', post = String c post'
                              /\ Dcil.is_code_char c = false).
Proof.
  unfold Dcil.match_branch.
  destruct (PyStr.startswith s literal) eqn:E; [|discriminate].
  destruct (prefix_split _ _ E) as [rest ->]. rewrite drop_literal.
  pose proof (take_while_all Dcil.is_code_char rest) as Hall.
  destruct (take_while_rest Dcil.is_code_char rest) as (post & Hrest & Hpost).
  destruct (Dcil.take_while Dcil.is_code_char rest) as [|a code0] eqn:Ec;
    [discriminate|].
  intros H; inv H. split; [discriminate|]. split; [exact Hall|].
  exists post. split; [reflexivity|exact Hpost].
Qed.

Lemma search_invite_unfold (s : string) :
  Dcil.search_invite s
  = match Dcil.match_here s with
    | Some code => Some code
    | None => match s with
              | EmptyString => None
              | String _ s' => Dcil.search_invite s'
              end
    end.
Proof. destruct s; reflexivity. Qed.

(** X17. The invite code that [scrape_discord_community] takes from a link
    is never empty, holds only word characters and hyphens, stands in the
    link right after [discord.gg/] or [discord.com/invite/], and runs as
    far as such characters go. *)
Theorem invite_code_shape (l code : string) :
  Dcil.search_invite l = Some code ->
  code <> ""
  /\ all_chars Dcil.is_code_char code = true
  /\ exists pre marker post,
       In marker ["discord.gg/"; "discord.com/invite/"]
       /\ l = (pre ++ marker ++ code ++ post)%string
       /\ (post = ""
           \/ exists c post', post = String c post'
                              /\ Dcil.is_code_char c = false).
Proof.
  induction l as [|a l IH]; rewrite search_invite_unfold;
    unfold Dcil.match_here.
  - cbn. discriminate.
  - destruct (Dcil.match_branch "discord.gg/" (String a l)) as [c1|] eqn:E1.
    + intros H; inv H.
      destruct (match_branch_shape _ _ _ E1) as (Hne & Hall & post & Hs & Hp).
      split; [exact Hne|]. split; [exact Hall|].
      exists "", "discord.gg/", post. cbn [In]. auto.
    + destruct (Dcil.match_branch "discord.com/invite/" (String a l))
        as [c2|] eqn:E2.
      * intros H; inv H.
        destruct (match_branch_shape _ _ _ E2)
          as (Hne & Hall & post & Hs & Hp).
        split; [exact Hne|]. split; [exact Hall|].
        exists "", "discord.com/invite/", post. cbn [In]. auto.
      * intros H. destruct (IH H) as (Hne & Hall & pre & m & post & Hm & Hs & Hp).
        split; [exact Hne|]. split; [exact Hall|].
        exists (String a pre), m, post. split; [exact Hm|].
        split; [cbn; f_equal; exact Hs|exact Hp].
Qed.

Lemma invite_code_shape_witness :
  "py-thon" <> ""
  /\ all_chars Dcil.is_code_char "py-thon" = true
  /\ exists pre marker post,
       In marker ["discord.gg/"; "discord.com/invite/"]
       /\ "https://discord.gg/py-thon?event=1"
          = (pre ++ marker ++ "py-thon" ++ post)%string
       /\ (post = ""
           \/ exists c post', post = String c post'
                              /\ Dcil.is_code_char c = false).
Proof.
  apply (invite_code_shape "https://discord.gg/py-thon?event=1" "py-thon").
  reflexivity.
Defined.

(** X18. [scrape_discord_community] returns a record exactly when the link
    holds an invite code, the endpoint answers that code with status 200
    and a JSON body that has both counts and the name of the guild; the
    record keeps the link as it was given, and its offline count is the
    difference of the two counts. *)
Theorem scrape_succeeds_exactly_when
    (get : string -> option Dcil.response) (l : string) (i : Dcil.info) :
  Dcil.scrape_discord_community get l = Ok i
  <-> exists code resp d g n total active,
        Dcil.search_invite l = Some code
        /\ get (Dcil.invite_url code) = Some resp
        /\ Dcil.status_code resp = 200
        /\ Dcil.json resp = Some d
        /\ Dcil.approximate_member_count d = Some total
        /\ Dcil.approximate_presence_count d = Some active
        /\ Dcil.guild_object d = Some g
        /\ Dcil.name g = Some n
        /\ i = Dcil.mkInfo n l active (total - active) total.
Proof.
  unfold Dcil.scrape_discord_community, Dcil.scrape_body. split.
  - destruct (Dcil.search_invite l) as [code|] eqn:Ec; [|discriminate].
    destruct (get (Dcil.invite_url code)) as [resp|] eqn:Er; [|discriminate].
    destruct (Dcil.status_code resp =? 200) eqn:Es; [|discriminate].
    apply Z.eqb_eq in Es. cbn [negb].
    destruct (Dcil.json resp) as [d|] eqn:Ej; [|discriminate].
    destruct (Dcil.approximate_member_count d) as [total|] eqn:Et;
      [|cbn; discriminate].
    destruct (Dcil.approximate_presence_count d) as [active|] eqn:Ea;
      [|cbn; discriminate].
    destruct (Dcil.guild_object d) as [g|] eqn:Eg; [|cbn; discriminate].
    destruct g as [[n|]]; [|cbn; discriminate].
    cbn. intros H; inv H.
    exists code, resp, d, (Dcil.mkGuild (Some n)), n, total, active.
    repeat split; first [assumption | reflexivity].
  - intros (code & resp & d & g & n & total & active
            & -> & -> & Hs & -> & Ht & Ha & Hg & Hn & ->).
    rewrite Hs. cbn [Z.eqb Pos.eqb negb]. rewrite Ht, Ha, Hg. cbn.
    rewrite Hn. reflexivity.
Qed.

(** ** The batch of dcil.py *)

Lemma process_link_entry (w : Dcil.world) (a : Dcil.args) (l : string) :
  fst (fst (Dcil.process_link w a l)) = entry_of (Dcil.requests_get w) l.
Proof.
  unfold Dcil.process_link, entry_of.
  destruct (Dcil.scrape_discord_community (Dcil.requests_get w) l) as [i|e];
    [|reflexivity].
  destruct (Dcil.save_individual w a i (Dcil.format_report i)). reflexivity.
Qed.

Lemma process_links_entries (w : Dcil.world) (a : Dcil.args)
    (links : list string) :
  fst (fst (Dcil.process_links w a links))
  = map (entry_of (Dcil.requests_get w)) links.
Proof.
  induction links as [|l rest IH]; [reflexivity|].
  cbn [Dcil.process_links map]. rewrite <- IH, <- (process_link_entry w a l).
  destruct (Dcil.process_link w a l) as [[report out] files].
  destruct (Dcil.process_links w a rest) as [[reports outs] more].
  reflexivity.
Qed.

(** X19. With [-L] and [-s], the combined file holds one entry for every
    line of the links file that is not blank, in the order of the file:
    the report of the link, or the message of its failure. A link that
    fails and a community file that cannot be written do not stop the
    batch. *)
Theorem combined_report_holds_every_link
    (w : Dcil.world) (a : Dcil.args) (content : string) (r : Dcil.run) :
  Dcil.arg_u a = false ->
  truthy (Dcil.arg_l a) = false ->
  truthy (Dcil.arg_L a) = true ->
  truthy (Dcil.arg_s a) = true ->
  truthy (Dcil.arg_d a) && negb (truthy (Dcil.arg_S a)) = false ->
  Dcil.open_read w (text (Dcil.arg_L a)) = Ok content ->
  Dcil.open_write w (Dcil.ensure_txt_extension (text (Dcil.arg_s a))) = None ->
  Dcil.main w a = Ok r ->
  exists files,
    Dcil.written r
    = (files
       ++ [ (Dcil.ensure_txt_extension (text (Dcil.arg_s a)),
             Dcil.join Dcil.blank_line
               (map (entry_of (Dcil.requests_get w))
                    (Dcil.links_of content))) ])%list.
Proof.
  intros Hu Hl HL Hs Hd Hread Hwrite. unfold Dcil.main.
  rewrite Hu, Hl, HL, Hd, Hread. cbn [negb orb andb].
  rewrite andb_false_r. cbn [bind].
  destruct (if truthy (Dcil.arg_d a)
            then Dcil.ensure_directory_exists w (text (Dcil.arg_d a))
            else Ok []) as [dirs|e]; cbn [bind]; [|discriminate].
  pose proof (process_links_entries w a (Dcil.links_of content)) as Hentries.
  destruct (Dcil.process_links w a (Dcil.links_of content))
    as [[reports out] files].
  cbn [fst] in Hentries. subst reports.
  unfold Dcil.finish. rewrite Hs, Hwrite. cbn [app].
  intros H; inv H. cbn [Dcil.written]. exists files. reflexivity.
Qed.

Lemma combined_report_holds_every_link_witness :
  exists r files,
    Dcil.main chess_world batch_args = Ok r
    /\ Dcil.written r
       = (files
          ++ [ (Dcil.ensure_txt_extension (text (Dcil.arg_s batch_args)),
                Dcil.join Dcil.blank_line
                  (map (entry_of (Dcil.requests_get chess_world))
                     (Dcil.links_of
                        ("https://discord.gg/chess" ++ String PyStr.LF
                           ("" ++ String PyStr.LF
                              "https://example.org/nothing"))))) ])%list.
Proof.
  eexists.
  assert (H : forall r, Dcil.main chess_world batch_args = Ok r ->
            exists files,
              Dcil.written r
              = (files
                 ++ [ (Dcil.ensure_txt_extension
                         (text (Dcil.arg_s batch_args)),
                       Dcil.join Dcil.blank_line
                         (map (entry_of (Dcil.requests_get chess_world))
                            (Dcil.links_of
                               ("https://discord.gg/chess" ++ String PyStr.LF
                                  ("" ++ String PyStr.LF
                                     "https://example.org/nothing"))))) ])%list).
  { intros r. apply (combined_report_holds_every_link chess_world batch_args);
      reflexivity. }
  destruct (H _ eq_refl) as [files Hf]. exists files.
  split; [reflexivity|exact Hf].
Defined.

Lemma main_cases (w : Dcil.world) (a : Dcil.args) (r : Dcil.run) :
  Dcil.main w a = Ok r ->
  Dcil.written r = []
  \/ exists reports out files dirs,
       r = Dcil.finish w a reports out files dirs
       /\ (files = []
           \/ exists content out' reports',
                Dcil.process_links w a (Dcil.links_of content)
                = (reports', out', files)).
Proof.
  unfold Dcil.main.
  destruct (Dcil.arg_u a
            || negb (truthy (Dcil.arg_l a)) && negb (truthy (Dcil.arg_L a)));
    [intros H; inv H; left; reflexivity|].
  destruct ((truthy (Dcil.arg_S a) || truthy (Dcil.arg_d a))
            && negb (truthy (Dcil.arg_L a)));
    [intros H; inv H; left; reflexivity|].
  destruct (truthy (Dcil.arg_d a) && negb (truthy (Dcil.arg_S a)));
    [intros H; inv H; left; reflexivity|].
  destruct (if truthy (Dcil.arg_d a)
            then Dcil.ensure_directory_exists w (text (Dcil.arg_d a))
            else Ok []) as [dirs|e]; cbn [bind]; [|discriminate].
  destruct (if truthy (Dcil.arg_l a)
            then match Dcil.scrape_discord_community (Dcil.requests_get w)
                         (text (Dcil.arg_l a)) with
                 | Ok i => Ok [Dcil.format_report i]
                 | Raise e => Raise e
                 end
            else Ok []) as [single|e];
    [|intros H; inv H; left; reflexivity].
  destruct (truthy (Dcil.arg_L a)).
  - destruct (Dcil.open_read w (text (Dcil.arg_L a))) as [content|e];
      [|intros H; inv H; left; reflexivity].
    destruct (Dcil.process_links w a (Dcil.links_of content))
      as [[reports out] files] eqn:E.
    intros H; inv H. right. do 4 eexists. split; [reflexivity|].
    right. eauto.
  - intros H; inv H. right. do 4 eexists. split; [reflexivity|]. auto.
Qed.

Lemma save_individual_off (w : Dcil.world) (a : Dcil.args) (i : Dcil.info)
    (report : string) :
  truthy (Dcil.arg_S a) = false ->
  Dcil.save_individual w a i report = ([], []).
Proof. unfold Dcil.save_individual. intros ->. reflexivity. Qed.

Lemma process_links_off (w : Dcil.world) (a : Dcil.args)
    (links : list string) :
  truthy (Dcil.arg_S a) = false ->
  snd (Dcil.process_links w a links) = [].
Proof.
  intros HS. induction links as [|l rest IH]; [reflexivity|].
  cbn [Dcil.process_links]. unfold Dcil.process_link.
  destruct (Dcil.process_links w a rest) as [[reports outs] more].
  cbn [snd] in IH. subst more.
  destruct (Dcil.scrape_discord_community (Dcil.requests_get w) l);
    [rewrite save_individual_off by exact HS|]; reflexivity.
Qed.

(** X20. Without [-s] and without [-S] a run of dcil.py writes no file,
    whatever the links and the answers of the endpoint. *)
Theorem nothing_written_without_save_flags
    (w : Dcil.world) (a : Dcil.args) (r : Dcil.run) :
  Dcil.main w a = Ok r ->
  truthy (Dcil.arg_s a) = false ->
  truthy (Dcil.arg_S a) = false ->
  Dcil.written r = [].
Proof.
  intros Hr Hs HS.
  destruct (main_cases w a r Hr)
    as [H | (reports & out & files & dirs & -> & Hfiles)]; [exact H|].
  unfold Dcil.finish. rewrite Hs, HS. cbn [negb Dcil.written].
  destruct Hfiles as [->|(content & out' & reports' & E)]; [reflexivity|].
  pose proof (process_links_off w a (Dcil.links_of content) HS) as Hoff.
  rewrite E in Hoff. exact Hoff.
Qed.

Lemma nothing_written_without_save_flags_witness :
  exists r,
    Dcil.main chess_world print_args = Ok r /\ Dcil.written r = [].
Proof.
  eexists. split; [reflexivity|].
  apply (nothing_written_without_save_flags chess_world print_args);
    reflexivity.
Defined.

Lemma append_assoc (s t u : string) :
  ((s ++ t) ++ u = s ++ (t ++ u))%string.
Proof.
  induction s as [|a s IH]; cbn; [reflexivity|]. rewrite IH. reflexivity.
Qed.

Lemma txt_after_prefix (pre f : string) :
  PyStr.endswith (Dcil.lower f) ".txt" = true ->
  PyStr.endswith (Dcil.lower (pre ++ f)) ".txt" = true.
Proof.
  intros H. destruct (endswith_split _ _ H) as [q Hq].
  rewrite lower_append, Hq, <- append_assoc. apply endswith_append.
Qed.

Lemma txt_after_join (d f : string) :
  PyStr.endswith (Dcil.lower f) ".txt" = true ->
  PyStr.endswith (Dcil.lower (path_join d f)) ".txt" = true.
Proof.
  intros H. unfold path_join.
  destruct (PyStr.startswith f "/"); [exact H|].
  destruct (String.eqb d "" || PyStr.endswith d "/").
  - apply txt_after_prefix, H.
  - apply txt_after_prefix. apply (txt_after_prefix "/"), H.
Qed.

Lemma ensure_txt_extension_lower (f : string) :
  PyStr.endswith (Dcil.lower (Dcil.ensure_txt_extension f)) ".txt" = true.
Proof.
  unfold Dcil.ensure_txt_extension.
  destruct (PyStr.endswith (Dcil.lower f) ".txt") eqn:E; cbn [negb];
    [exact E|].
  rewrite lower_append. apply (endswith_append (Dcil.lower f) ".txt").
Qed.

Lemma save_individual_txt (w : Dcil.world) (a : Dcil.args) (i : Dcil.info)
    (report : string) :
  Forall txt_path (snd (Dcil.save_individual w a i report)).
Proof.
  unfold Dcil.save_individual.
  destruct (truthy (Dcil.arg_S a)); [|constructor].
  match goal with
  | |- context [Dcil.open_write w ?p] =>
      assert (Hp : PyStr.endswith (Dcil.lower p) ".txt" = true);
      [|destruct (Dcil.open_write w p); cbn [snd];
        [constructor | constructor; [exact Hp|constructor]]]
  end.
  destruct (truthy (Dcil.arg_d a));
    [apply txt_after_join|]; apply ensure_txt_extension_lower.
Qed.

Lemma process_links_txt (w : Dcil.world) (a : Dcil.args)
    (links : list string) :
  Forall txt_path (snd (Dcil.process_links w a links)).
Proof.
  induction links as [|l rest IH]; [constructor|].
  cbn [Dcil.process_links]. unfold Dcil.process_link.
  destruct (Dcil.process_links w a rest) as [[reports outs] more].
  cbn [snd] in IH.
  destruct (Dcil.scrape_discord_community (Dcil.requests_get w) l) as [i|e].
  - pose proof (save_individual_txt w a i (Dcil.format_report i)) as Hs.
    destruct (Dcil.save_individual w a i (Dcil.format_report i))
      as [out files].
    cbn [snd] in Hs |- *. apply Forall_app. split; assumption.
  - cbn [snd app]. exact IH.
Qed.

(** X21. Every file that a run of dcil.py writes, the file of a community
    under [-S] and the combined file under [-s], has a name that ends in
    [.txt] when case is set aside. *)
Theorem written_files_end_in_txt
    (w : Dcil.world) (a : Dcil.args) (r : Dcil.run) :
  Dcil.main w a = Ok r ->
  Forall (fun file => PyStr.endswith (Dcil.lower (fst file)) ".txt" = true)
         (Dcil.written r).
Proof.
  intros Hr.
  destruct (main_cases w a r Hr)
    as [H | (reports & out & files & dirs & -> & Hfiles)];
    [rewrite H; constructor|].
  assert (Hf : Forall txt_path files).
  { destruct Hfiles as [->|(content & out' & reports' & E)]; [constructor|].
    pose proof (process_links_txt w a (Dcil.links_of content)) as H.
    rewrite E in H. exact H. }
  unfold Dcil.finish.
  destruct (truthy (Dcil.arg_s a)).
  - destruct (Dcil.open_write w
                (Dcil.ensure_txt_extension (text (Dcil.arg_s a))));
      cbn [Dcil.written]; [exact Hf|].
    apply Forall_app. split; [exact Hf|].
    constructor; [|constructor]. apply ensure_txt_extension_lower.
  - destruct (negb (truthy (Dcil.arg_S a))); exact Hf.
Qed.

Lemma written_files_end_in_txt_witness :
  exists r,
    Dcil.main chess_world batch_args = Ok r
    /\ Forall (fun file =>
                 PyStr.endswith (Dcil.lower (fst file)) ".txt" = true)
              (Dcil.written r).
Proof.
  eexists. split; [reflexivity|].
  apply (written_files_end_in_txt chess_world batch_args). reflexivity.
Defined.
